(** * Timetable synchronisation engine of ots-server: a shallow embedding

    The development follows the sources
      - [src/queue/index.ts]   ([performSync], [scheduleTimetableSync],
                                [triggerImmediateSync]),
      - [src/lib/encryption]   ([ENCRYPTION_KEY], [encrypt], [decrypt]),
      - [src/providers/index.ts] ([getProvider]),
      - the server's handlers [POST /api/timetables],
        [GET /api/timetables], [DELETE /api/timetables/:id] and
        [POST /api/api-keys], and its [validateApiKey] middleware.

    JavaScript values are modelled as the code uses them: time values of
    [Date] objects as integers (milliseconds), strings handled by the vault
    as lists of UTF-16 code units, buffers as lists of bytes, identifiers
    and messages as opaque strings.  Calls that leave the process (Prisma,
    BullMQ, the provider, the console) are steps of a state-and-exception
    monad over an explicit world, and every such call is recorded in the
    world's trace. *)

From Stdlib Require Import ZArith List String Ascii Bool Lia.
Import ListNotations.
Local Open Scope Z_scope.
#[local] Set Warnings "-register-all".

(* ------------------------------------------------------------------ *)
(** * ECMAScript [Date]: the abstract operations the code relies on     *)
(* ------------------------------------------------------------------ *)

(** Time values are handled in local time: [new Date(y, m, d)],
    [getFullYear], [getMonth], [getDate] and [setDate] all compose the
    abstract operations below with [LocalTime]/[UTC], which cancel out
    away from daylight-saving gaps.  [TimeClip] is the identity on the
    range of years the theorems cover. *)
Module JsDate.

Definition msPerDay : Z := 86400000.

Definition Day (t : Z) : Z := t / msPerDay.
Definition TimeWithinDay (t : Z) : Z := t mod msPerDay.

Definition DaysInYear (y : Z) : Z :=
  if negb (y mod 4 =? 0) then 365
  else if negb (y mod 100 =? 0) then 366
  else if negb (y mod 400 =? 0) then 365
  else 366.

Definition DayFromYear (y : Z) : Z :=
  365 * (y - 1970) + (y - 1969) / 4 - (y - 1901) / 100 + (y - 1601) / 400.

Definition TimeFromYear (y : Z) : Z := msPerDay * DayFromYear y.

(** [YearFromTime t] is the largest [y] with [TimeFromYear y <= t]; it is
    computed from the mean length of a Gregorian year and adjusted by at
    most one year (see [YearFromDay_spec]). *)
Definition YearFromDay (d : Z) : Z :=
  let y0 := 1970 + (d * 400) / 146097 in
  if d <? DayFromYear y0 then y0 - 1
  else if DayFromYear (y0 + 1) <=? d then y0 + 1
  else y0.

Definition YearFromTime (t : Z) : Z := YearFromDay (Day t).

(** 1 in a leap year, 0 otherwise. *)
Definition leap (y : Z) : Z := if DaysInYear y =? 366 then 1 else 0.

Definition InLeapYear (t : Z) : Z := leap (YearFromTime t).

Definition DayWithinYear (t : Z) : Z :=
  Day t - DayFromYear (YearFromTime t).

Definition MonthFromTime (t : Z) : Z :=
  let d := DayWithinYear t in
  let l := InLeapYear t in
  if d <? 31 then 0
  else if d <? 59 + l then 1
  else if d <? 90 + l then 2
  else if d <? 120 + l then 3
  else if d <? 151 + l then 4
  else if d <? 181 + l then 5
  else if d <? 212 + l then 6
  else if d <? 243 + l then 7
  else if d <? 273 + l then 8
  else if d <? 304 + l then 9
  else if d <? 334 + l then 10
  else 11.

Definition DateFromTime (t : Z) : Z :=
  let d := DayWithinYear t in
  let l := InLeapYear t in
  match MonthFromTime t with
  | 0 => d + 1
  | 1 => d - 30
  | 2 => d - 58 - l
  | 3 => d - 89 - l
  | 4 => d - 119 - l
  | 5 => d - 150 - l
  | 6 => d - 180 - l
  | 7 => d - 211 - l
  | 8 => d - 242 - l
  | 9 => d - 272 - l
  | 10 => d - 303 - l
  | _ => d - 333 - l
  end.

(** Days of the year before month [mn] (0..11), [l] being 1 in a leap
    year. *)
Definition month_start (l mn : Z) : Z :=
  match mn with
  | 0 => 0
  | 1 => 31
  | 2 => 59 + l
  | 3 => 90 + l
  | 4 => 120 + l
  | 5 => 151 + l
  | 6 => 181 + l
  | 7 => 212 + l
  | 8 => 243 + l
  | 9 => 273 + l
  | 10 => 304 + l
  | _ => 334 + l
  end.

(** Day number of the first day of month [mn] (0..11) of year [ym]. *)
Definition DayFromMonth (ym mn : Z) : Z :=
  DayFromYear ym + month_start (leap ym) mn.

Definition MakeDay (year month date : Z) : Z :=
  let ym := year + month / 12 in
  let mn := month mod 12 in
  DayFromMonth ym mn + date - 1.

Definition MakeTime (hour min sec ms : Z) : Z :=
  hour * 3600000 + min * 60000 + sec * 1000 + ms.

Definition MakeDate (day time : Z) : Z := day * msPerDay + time.

(** [new Date(year, monthIndex, day)]: years 0..99 stand for 1900..1999. *)
Definition new_Date (year monthIndex day : Z) : Z :=
  let yr := if (0 <=? year) && (year <=? 99) then 1900 + year else year in
  MakeDate (MakeDay yr monthIndex day) (MakeTime 0 0 0 0).

Definition getFullYear (t : Z) : Z := YearFromTime t.
Definition getMonth (t : Z) : Z := MonthFromTime t.
Definition getDate (t : Z) : Z := DateFromTime t.

(** [d.setDate(dt)] returns the new time value of [d]. *)
Definition setDate (t dt : Z) : Z :=
  MakeDate (MakeDay (YearFromTime t) (MonthFromTime t) dt) (TimeWithinDay t).

(** A civil date at local midnight, for stating results. *)
Definition civil (y m d : Z) (t : Z) : Prop :=
  YearFromTime t = y /\ MonthFromTime t = m /\ DateFromTime t = d /\
  TimeWithinDay t = 0.

(** Days of month [m] (0..11) of year [y]. *)
Definition DaysInMonth (y m : Z) : Z :=
  match m with
  | 1 => 28 + leap y
  | 3 | 5 | 8 | 10 => 30
  | _ => 31
  end.

End JsDate.

(* ------------------------------------------------------------------ *)
(** * The fetch window of [performSync] (lines 94-108)                   *)
(* ------------------------------------------------------------------ *)

Record Period := { startDate : Z; endDate : Z }.

(** [startYear]: before September (months 0..7) the academic year started
    in the previous calendar year. *)
Definition startYear (now : Z) : Z :=
  let currentYear := JsDate.getFullYear now in
  if JsDate.getMonth now <? 8 then currentYear - 1 else currentYear.

Definition period (now : Z) : Period :=
  {| startDate := JsDate.new_Date (startYear now) 8 1;
     endDate := JsDate.new_Date (startYear now + 1) 7 30 |}.

(** [from] and [to] as passed to the provider: [to] aliases
    [period.endDate] and is moved 14 days on by [setDate].  Both are
    local time values, that is civil dates with a time of day; the
    instants they stand for lie further apart or closer by whatever the
    zone offset changes between them. *)
Definition fetch_window (now : Z) : Z * Z :=
  let p := period now in
  let from := startDate p in
  let to := endDate p in
  let to := JsDate.setDate to (JsDate.getDate to + 14) in
  (from, to).

(* ------------------------------------------------------------------ *)
(** * JavaScript strings, buffers and values                            *)
(* ------------------------------------------------------------------ *)

(** A JavaScript string is its sequence of UTF-16 code units; a buffer is
    its sequence of bytes. *)
Definition jsstring := list Z.
Definition bytes := list Z.

(** String literals of the source (all ASCII). *)
Definition js (s : string) : jsstring :=
  map (fun a => Z.of_N (N_of_ascii a)) (list_ascii_of_string s).

Fixpoint jsstring_eqb (a b : jsstring) : bool :=
  match a, b with
  | [], [] => true
  | x :: a', y :: b' => (x =? y) && jsstring_eqb a' b'
  | _, _ => false
  end.

(** [s.length] *)
Definition js_length (s : jsstring) : Z := Z.of_nat (List.length s).

(** Truthiness of a string: only the empty string is falsy. *)
Definition truthy_string (s : jsstring) : bool :=
  match s with [] => false | _ :: _ => true end.

(** Truthiness of a nullable string ([string | null | undefined]). *)
Definition truthy_opt (s : option jsstring) : bool :=
  match s with Some s => truthy_string s | None => false end.

Inductive JsValue : Type :=
| JUndefined
| JNull
| JBool (b : bool)
| JNumber (n : Z)
| JString (s : jsstring)
| JArray (items : list JsValue) (named : list (jsstring * JsValue))
| JObject (props : list (jsstring * JsValue)).

Definition truthy (v : JsValue) : bool :=
  match v with
  | JUndefined | JNull => false
  | JBool b => b
  | JNumber n => negb (n =? 0)
  | JString s => truthy_string s
  | JArray _ _ | JObject _ => true
  end.

(** Own properties in insertion order: assigning an existing key keeps
    its place, a new key goes last. *)
Fixpoint props_set (ps : list (jsstring * JsValue)) (k : jsstring)
  (v : JsValue) : list (jsstring * JsValue) :=
  match ps with
  | [] => [(k, v)]
  | (k', v') :: ps' =>
      if jsstring_eqb k' k then (k, v) :: ps'
      else (k', v') :: props_set ps' k v
  end.

Fixpoint props_get (ps : list (jsstring * JsValue)) (k : jsstring)
  : JsValue :=
  match ps with
  | [] => JUndefined
  | (k', v') :: ps' => if jsstring_eqb k' k then v' else props_get ps' k
  end.

(** Thrown values; [exn_message] is [error.message]. *)
Inductive Exn : Type :=
| Error (message : jsstring)
| TypeError (message : jsstring)
| RangeError (message : jsstring)
| SyntaxError (message : jsstring)
| PrismaError (message : jsstring)
| ProviderError (message : jsstring).

Definition exn_message (e : Exn) : jsstring :=
  match e with
  | Error m | TypeError m | RangeError m | SyntaxError m
  | PrismaError m | ProviderError m => m
  end.

Inductive Outcome (A : Type) : Type :=
| Returned (a : A)
| Threw (e : Exn).
Arguments Returned {A} a.
Arguments Threw {A} e.

(** [obj.key = v] in strict mode (ES modules): assigning a property of
    [null], [undefined] or a primitive throws a [TypeError]. *)
Definition set_property (obj : JsValue) (k : jsstring) (v : JsValue)
  : Outcome JsValue :=
  match obj with
  | JObject ps => Returned (JObject (props_set ps k v))
  | JArray items named => Returned (JArray items (props_set named k v))
  | JUndefined | JNull =>
      Threw (TypeError (js "Cannot set properties of " ++ k))
  | JBool _ | JNumber _ | JString _ =>
      Threw (TypeError (js "Cannot create property " ++ k))
  end.

Definition get_property (obj : JsValue) (k : jsstring) : JsValue :=
  match obj with
  | JObject ps => props_get ps k
  | JArray _ named => props_get named k
  | _ => JUndefined
  end.

(* ------------------------------------------------------------------ *)
(** * Encodings used by the vault: hex and UTF-8                        *)
(* ------------------------------------------------------------------ *)

Module Encoding.

(** [buf.toString("hex")]: two lower-case digits per byte. *)
Definition hex_digit (n : Z) : Z :=
  if n <? 10 then 48 + n else 87 + n.

Definition hex_encode (bs : bytes) : jsstring :=
  flat_map (fun b => [hex_digit (b / 16); hex_digit (b mod 16)]) bs.

Definition hex_value (c : Z) : option Z :=
  if (48 <=? c) && (c <=? 57) then Some (c - 48)
  else if (97 <=? c) && (c <=? 102) then Some (c - 87)
  else if (65 <=? c) && (c <=? 70) then Some (c - 55)
  else None.

(** [Buffer.from(s, "hex")]: decoding stops at the first pair that is not
    two hex digits; a trailing single character is dropped. *)
Fixpoint hex_decode (s : jsstring) : bytes :=
  match s with
  | a :: b :: rest =>
      match hex_value a, hex_value b with
      | Some h, Some l => (16 * h + l) :: hex_decode rest
      | _, _ => []
      end
  | _ => []
  end.

Definition is_high_surrogate (c : Z) : bool := (55296 <=? c) && (c <=? 56319).
Definition is_low_surrogate (c : Z) : bool := (56320 <=? c) && (c <=? 57343).

Definition utf8_of_code_point (cp : Z) : bytes :=
  if cp <? 128 then [cp]
  else if cp <? 2048 then [192 + cp / 64; 128 + cp mod 64]
  else if cp <? 65536 then
    [224 + cp / 4096; 128 + (cp / 64) mod 64; 128 + cp mod 64]
  else
    [240 + cp / 262144; 128 + (cp / 4096) mod 64;
     128 + (cp / 64) mod 64; 128 + cp mod 64].

(** The bytes of U+FFFD, written for every lone surrogate. *)
Definition replacement_bytes : bytes := [239; 191; 189].

(** [Buffer.from(s, "utf8")] *)
Fixpoint utf8_encode (s : jsstring) : bytes :=
  match s with
  | [] => []
  | c :: rest =>
      if is_high_surrogate c then
        match rest with
        | c2 :: rest' =>
            if is_low_surrogate c2 then
              utf8_of_code_point
                (65536 + (c - 55296) * 1024 + (c2 - 56320))
              ++ utf8_encode rest'
            else replacement_bytes ++ utf8_encode rest
        | [] => replacement_bytes
        end
      else if is_low_surrogate c then replacement_bytes ++ utf8_encode rest
      else utf8_of_code_point c ++ utf8_encode rest
  end.

Definition utf16_of_code_point (cp : Z) : jsstring :=
  if cp <? 65536 then [cp]
  else [55296 + (cp - 65536) / 1024; 56320 + (cp - 65536) mod 1024].

(** State of the UTF-8 decoder between two bytes of a sequence:
    the code point so far, the continuation bytes still needed, and the
    bounds of the next continuation byte. *)
Record Utf8State := {
  u_code_point : Z;
  u_needed : nat;
  u_lower : Z;
  u_upper : Z }.

Definition utf8_initial : Utf8State :=
  {| u_code_point := 0; u_needed := 0; u_lower := 128; u_upper := 191 |}.

(** A byte read with no sequence pending. *)
Definition utf8_lead (b : Z) : Utf8State * jsstring :=
  if b <=? 127 then (utf8_initial, [b])
  else if (194 <=? b) && (b <=? 223) then
    ({| u_code_point := b - 192; u_needed := 1;
        u_lower := 128; u_upper := 191 |}, [])
  else if (224 <=? b) && (b <=? 239) then
    ({| u_code_point := b - 224; u_needed := 2;
        u_lower := if b =? 224 then 160 else 128;
        u_upper := if b =? 237 then 159 else 191 |}, [])
  else if (240 <=? b) && (b <=? 244) then
    ({| u_code_point := b - 240; u_needed := 3;
        u_lower := if b =? 240 then 144 else 128;
        u_upper := if b =? 244 then 143 else 191 |}, [])
  else (utf8_initial, [65533]).

Definition utf8_step (st : Utf8State) (b : Z) : Utf8State * jsstring :=
  match u_needed st with
  | O => utf8_lead b
  | S n =>
      if (u_lower st <=? b) && (b <=? u_upper st) then
        let cp := u_code_point st * 64 + (b - 128) in
        match n with
        | O => (utf8_initial, utf16_of_code_point cp)
        | S _ =>
            ({| u_code_point := cp; u_needed := n;
                u_lower := 128; u_upper := 191 |}, [])
        end
      else
        (* the sequence is cut short: U+FFFD, and the byte is read again
           as the start of a new sequence *)
        let '(st', out) := utf8_lead b in (st', 65533 :: out)
  end.

Fixpoint utf8_decode_from (st : Utf8State) (bs : bytes) : jsstring :=
  match bs with
  | [] => match u_needed st with O => [] | S _ => [65533] end
  | b :: rest =>
      let '(st', out) := utf8_step st b in
      out ++ utf8_decode_from st' rest
  end.

(** [buf.toString("utf8")] *)
Definition utf8_decode (bs : bytes) : jsstring :=
  utf8_decode_from utf8_initial bs.

(** [s.split(":")]: the pieces between the separators, at least one. *)
Fixpoint split (sep : Z) (s : jsstring) : list jsstring :=
  match s with
  | [] => [[]]
  | c :: rest =>
      if c =? sep then [] :: split sep rest
      else
        match split sep rest with
        | piece :: pieces => (c :: piece) :: pieces
        | [] => [[c]]
        end
  end.

(** Values a buffer holds. *)
Definition is_byte (b : Z) : Prop := 0 <= b < 256.

(** Strings without lone surrogates, code unit by code unit. *)
Inductive WellFormed : jsstring -> Prop :=
| wf_empty : WellFormed []
| wf_unit c s :
    0 <= c < 65536 -> is_high_surrogate c = false ->
    is_low_surrogate c = false -> WellFormed s -> WellFormed (c :: s)
| wf_pair hi lo s :
    is_high_surrogate hi = true -> is_low_surrogate lo = true ->
    WellFormed s -> WellFormed (hi :: lo :: s).

(** Scalar values: code points that are not surrogates. *)
Definition is_scalar (cp : Z) : Prop :=
  0 <= cp < 55296 \/ 57344 <= cp < 1114112.

End Encoding.

(* ------------------------------------------------------------------ *)
(** * The credential vault ([lib/encryption])                           *)
(* ------------------------------------------------------------------ *)

(** [node:crypto]'s ["aes-256-gcm"] is taken by its structure (NIST SP
    800-38D): the ciphertext is the plaintext XORed with a key stream that
    depends on key and IV (AES in counter mode), the tag is a 16-byte MAC
    of key, IV and ciphertext (GHASH).  The block cipher itself stays a
    parameter. *)
Record NodeCrypto := {
  gcm_keystream : bytes -> bytes -> nat -> Z;
  gcm_mac : bytes -> bytes -> bytes -> bytes }.

Record EncryptedPayload := { encryptedData : jsstring; iv : jsstring }.

Module Vault.
Import Encoding.

(** [process.env.ENCRYPTION_KEY || "0123456789abcdef0123456789abcdef"] *)
Definition dev_fallback_key : jsstring := js "0123456789abcdef0123456789abcdef".

Definition ENCRYPTION_KEY (env_key : option jsstring) : jsstring :=
  if truthy_opt env_key then
    match env_key with Some k => k | None => dev_fallback_key end
  else dev_fallback_key.

(** Evaluation of the module body: the key it keeps, or the error thrown
    while the module is loaded. *)
Definition module_init (env_key : option jsstring) : Outcome jsstring :=
  let key := ENCRYPTION_KEY env_key in
  if negb (js_length key =? 32) then
    Threw (Error (js "ENCRYPTION_KEY must be exactly 32 characters long."))
  else Returned key.

Definition byte_of (z : Z) : Z := z mod 256.

Fixpoint gctr_from (ks : nat -> Z) (i : nat) (data : bytes) : bytes :=
  match data with
  | [] => []
  | b :: rest => Z.lxor b (byte_of (ks i)) :: gctr_from ks (S i) rest
  end.

Fixpoint bytes_eqb (a b : bytes) : bool :=
  match a, b with
  | [], [] => true
  | x :: a', y :: b' => (x =? y) && bytes_eqb a' b'
  | _, _ => false
  end.

(** Tag lengths [setAuthTag] accepts for GCM when no [authTagLength]
    option was given. *)
Definition valid_gcm_tag_length (n : nat) : bool :=
  (Nat.eqb n 4) || (Nat.eqb n 8) || ((12 <=? n)%nat && (n <=? 16)%nat).

Section WithKey.
Variable crypto : NodeCrypto.
Variable key : jsstring.            (* the module's [ENCRYPTION_KEY] *)

Definition key_bytes : bytes := utf8_encode key.   (* [Buffer.from(key)] *)

Definition gctr (ivb data : bytes) : bytes :=
  gctr_from (gcm_keystream crypto key_bytes ivb) 0 data.

Definition gcm_tag (ivb ct : bytes) : bytes :=
  map (fun i => byte_of (nth i (gcm_mac crypto key_bytes ivb ct) 0))
      (seq 0 16).

(** [crypto.createCipheriv] / [createDecipheriv] with ["aes-256-gcm"]:
    an empty IV is refused first, then a key that is not 32 bytes long. *)
Definition createCipheriv (ivb : bytes) : Outcome unit :=
  if Nat.eqb (List.length ivb) 0 then
    Threw (TypeError (js "Invalid initialization vector"))
  else if negb (Nat.eqb (List.length key_bytes) 32) then
    Threw (RangeError (js "Invalid key length"))
  else Returned tt.

(** [encrypt(text)], with the 16 bytes [crypto.randomBytes(16)] drew. *)
Definition encrypt (ivb : bytes) (text : jsstring) : Outcome EncryptedPayload :=
  match createCipheriv ivb with
  | Threw e => Threw e
  | Returned _ =>
      let ct := gctr ivb (utf8_encode text) in
      let encrypted := hex_encode ct in
      let authTag := hex_encode (gcm_tag ivb ct) in
      Returned {| encryptedData := encrypted ++ js ":" ++ authTag;
                   iv := hex_encode ivb |}
  end.

(** [decrypt(encryptedData, ivHex)] *)
Definition decrypt (encryptedData ivHex : jsstring) : Outcome jsstring :=
  let parts := split 58 encryptedData in
  let encryptedText := nth_error parts 0 in
  let authTagHex := nth_error parts 1 in
  if negb (truthy_opt encryptedText) || negb (truthy_opt authTagHex) then
    Threw (Error (js "Invalid encrypted data format"))
  else
    match encryptedText, authTagHex with
    | Some encryptedText, Some authTagHex =>
        let ivb := hex_decode ivHex in
        let authTag := hex_decode authTagHex in
        match createCipheriv ivb with
        | Threw e => Threw e
        | Returned _ =>
            if negb (valid_gcm_tag_length (List.length authTag)) then
              Threw (TypeError (js "Invalid authentication tag length"))
            else if Nat.odd (List.length encryptedText) then
              (* [decipher.update(s, "hex", ...)] refuses a hex string of
                 odd length *)
              Threw (TypeError (js "The argument 'encoding' is invalid"))
            else
              let ct := hex_decode encryptedText in
              let decrypted := gctr ivb ct in
              if bytes_eqb authTag
                   (firstn (List.length authTag) (gcm_tag ivb ct)) then
                Returned (utf8_decode decrypted)
              else
                Threw (Error
                  (js "Unsupported state or unable to authenticate data"))
        end
    | _, _ => Threw (Error (js "Invalid encrypted data format"))
    end.

End WithKey.

(** What [decipher.final] throws when the tag does not verify. *)
Definition authentication_error : Exn :=
  Error (js "Unsupported state or unable to authenticate data").

(** Flipping bit [k] of byte [i]. *)
Definition flip_bit (bs : bytes) (i : nat) (k : Z) : bytes :=
  firstn i bs ++
  match skipn i bs with
  | b :: rest => Z.lxor b (2 ^ k) :: rest
  | [] => []
  end.

End Vault.

(* ------------------------------------------------------------------ *)
(** * Storage, broker and providers                                     *)
(* ------------------------------------------------------------------ *)

(** Rows of the three Prisma models the engine touches. *)
Record Timetable := {
  tt_id : jsstring;
  tt_userId : jsstring;
  tt_providerId : jsstring;
  tt_schoolId : option jsstring;
  tt_syncInterval : Z;
  tt_lastSyncedAt : option Z }.

Record Credentials := {
  cred_timetableId : jsstring;
  cred_encryptedCredentials : jsstring;
  cred_iv : jsstring }.

Record Course := {
  course_timetableId : jsstring;
  course_hash : jsstring;
  course_subject : jsstring;
  course_start : Z;
  course_end : Z;
  course_location : option jsstring;
  course_teacher : option jsstring;
  course_color : option jsstring }.

(** An event as a provider returns it ([hash] is optional). *)
Record FetchedCourse := {
  fc_hash : option jsstring;
  fc_subject : jsstring;
  fc_start : Z;
  fc_end : Z;
  fc_location : option jsstring;
  fc_teacher : option jsstring;
  fc_color : option jsstring }.

(** BullMQ keeps one repeatable registration per repeat key; the key is
    derived from the job name, the [jobId] and the repeat interval. *)
Record RepeatableJob := {
  rj_name : jsstring;
  rj_id : option jsstring;
  rj_every : Z }.

Definition RepeatKey : Type := jsstring * option jsstring * Z.

Definition rj_key (j : RepeatableJob) : RepeatKey :=
  (rj_name j, rj_id j, rj_every j).

Definition opt_jsstring_eqb (a b : option jsstring) : bool :=
  match a, b with
  | Some x, Some y => jsstring_eqb x y
  | None, None => true
  | _, _ => false
  end.

Definition key_eqb (a b : RepeatKey) : bool :=
  let '(n1, i1, e1) := a in
  let '(n2, i2, e2) := b in
  jsstring_eqb n1 n2 && opt_jsstring_eqb i1 i2 && (e1 =? e2).

(** An entry of the list [getRepeatableJobs()] resolves to.  BullMQ 5
    (from 5.10 on) stores a registration under its repeat key with its
    name and its interval and lists what it stored: an entry has a [key]
    and a [name] but no [id], so that [job.id] is [undefined]. *)
Record RepeatableEntry := {
  entry_key : RepeatKey;
  entry_name : jsstring;
  entry_id : option jsstring;
  entry_every : Z }.

Definition listed_as (j : RepeatableJob) : RepeatableEntry :=
  {| entry_key := rj_key j; entry_name := rj_name j;
     entry_id := None; entry_every := rj_every j |}.

(** A one-off job waiting in the queue. *)
Record Job := { job_name : jsstring; job_timetableId : jsstring }.

Record Queue := {
  repeatable : list RepeatableJob;
  waiting : list Job }.

(** A provider of [@studentsphere/ots-core]: its two calls answer or
    throw. *)
Record Provider := {
  provider_id : jsstring;
  provider_schools : option (list jsstring);
  validateCredentials : JsValue -> Outcome bool;
  getSchedule : JsValue -> Z -> Z -> Outcome (list FetchedCourse) }.

(** Every call that leaves the process, in the order it was made. *)
Inductive Event : Type :=
| ConsoleWarn (msg : jsstring)
| ConsoleError (msg : jsstring)
| TimetableFindUnique (id : jsstring)
| TimetableFindFirst (userId providerId : jsstring) (schoolId : option jsstring)
| TimetableCreate (row : Timetable) (creds : Credentials)
| TimetableUpdate (id : jsstring) (lastSyncedAt : Z)
| CourseDeleteMany (timetableId : jsstring) (gte : Z)
| CourseCreateMany (rows : list Course)
| CallValidateCredentials (providerId : jsstring) (creds : JsValue)
| CallGetSchedule (providerId : jsstring) (creds : JsValue) (from to : Z)
| GetScheduleReturned (fetched : list FetchedCourse)
| GetScheduleThrew (error : Exn)
| CallDecrypt (encryptedData ivHex : jsstring)
| CallEncrypt (ivb : bytes)
| QueueGetRepeatableJobs
| QueueRemoveRepeatableByKey (key : RepeatKey)
| QueueAdd (name timetableId : jsstring) (jobId : option jsstring)
    (every : option Z).

(** The world a run acts on.  [timetableQueue] is [None] when Redis could
    not be reached at start-up; [ticks] counts the reads of the clock and
    of the random sources. *)
Record World := {
  timetableQueue : option Queue;
  timetables : list Timetable;
  credentials : list Credentials;
  courses : list Course;
  ticks : nat }.

Definition set_queue (q : option Queue) (w : World) : World :=
  {| timetableQueue := q; timetables := timetables w;
     credentials := credentials w; courses := courses w;
     ticks := ticks w |}.

Definition set_timetables (ts : list Timetable) (w : World) : World :=
  {| timetableQueue := timetableQueue w; timetables := ts;
     credentials := credentials w; courses := courses w;
     ticks := ticks w |}.

Definition set_credentials (cs : list Credentials) (w : World) : World :=
  {| timetableQueue := timetableQueue w; timetables := timetables w;
     credentials := cs; courses := courses w;
     ticks := ticks w |}.

Definition set_courses (cs : list Course) (w : World) : World :=
  {| timetableQueue := timetableQueue w; timetables := timetables w;
     credentials := credentials w; courses := cs;
     ticks := ticks w |}.

Definition set_ticks (n : nat) (w : World) : World :=
  {| timetableQueue := timetableQueue w; timetables := timetables w;
     credentials := credentials w; courses := courses w;
     ticks := n |}.

Definition tick (w : World) : World := set_ticks (S (ticks w)) w.

(* ------------------------------------------------------------------ *)
(** * Asynchronous code as a state-and-exception monad                  *)
(* ------------------------------------------------------------------ *)

(** A computation maps the world to its outcome, the world it leaves and
    the calls it made, in order. *)
Definition M (A : Type) : Type := World -> Outcome A * World * list Event.

Definition ret {A} (a : A) : M A := fun w => (Returned a, w, []).
Definition throw {A} (e : Exn) : M A := fun w => (Threw e, w, []).

Definition bind {A B} (c : M A) (k : A -> M B) : M B :=
  fun w =>
    match c w with
    | (Returned a, w', evs) =>
        let '(o, w'', evs') := k a w' in (o, w'', evs ++ evs')
    | (Threw e, w', evs) => (Threw e, w', evs)
    end.

(** [try { c } catch (error) { h error }] *)
Definition try_catch {A} (c : M A) (h : Exn -> M A) : M A :=
  fun w =>
    match c w with
    | (Returned a, w', evs) => (Returned a, w', evs)
    | (Threw e, w', evs) =>
        let '(o, w'', evs') := h e w' in (o, w'', evs ++ evs')
    end.

(** A synchronous call that returns or throws. *)
Definition lift {A} (o : Outcome A) : M A := fun w => (o, w, []).

Definition emit (e : Event) : M unit := fun w => (Returned tt, w, [e]).

Declare Scope monad_scope.
Delimit Scope monad_scope with monad.
Notation "x <- c ;; k" := (bind c (fun x => k))
  (at level 61, c at next level, right associativity) : monad_scope.
Notation "c ;;; k" := (bind c (fun _ => k))
  (at level 61, right associativity) : monad_scope.
Local Open Scope monad_scope.

(** [for (const x of l) { body x }] *)
Fixpoint for_of {A} (l : list A) (body : A -> M unit) : M unit :=
  match l with
  | [] => ret tt
  | x :: l' => body x ;;; for_of l' body
  end.

(** [l.map(f)] for a callback that draws random values. *)
Fixpoint map_M {A B} (f : A -> M B) (l : list A) : M (list B) :=
  match l with
  | [] => ret []
  | x :: l' => y <- f x ;; ys <- map_M f l' ;; ret (y :: ys)
  end.

Definition console_warn (msg : jsstring) : M unit := emit (ConsoleWarn msg).
Definition console_error (msg : jsstring) : M unit := emit (ConsoleError msg).

(* ------------------------------------------------------------------ *)
(** * The engine ([queue/index.ts])                                     *)
(* ------------------------------------------------------------------ *)

(** What the process is started with and what it cannot control: the
    provider registry, the cipher, the key kept by [lib/encryption],
    [JSON], the clock and the random sources (each indexed by the number
    of reads made so far). *)
Record Env := {
  providers : list Provider;
  crypto : NodeCrypto;
  encryption_key : jsstring;
  JSON_parse : jsstring -> Outcome JsValue;
  JSON_stringify : JsValue -> jsstring;
  clock : nat -> Z;
  randomUUID : nat -> jsstring;
  entropy : nat -> nat -> Z;
  generated_id : nat -> jsstring }.

(** The value [performSync] resolves to:
    [{ success, message }] or [{ success, coursesCount }]. *)
Record SyncResult := {
  success : bool;
  message : option jsstring;
  coursesCount : option Z }.

Section Engine.
Variable env : Env.

(** [providers.find((p) => p.id === id)] *)
Definition getProvider (id : jsstring) : option Provider :=
  find (fun p => jsstring_eqb (provider_id p) id) (providers env).

(** [new Date()] *)
Definition Date_now : M Z :=
  fun w => (Returned (clock env (ticks w)), tick w, []).

(** [crypto.randomUUID()] *)
Definition crypto_randomUUID : M jsstring :=
  fun w => (Returned (randomUUID env (ticks w)), tick w, []).

(** [crypto.randomBytes(n)] *)
Definition crypto_randomBytes (n : nat) : M bytes :=
  fun w =>
    (Returned (map (fun i => Vault.byte_of (entropy env (ticks w) i)) (seq 0 n)),
     tick w, []).

(** [decrypt] of [lib/encryption], under the key the module keeps. *)
Definition decrypt (encryptedData ivHex : jsstring) : Outcome jsstring :=
  Vault.decrypt (crypto env) (encryption_key env) encryptedData ivHex.

(** Lines 84-92 of [performSync]: the credentials handed to the
    provider.  Nothing here touches the world. *)
Definition provider_credentials (timetable : Timetable) (creds : Credentials)
  : Outcome JsValue :=
  (* Decrypt credentials *)
  match decrypt (cred_encryptedCredentials creds) (cred_iv creds) with
  | Threw e => Threw e
  | Returned decryptedCredsStr =>
      match JSON_parse env decryptedCredsStr with
      | Threw e => Threw e
      | Returned credentials =>
          if truthy_opt (tt_schoolId timetable) then
            set_property credentials (js "schoolId")
              (match tt_schoolId timetable with
               | Some s => JString s
               | None => JNull
               end)
          else Returned credentials
      end
  end.

Definition encrypt (text : jsstring) : M EncryptedPayload :=
  ivb <- crypto_randomBytes 16 ;;
  emit (CallEncrypt ivb) ;;;
  lift (Vault.encrypt (crypto env) (encryption_key env) ivb text).

(** [await provider.getSchedule(credentials, from, to)]: the call and
    its answer are both recorded. *)
Definition provider_getSchedule (provider : Provider) (credentials : JsValue)
  (from to : Z) : M (list FetchedCourse) :=
  emit (CallGetSchedule (provider_id provider) credentials from to) ;;;
  match getSchedule provider credentials from to with
  | Returned fetched => emit (GetScheduleReturned fetched) ;;; ret fetched
  | Threw e => emit (GetScheduleThrew e) ;;; throw e
  end.

(** ** Prisma *)

Definition has_id (id : jsstring) (t : Timetable) : bool :=
  jsstring_eqb (tt_id t) id.

(** The row with the given id, with its credential record if it has one. *)
Definition stored_timetable (id : jsstring) (w : World)
  : option (Timetable * option Credentials) :=
  match find (has_id id) (timetables w) with
  | Some t =>
      Some (t, find (fun c => jsstring_eqb (cred_timetableId c) id)
                    (credentials w))
  | None => None
  end.

(** [prisma.timetable.findUnique({ where: { id }, include: { credentials: true } })] *)
Definition prisma_timetable_findUnique (id : jsstring)
  : M (option (Timetable * option Credentials)) :=
  fun w => (Returned (stored_timetable id w), w, [TimetableFindUnique id]).

(** The rows [deleteMany({ where: { timetableId, start: { gte: from } } })]
    selects. *)
Definition in_delete_range (timetableId : jsstring) (from : Z) (c : Course)
  : bool :=
  jsstring_eqb (course_timetableId c) timetableId && (from <=? course_start c).

Definition prisma_course_deleteMany (timetableId : jsstring) (from : Z)
  : M unit :=
  fun w =>
    (Returned tt,
     set_courses
       (filter (fun c => negb (in_delete_range timetableId from c))
               (courses w)) w,
     [CourseDeleteMany timetableId from]).

Definition prisma_course_createMany (rows : list Course) : M unit :=
  fun w =>
    (Returned tt, set_courses (courses w ++ rows) w, [CourseCreateMany rows]).

Definition set_lastSyncedAt (t : Timetable) (at_ : Z) : Timetable :=
  {| tt_id := tt_id t; tt_userId := tt_userId t;
     tt_providerId := tt_providerId t; tt_schoolId := tt_schoolId t;
     tt_syncInterval := tt_syncInterval t; tt_lastSyncedAt := Some at_ |}.

(** [prisma.timetable.update({ where: { id }, data: { lastSyncedAt } })] *)
Definition prisma_timetable_update (id : jsstring) (lastSyncedAt : Z)
  : M unit :=
  fun w =>
    if existsb (has_id id) (timetables w) then
      (Returned tt,
       set_timetables
         (map (fun t => if has_id id t then set_lastSyncedAt t lastSyncedAt
                        else t)
              (timetables w)) w,
       [TimetableUpdate id lastSyncedAt])
    else
      (Threw (PrismaError (js "Record to update not found.")),
       w, [TimetableUpdate id lastSyncedAt]).

(** ** BullMQ, through the non-null [timetableQueue] *)

Definition null_queue {A} : Outcome A :=
  Threw (TypeError (js "Cannot read properties of null")).

Definition queue_getRepeatableJobs : M (list RepeatableEntry) :=
  fun w =>
    match timetableQueue w with
    | Some q =>
        (Returned (map listed_as (repeatable q)), w, [QueueGetRepeatableJobs])
    | None => (null_queue, w, [])
    end.

Definition queue_removeRepeatableByKey (k : RepeatKey) : M unit :=
  fun w =>
    match timetableQueue w with
    | Some q =>
        (Returned tt,
         set_queue
           (Some {| repeatable :=
                      filter (fun j => negb (key_eqb (rj_key j) k))
                             (repeatable q);
                    waiting := waiting q |}) w,
         [QueueRemoveRepeatableByKey k])
    | None => (null_queue, w, [])
    end.

(** [timetableQueue.add(name, { timetableId }, { jobId, repeat: { every } })]
    registers the repeat key once; without [repeat] the job is queued. *)
Definition queue_add (name timetableId : jsstring) (jobId : option jsstring)
  (every : option Z) : M unit :=
  fun w =>
    match timetableQueue w with
    | Some q =>
        let q' :=
          match every with
          | Some ms =>
              let j := {| rj_name := name; rj_id := jobId; rj_every := ms |} in
              if existsb (fun j' => key_eqb (rj_key j') (rj_key j))
                         (repeatable q)
              then q
              else {| repeatable := repeatable q ++ [j];
                      waiting := waiting q |}
          | None =>
              {| repeatable := repeatable q;
                 waiting := waiting q ++
                   [{| job_name := name; job_timetableId := timetableId |}] |}
          end in
        (Returned tt, set_queue (Some q') w,
         [QueueAdd name timetableId jobId every])
    | None => (null_queue, w, [])
    end.

(** [`sync-${timetableId}`] *)
Definition sync_job_id (timetableId : jsstring) : jsstring :=
  js "sync-" ++ timetableId.

(** The loop meant to remove the repeatable jobs of a timetable (lines
    70-75 and 191-196): [if (job.id === jobId)
    await timetableQueue.removeRepeatableByKey(job.key)]. *)
Definition remove_repeatable_jobs (jobId : jsstring) : M unit :=
  repeatableJobs <- queue_getRepeatableJobs ;;
  for_of repeatableJobs (fun job =>
    if opt_jsstring_eqb (entry_id job) (Some jobId)
    then queue_removeRepeatableByKey (entry_key job)
    else ret tt).

(** One row of [createMany]: [hash: c.hash || crypto.randomUUID()]. *)
Definition course_row (timetableId : jsstring) (c : FetchedCourse) : M Course :=
  hash <- (if truthy_opt (fc_hash c)
           then ret (match fc_hash c with Some h => h | None => [] end)
           else crypto_randomUUID) ;;
  ret {| course_timetableId := timetableId;
         course_hash := hash;
         course_subject := fc_subject c;
         course_start := fc_start c;
         course_end := fc_end c;
         course_location := fc_location c;
         course_teacher := fc_teacher c;
         course_color := fc_color c |}.

Definition not_found_message (timetableId : jsstring) : jsstring :=
  js "[Worker] Timetable or credentials not found for ID " ++ timetableId
  ++ js " - removing job from queue".

Definition failure_message (timetableId : jsstring) (error : Exn) : jsstring :=
  js "[Worker] Failed to sync timetable " ++ timetableId ++ js ": "
  ++ exn_message error.

Definition sync_body (timetableId : jsstring) : M SyncResult :=
  timetable <- prisma_timetable_findUnique timetableId ;;
  match timetable with
  | Some (timetable, Some creds) =>
      match getProvider (tt_providerId timetable) with
      | None =>
          throw (Error (js "Provider " ++ tt_providerId timetable
                        ++ js " not found"))
      | Some provider =>
          emit (CallDecrypt (cred_encryptedCredentials creds) (cred_iv creds)) ;;;
          credentials <- lift (provider_credentials timetable creds) ;;
          now <- Date_now ;;
          let '(from, to) := fetch_window now in
          fetched <- provider_getSchedule provider credentials from to ;;
          (* 1. Delete old courses in this range *)
          prisma_course_deleteMany (tt_id timetable) from ;;;
          (* 2. Insert new courses *)
          (if (0 <? Z.of_nat (List.length fetched)) then
             rows <- map_M (course_row (tt_id timetable)) fetched ;;
             prisma_course_createMany rows
           else ret tt) ;;;
          (* 3. Update last synced time *)
          synced <- Date_now ;;
          prisma_timetable_update (tt_id timetable) synced ;;;
          ret {| success := true; message := None;
                 coursesCount := Some (Z.of_nat (List.length fetched)) |}
      end
  | _ =>
      console_warn (not_found_message timetableId) ;;;
      remove_repeatable_jobs (sync_job_id timetableId) ;;;
      ret {| success := false; message := Some (js "Timetable not found");
             coursesCount := None |}
  end.

Definition performSync (timetableId : jsstring) : M SyncResult :=
  fun w =>
    match timetableQueue w with
    | None =>
        (console_warn (js "[Queue] Queue not available, sync skipped") ;;;
         ret {| success := false; message := Some (js "Queue not initialized");
                coursesCount := None |}) w
    | Some _ =>
        try_catch (sync_body timetableId)
          (fun error =>
             console_error (failure_message timetableId error) ;;;
             throw error) w
    end.

(** [scheduleTimetableSync(timetableId, intervalMinutes)] *)
Definition scheduleTimetableSync (timetableId : jsstring) (intervalMinutes : Z)
  : M unit :=
  fun w =>
    match timetableQueue w with
    | None =>
        console_warn (js "[Queue] Cannot schedule sync - queue not initialized") w
    | Some _ =>
        (let jobId := sync_job_id timetableId in
         remove_repeatable_jobs jobId ;;;
         queue_add (js "sync") timetableId (Some jobId)
           (Some (intervalMinutes * 60 * 1000))) w
    end.

(** [triggerImmediateSync(timetableId)] *)
Definition triggerImmediateSync (timetableId : jsstring) : M unit :=
  fun w =>
    match timetableQueue w with
    | None =>
        console_warn
          (js "[Queue] Cannot trigger immediate sync - queue not initialized") w
    | Some _ => queue_add (js "sync-immediate") timetableId None None w
    end.

End Engine.

(* ------------------------------------------------------------------ *)
(** * [POST /api/timetables]                                            *)
(* ------------------------------------------------------------------ *)

(** [WhiteSpace] and [LineTerminator] code units, as [trim] strips them. *)
Definition is_js_whitespace (c : Z) : bool :=
  (c =? 9) || (c =? 10) || (c =? 11) || (c =? 12) || (c =? 13) || (c =? 32)
  || (c =? 160) || (c =? 5760) || ((8192 <=? c) && (c <=? 8202))
  || (c =? 8232) || (c =? 8233) || (c =? 8239) || (c =? 8287)
  || (c =? 12288) || (c =? 65279).

Fixpoint trim_start (s : jsstring) : jsstring :=
  match s with
  | c :: rest => if is_js_whitespace c then trim_start rest else s
  | [] => []
  end.

(** [s.trim()] *)
Definition js_trim (s : jsstring) : jsstring :=
  rev (trim_start (rev (trim_start s))).

(** What [auth.api.getSession] resolved to. *)
Record Session := { user_id : jsstring; emailVerified : bool }.

Record Request := { req_session : option Session; req_body : JsValue }.

(** [res.status(s).json({ error, ... })] or
    [res.status(202).json({ success: true, timetable })]; the message
    shown to the user is left out. *)
Record Response := {
  res_status : Z;
  res_error : option jsstring;
  res_timetable : option Timetable }.

Definition reject (status : Z) (error : string) : Response :=
  {| res_status := status; res_error := Some (js error);
     res_timetable := None |}.

Section Api.
Variable env : Env.

Definition same_owner_provider_school (userId providerId : jsstring)
  (schoolId : option jsstring) (t : Timetable) : bool :=
  jsstring_eqb (tt_userId t) userId
  && jsstring_eqb (tt_providerId t) providerId
  && opt_jsstring_eqb (tt_schoolId t) schoolId.

(** [prisma.timetable.findFirst({ where: { userId, providerId, schoolId } })] *)
Definition prisma_timetable_findFirst (userId providerId : jsstring)
  (schoolId : option jsstring) : M (option Timetable) :=
  fun w =>
    (Returned (find (same_owner_provider_school userId providerId schoolId)
                    (timetables w)),
     w, [TimetableFindFirst userId providerId schoolId]).

(** Modelled from the spec: the Prisma schema is not among the sources.
    [prisma.timetable.create] stores the row under a generated identifier
    with a null last-synced timestamp ("null means never successfully
    synced") together with its credential record; it rejects a sync
    interval that is not a number and an identifier already in use. *)
Definition prisma_timetable_create (userId providerId : jsstring)
  (schoolId : option jsstring) (syncInterval : JsValue)
  (payload : EncryptedPayload) : M Timetable :=
  fun w =>
    match syncInterval with
    | JNumber n =>
        let id := generated_id env (ticks w) in
        let row := {| tt_id := id; tt_userId := userId;
                      tt_providerId := providerId; tt_schoolId := schoolId;
                      tt_syncInterval := n; tt_lastSyncedAt := None |} in
        let creds := {| cred_timetableId := id;
                        cred_encryptedCredentials := encryptedData payload;
                        cred_iv := iv payload |} in
        if existsb (has_id id) (timetables w) then
          (Threw (PrismaError (js "Unique constraint failed")), tick w, [])
        else
          (Returned row,
           set_credentials (credentials w ++ [creds])
             (set_timetables (timetables w ++ [row]) (tick w)),
           [TimetableCreate row creds])
    | _ => (Threw (PrismaError (js "Invalid value for syncInterval")), w, [])
    end.

(** [schoolId && schoolId.trim() !== "" ? schoolId : null] *)
Definition normalizedSchoolId (schoolId : JsValue) : Outcome (option jsstring) :=
  if truthy schoolId then
    match schoolId with
    | JString s =>
        Returned (if truthy_string (js_trim s) then Some s else None)
    | _ => Threw (TypeError (js "schoolId.trim is not a function"))
    end
  else Returned None.

(** [getProvider(providerId)] on a value of the request body: [===]
    holds for a string only. *)
Definition getProviderOf (providerId : JsValue) : option Provider :=
  match providerId with
  | JString s => getProvider env s
  | _ => None
  end.

Definition has_schools (p : Provider) : bool :=
  match provider_schools p with
  | Some (_ :: _) => true
  | _ => false
  end.

Definition post_timetables (req : Request) : M Response :=
  match req_session req with
  | None => ret (reject 401 "UNAUTHORIZED")
  | Some session =>
  if negb (emailVerified session) then ret (reject 403 "EMAIL_NOT_VERIFIED")
  else
  match req_body req with
  | JUndefined | JNull =>
      throw (TypeError (js "Cannot destructure property of req.body"))
  | body =>
  let providerId := get_property body (js "providerId") in
  let schoolId := get_property body (js "schoolId") in
  let identifier := get_property body (js "identifier") in
  let password := get_property body (js "password") in
  let syncInterval :=
    match get_property body (js "syncInterval") with
    | JUndefined => JNumber 60
    | v => v
    end in
  if negb (truthy providerId) || negb (truthy identifier)
     || negb (truthy password)
  then ret (reject 400 "BAD_REQUEST")
  else
  match getProviderOf providerId, providerId with
  | Some provider, JString providerId =>
  if has_schools provider && negb (truthy schoolId)
  then ret (reject 400 "MISSING_SCHOOL")
  else
  try_catch
    ((* 1. Validate credentials with the provider *)
     let candidate := JObject [(js "identifier", identifier);
                               (js "password", password);
                               (js "schoolId", schoolId)] in
     emit (CallValidateCredentials providerId candidate) ;;;
     isValid <- lift (validateCredentials provider candidate) ;;
     if negb isValid then ret (reject 401 "INVALID_CREDENTIALS")
     else
       (* 2. Encrypt credentials *)
       let credsJson :=
         JSON_stringify env (JObject [(js "identifier", identifier);
                                      (js "password", password)]) in
       payload <- encrypt env credsJson ;;
       normalized <- lift (normalizedSchoolId schoolId) ;;
       (* Check if timetable already exists *)
       existingTimetable <-
         prisma_timetable_findFirst (user_id session) providerId normalized ;;
       match existingTimetable with
       | Some _ => ret (reject 400 "ALREADY_EXISTS")
       | None =>
           (* 3. Save to database *)
           timetable <-
             prisma_timetable_create (user_id session) providerId normalized
               syncInterval payload ;;
           (* 4. Trigger immediate sync job via BullMQ *)
           triggerImmediateSync (tt_id timetable) ;;;
           (* 5. Schedule recurring sync job *)
           scheduleTimetableSync (tt_id timetable)
             (tt_syncInterval timetable) ;;;
           ret {| res_status := 202; res_error := None;
                  res_timetable := Some timetable |}
       end)
    (fun error =>
       console_error (js "[API Error] " ++ exn_message error) ;;;
       ret (reject 500 "INTERNAL_ERROR"))
  | _, _ => ret (reject 400 "UNKNOWN_PROVIDER")
  end
  end
  end.

End Api.

(* ------------------------------------------------------------------ *)
(** * Reading a run                                                     *)
(* ------------------------------------------------------------------ *)

Definition outcome_of {A} (r : Outcome A * World * list Event) : Outcome A :=
  fst (fst r).
Definition world_of {A} (r : Outcome A * World * list Event) : World :=
  snd (fst r).
Definition events_of {A} (r : Outcome A * World * list Event) : list Event :=
  snd r.

(** The repeatable registrations the process can see. *)
Definition registrations (w : World) : list RepeatableJob :=
  match timetableQueue w with
  | Some q => repeatable q
  | None => []
  end.

(** A registration made for a timetable: its [id] is [sync-<timetableId>]. *)
Definition registered_for (timetableId : jsstring) (j : RepeatableJob) : bool :=
  opt_jsstring_eqb (rj_id j) (Some (sync_job_id timetableId)).

(** Calls that decrypt, reach the provider, or write to storage. *)
Definition touches_vault_provider_or_storage (e : Event) : bool :=
  match e with
  | CallDecrypt _ _ | CallEncrypt _
  | CallGetSchedule _ _ _ _ | GetScheduleReturned _ | GetScheduleThrew _
  | CallValidateCredentials _ _
  | TimetableCreate _ _ | TimetableUpdate _ _
  | CourseDeleteMany _ _ | CourseCreateMany _ => true
  | _ => false
  end.

(* ------------------------------------------------------------------ *)
(** * Vocabulary for properties of runs                                 *)
(* ------------------------------------------------------------------ *)

(** The registration a call makes. *)
Definition sync_registration (timetableId : jsstring) (intervalMinutes : Z)
  : RepeatableJob :=
  {| rj_name := js "sync";
     rj_id := Some (sync_job_id timetableId);
     rj_every := intervalMinutes * 60 * 1000 |}.

(** The table after an [add] with a [repeat] option: a repeat key is
    registered once. *)
Definition with_registration (j : RepeatableJob) (l : list RepeatableJob)
  : list RepeatableJob :=
  if existsb (fun j' => key_eqb (rj_key j') (rj_key j)) l then l else l ++ [j].

(** The calls of [scheduleTimetableSync] on the broker. *)
Definition schedule_events (timetableId : jsstring) (intervalMinutes : Z)
  : list Event :=
  [QueueGetRepeatableJobs;
   QueueAdd (js "sync") timetableId (Some (sync_job_id timetableId))
     (Some (intervalMinutes * 60 * 1000))].

(** Calls that change stored rows. *)
Definition writes_storage (e : Event) : bool :=
  match e with
  | TimetableCreate _ _ | TimetableUpdate _ _
  | CourseDeleteMany _ _ | CourseCreateMany _ => true
  | _ => false
  end.

(** Calls that change stored courses. *)
Definition writes_courses (e : Event) : bool :=
  match e with
  | CourseDeleteMany _ _ | CourseCreateMany _ => true
  | _ => false
  end.

(** The courses [deleteMany] leaves. *)
Definition kept_courses (id : jsstring) (from : Z) (cs : list Course)
  : list Course :=
  filter (fun c => negb (in_delete_range id from c)) cs.

(** ** Runs of [performSync] *)

(** A stored course written for a fetched one. *)
Definition stored_as (timetableId : jsstring) (c : FetchedCourse) (row : Course)
  : Prop :=
  course_timetableId row = timetableId /\
  course_subject row = fc_subject c /\
  course_start row = fc_start c /\
  course_end row = fc_end c /\
  course_location row = fc_location c /\
  course_teacher row = fc_teacher c /\
  course_color row = fc_color c /\
  (truthy_opt (fc_hash c) = true -> fc_hash c = Some (course_hash row)).

(** The world a completed sync leaves. *)
Definition synced_world (w : World) (timetableId : jsstring) (from : Z)
  (rows : list Course) (synced : Z) (n : nat) : World :=
  {| timetableQueue := timetableQueue w;
     timetables :=
       map (fun t => if has_id timetableId t then set_lastSyncedAt t synced
                     else t) (timetables w);
     credentials := credentials w;
     courses :=
       filter (fun c => negb (in_delete_range timetableId from c)) (courses w)
       ++ rows;
     ticks := n |}.

(** No stored timetable has the empty string for school identifier: the
    handler that stores timetables writes a blank identifier as null. *)
Definition no_empty_school (ts : list Timetable) : Prop :=
  Forall (fun t => tt_schoolId t <> Some []) ts.

(** The six ways a run of [performSync] can go, each with its outcome,
    the world it leaves and the calls it made. *)
Inductive SyncRun (env : Env) (id : jsstring) (w : World)
  : Outcome SyncResult * World * list Event -> Prop :=
| run_disabled :
    timetableQueue w = None ->
    SyncRun env id w
      (Returned {| success := false;
                   message := Some (js "Queue not initialized");
                   coursesCount := None |},
       w,
       [ConsoleWarn (js "[Queue] Queue not available, sync skipped")])
| run_not_found q :
    timetableQueue w = Some q ->
    (stored_timetable id w = None \/
     exists t, stored_timetable id w = Some (t, None)) ->
    SyncRun env id w
      (Returned {| success := false;
                   message := Some (js "Timetable not found");
                   coursesCount := None |},
       w,
       [TimetableFindUnique id; ConsoleWarn (not_found_message id);
        QueueGetRepeatableJobs])
| run_unknown_provider q t c :
    timetableQueue w = Some q ->
    stored_timetable id w = Some (t, Some c) ->
    getProvider env (tt_providerId t) = None ->
    let e := Error (js "Provider " ++ tt_providerId t ++ js " not found") in
    SyncRun env id w
      (Threw e, w,
       [TimetableFindUnique id; ConsoleError (failure_message id e)])
| run_credentials_failed q t c p e :
    timetableQueue w = Some q ->
    stored_timetable id w = Some (t, Some c) ->
    getProvider env (tt_providerId t) = Some p ->
    provider_credentials env t c = Threw e ->
    SyncRun env id w
      (Threw e, w,
       [TimetableFindUnique id;
        CallDecrypt (cred_encryptedCredentials c) (cred_iv c);
        ConsoleError (failure_message id e)])
| run_provider_failed q t c p creds e :
    timetableQueue w = Some q ->
    stored_timetable id w = Some (t, Some c) ->
    getProvider env (tt_providerId t) = Some p ->
    provider_credentials env t c = Returned creds ->
    let window := fetch_window (clock env (ticks w)) in
    getSchedule p creds (fst window) (snd window) = Threw e ->
    SyncRun env id w
      (Threw e, tick w,
       [TimetableFindUnique id;
        CallDecrypt (cred_encryptedCredentials c) (cred_iv c);
        CallGetSchedule (provider_id p) creds (fst window) (snd window);
        GetScheduleThrew e;
        ConsoleError (failure_message id e)])
| run_synced q t c p creds fetched rows n :
    timetableQueue w = Some q ->
    stored_timetable id w = Some (t, Some c) ->
    getProvider env (tt_providerId t) = Some p ->
    provider_credentials env t c = Returned creds ->
    let window := fetch_window (clock env (ticks w)) in
    getSchedule p creds (fst window) (snd window) = Returned fetched ->
    Forall2 (stored_as id) fetched rows ->
    (ticks w < n)%nat ->
    SyncRun env id w
      (Returned {| success := true; message := None;
                   coursesCount := Some (Z.of_nat (List.length fetched)) |},
       synced_world w id (fst window) rows (clock env n) (S n),
       [TimetableFindUnique id;
        CallDecrypt (cred_encryptedCredentials c) (cred_iv c);
        CallGetSchedule (provider_id p) creds (fst window) (snd window);
        GetScheduleReturned fetched;
        CourseDeleteMany id (fst window)]
       ++ (match fetched with
           | [] => []
           | _ :: _ => [CourseCreateMany rows]
           end)
       ++ [TimetableUpdate id (clock env n)]).

(** ** Runs of [POST /api/timetables] *)

(** The triple a timetable is unique for. *)
Definition triple (t : Timetable) : jsstring * jsstring * option jsstring :=
  (tt_userId t, tt_providerId t, tt_schoolId t).

Definition one_per_triple (ts : list Timetable) : Prop := NoDup (map triple ts).

(** Calls that look a timetable up by its triple or write to storage. *)
Definition looks_up_or_writes (e : Event) : bool :=
  match e with
  | TimetableFindFirst _ _ _ => true
  | _ => writes_storage e
  end.

(** The stored rows of two worlds are the same. *)
Definition same_rows (w w' : World) : Prop :=
  timetables w' = timetables w /\
  credentials w' = credentials w /\
  courses w' = courses w.

(** The ways a request can go, as far as stored timetables are concerned:
    answered before the look-up; rejected because the triple exists;
    failed while the row was created; created. *)
Inductive PostRun (env : Env) (req : Request) (w : World)
  : Outcome Response * World * list Event -> Prop :=
| post_answered_early o w' evs :
    same_rows w w' ->
    timetableQueue w' = timetableQueue w ->
    Forall (fun e => looks_up_or_writes e = false) evs ->
    (forall res, o = Returned res -> res_error res <> Some (js "ALREADY_EXISTS")
                                    /\ res_status res <> 202) ->
    PostRun env req w (o, w', evs)
| post_already_exists session providerId normalized existing w' before :
    req_session req = Some session ->
    get_property (req_body req) (js "providerId") = JString providerId ->
    normalizedSchoolId (get_property (req_body req) (js "schoolId"))
      = Returned normalized ->
    find (same_owner_provider_school (user_id session) providerId normalized)
         (timetables w) = Some existing ->
    same_rows w w' ->
    timetableQueue w' = timetableQueue w ->
    Forall (fun e => looks_up_or_writes e = false) before ->
    PostRun env req w
      (Returned (reject 400 "ALREADY_EXISTS"), w',
       before ++ [TimetableFindFirst (user_id session) providerId normalized])
| post_create_failed session providerId normalized w' before after :
    req_session req = Some session ->
    get_property (req_body req) (js "providerId") = JString providerId ->
    normalizedSchoolId (get_property (req_body req) (js "schoolId"))
      = Returned normalized ->
    find (same_owner_provider_school (user_id session) providerId normalized)
         (timetables w) = None ->
    same_rows w w' ->
    timetableQueue w' = timetableQueue w ->
    Forall (fun e => looks_up_or_writes e = false) before ->
    Forall (fun e => looks_up_or_writes e = false) after ->
    PostRun env req w
      (Returned (reject 500 "INTERNAL_ERROR"), w',
       before ++ TimetableFindFirst (user_id session) providerId normalized
       :: after)
| post_created session providerId normalized row creds w' before after :
    req_session req = Some session ->
    get_property (req_body req) (js "providerId") = JString providerId ->
    normalizedSchoolId (get_property (req_body req) (js "schoolId"))
      = Returned normalized ->
    find (same_owner_provider_school (user_id session) providerId normalized)
         (timetables w) = None ->
    triple row = (user_id session, providerId, normalized) ->
    cred_timetableId creds = tt_id row ->
    timetables w' = timetables w ++ [row] ->
    credentials w' = credentials w ++ [creds] ->
    courses w' = courses w ->
    Forall (fun e => looks_up_or_writes e = false) before ->
    Forall (fun e => looks_up_or_writes e = false) after ->
    PostRun env req w
      (Returned {| res_status := 202; res_error := None;
                   res_timetable := Some row |}, w',
       before ++ TimetableFindFirst (user_id session) providerId normalized
       :: TimetableCreate row creds :: after).

(** ** The vault *)

(** [decrypt(p.encryptedData, p.iv)] for [p = encrypt(text)] under the IV
    drawn. *)
Definition decrypt_after_encrypt (crypto : NodeCrypto) (key : jsstring)
  (ivb : bytes) (text : jsstring) : Outcome jsstring :=
  match Vault.encrypt crypto key ivb text with
  | Returned p => Vault.decrypt crypto key (encryptedData p) (iv p)
  | Threw e => Threw e
  end.


(* ------------------------------------------------------------------ *)
(** * A concrete deployment, for evaluating the model                   *)
(* ------------------------------------------------------------------ *)

Module Demo.

(** A small cipher of the same shape as GCM: a key stream from key and
    IV, and a 16-byte checksum of key, IV and ciphertext. *)
Definition demo_crypto : NodeCrypto :=
  {| gcm_keystream := fun k ivb i =>
       nth i k 0 + 7 * nth (i mod 16)%nat ivb 0 + Z.of_nat i;
     gcm_mac := fun k ivb ct =>
       map (fun i =>
              fold_left (fun acc b => acc * 31 + b + Z.of_nat i) ct
                        (nth i k 0 + nth i ivb 0))
           (seq 0 16) |}.

Definition demo_iv : bytes :=
  map (fun i => Z.of_nat i * 11 mod 256) (seq 0 16).

(** The stored form of the credentials ["{}"]. *)
Definition demo_payload : EncryptedPayload :=
  Eval vm_compute in
    match Vault.encrypt demo_crypto Vault.dev_fallback_key demo_iv (js "{}") with
    | Returned p => p
    | Threw _ => {| encryptedData := []; iv := [] |}
    end.

Definition lecture : FetchedCourse :=
  {| fc_hash := Some (js "h-algebra"); fc_subject := js "Algebra";
     fc_start := JsDate.new_Date 2024 9 7; fc_end := JsDate.new_Date 2024 9 7 + 7200000;
     fc_location := Some (js "B12"); fc_teacher := None; fc_color := None |}.

Definition seminar : FetchedCourse :=
  {| fc_hash := None; fc_subject := js "Logic";
     fc_start := JsDate.new_Date 2024 10 4; fc_end := JsDate.new_Date 2024 10 4 + 3600000;
     fc_location := None; fc_teacher := Some (js "Church"); fc_color := None |}.

Definition wigor : Provider :=
  {| provider_id := js "wigor";
     provider_schools := Some [js "esgi"];
     validateCredentials := fun c =>
       Returned (truthy (get_property c (js "password")));
     getSchedule := fun _ _ _ => Returned [lecture; seminar] |}.

Definition quiet : Provider :=
  {| provider_id := js "quiet";
     provider_schools := None;
     validateCredentials := fun _ => Returned true;
     getSchedule := fun _ _ _ => Returned [] |}.

Definition down : Provider :=
  {| provider_id := js "down";
     provider_schools := None;
     validateCredentials := fun _ => Returned false;
     getSchedule := fun _ _ _ => Threw (ProviderError (js "ETIMEDOUT")) |}.

(** The clock shows 2024-10-01, 08:00. *)
Definition demo_env : Env :=
  {| providers := [wigor; quiet; down];
     crypto := demo_crypto;
     encryption_key := Vault.dev_fallback_key;
     JSON_parse := fun s =>
       if jsstring_eqb s (js "{}") then Returned (JObject [])
       else Threw (SyntaxError (js "Unexpected token"));
     JSON_stringify := fun _ => js "{}";
     clock := fun n => JsDate.new_Date 2024 9 1 + 28800000 + Z.of_nat n;
     randomUUID := fun n => js "uuid-" ++ [48 + Z.of_nat n];
     entropy := fun t i => Z.of_nat (t * 16 + i);
     generated_id := fun n => js "tt-" ++ [48 + Z.of_nat n] |}.

Definition timetable_of (id provider : string) (school : option jsstring)
  : Timetable :=
  {| tt_id := js id; tt_userId := js "alice"; tt_providerId := js provider;
     tt_schoolId := school; tt_syncInterval := 60; tt_lastSyncedAt := None |}.

Definition credentials_of (id : string) : Credentials :=
  {| cred_timetableId := js id;
     cred_encryptedCredentials := encryptedData demo_payload;
     cred_iv := iv demo_payload |}.

Definition course_of (id hash : string) (start : Z) : Course :=
  {| course_timetableId := js id; course_hash := js hash;
     course_subject := js "Old"; course_start := start;
     course_end := start + 3600000; course_location := None;
     course_teacher := None; course_color := None |}.

Definition demo_queue : Queue :=
  {| repeatable :=
       [ {| rj_name := js "sync"; rj_id := Some (js "sync-tt1"); rj_every := 900000 |};
         {| rj_name := js "sync"; rj_id := Some (js "sync-tt2"); rj_every := 3600000 |};
         {| rj_name := js "sync"; rj_id := Some (js "sync-tt1"); rj_every := 3600000 |};
         {| rj_name := js "sync"; rj_id := Some (js "sync-gone"); rj_every := 3600000 |} ];
     waiting := [] |}.

(** Three timetables: [tt1] at wigor with a school, [tt2] at the provider
    that shows nothing and [tt3] at the provider that is down. *)
Definition demo_world : World :=
  {| timetableQueue := Some demo_queue;
     timetables := [ timetable_of "tt1" "wigor" (Some (js "esgi"));
                     timetable_of "tt2" "quiet" None;
                     timetable_of "tt3" "down" None ];
     credentials := [ credentials_of "tt1"; credentials_of "tt2";
                      credentials_of "tt3" ];
     courses := [ course_of "tt1" "past" (JsDate.new_Date 2024 5 3);
                  course_of "tt1" "stale" (JsDate.new_Date 2024 9 2);
                  course_of "tt2" "kept" (JsDate.new_Date 2024 4 1);
                  course_of "tt2" "dropped" (JsDate.new_Date 2024 10 20);
                  course_of "tt3" "safe" (JsDate.new_Date 2024 9 9) ];
     ticks := 0 |}.

(** The same deployment started without Redis. *)
Definition degraded_world : World := set_queue None demo_world.

End Demo.

Module DemoRequests.
Import Demo.

Definition alice : Session := {| user_id := js "alice"; emailVerified := true |}.

Definition body_of (provider : string) (school : JsValue) : JsValue :=
  JObject [(js "providerId", JString (js provider));
           (js "schoolId", school);
           (js "identifier", JString (js "alice@esgi"));
           (js "password", JString (js "secret"))].

(** Alice links wigor at esgi again. *)
Definition duplicate_request : Request :=
  {| req_session := Some alice;
     req_body := body_of "wigor" (JString (js "esgi")) |}.

(** Alice links the provider that is down, which accepts no credentials,
    although she has a timetable there. *)
Definition refused_request : Request :=
  {| req_session := Some alice; req_body := body_of "down" JUndefined |}.

End DemoRequests.

(* ------------------------------------------------------------------ *)
(** * Other handlers of the server                                     *)
(* ------------------------------------------------------------------ *)

(** The handlers below are written in the same monad.  The trace names
    the calls of the engine; calls it has no name for ([findMany],
    [delete], [getActive], [getWaiting]) leave no entry, and what is
    proved of these handlers is stated on answers and stored rows. *)

(** [res.json(body)], or [res.status(s).json({ error, message })]. *)
Inductive Reply (A : Type) : Type :=
| Json (body : A)
| Refused (res : Response).
Arguments Json {A} body.
Arguments Refused {A} res.

(** [res.json({ success: true, message })] *)
Definition deleted : Response :=
  {| res_status := 200; res_error := None; res_timetable := None |}.

(** ** [DELETE /api/timetables/:id] *)

Record DeleteRequest := {
  delete_session : option Session;
  delete_id : jsstring }.

(** [prisma.timetable.findUnique({ where: { id } })] *)
Definition prisma_timetable_findUnique_row (id : jsstring)
  : M (option Timetable) :=
  fun w =>
    (Returned (find (has_id id) (timetables w)), w, [TimetableFindUnique id]).

Definition of_timetable (id : jsstring) (c : Course) : bool :=
  jsstring_eqb (course_timetableId c) id.

Definition credentials_of_timetable (id : jsstring) (c : Credentials) : bool :=
  jsstring_eqb (cred_timetableId c) id.

(** [prisma.timetable.delete({ where: { id } })].  The handler relies on
    the schema's cascades ("cascades will handle courses, credentials,
    and oauth access"): the credential record and the courses of the
    timetable go with it. *)
Definition prisma_timetable_delete (id : jsstring) : M unit :=
  fun w =>
    if existsb (has_id id) (timetables w) then
      (Returned tt,
       set_courses
         (filter (fun c => negb (of_timetable id c)) (courses w))
         (set_credentials
            (filter (fun c => negb (credentials_of_timetable id c))
                    (credentials w))
            (set_timetables
               (filter (fun t => negb (has_id id t)) (timetables w)) w)),
       [])
    else
      (Threw (PrismaError (js "Record to delete does not exist.")), w, []).

Definition delete_timetable (req : DeleteRequest) : M Response :=
  match delete_session req with
  | None => ret (reject 401 "UNAUTHORIZED")
  | Some session =>
      let id := delete_id req in
      try_catch
        ((* Check ownership *)
         timetable <- prisma_timetable_findUnique_row id ;;
         match timetable with
         | None => ret (reject 404 "NOT_FOUND")
         | Some timetable =>
             if negb (jsstring_eqb (tt_userId timetable) (user_id session))
             then ret (reject 403 "FORBIDDEN")
             else
               (* Delete (cascades will handle courses, credentials, and
                  oauth access) *)
               prisma_timetable_delete id ;;;
               ret deleted
         end)
        (fun error =>
           console_error (js "[API Error] " ++ exn_message error) ;;;
           ret (reject 500 "INTERNAL_ERROR"))
  end.

(** ** [GET /api/timetables] *)

(** One entry of the answer: [{ ...t, isSyncing }], [t] carrying its
    courses. *)
Record TimetableWithSyncStatus := {
  listed : Timetable;
  listed_courses : list Course;
  isSyncing : bool }.

(** [prisma.timetable.findMany({ where: { userId }, include: { courses: true } })] *)
Definition prisma_timetable_findMany (userId : jsstring)
  : M (list (Timetable * list Course)) :=
  fun w =>
    (Returned
       (map (fun t => (t, filter (of_timetable (tt_id t)) (courses w)))
            (filter (fun t => jsstring_eqb (tt_userId t) userId)
                    (timetables w))),
     w, []).

(** [t.lastSyncedAt === null] *)
Definition never_synced (t : Timetable) : bool :=
  match tt_lastSyncedAt t with None => true | Some _ => false end.

(** [ids.includes(id)] *)
Definition includes (ids : list jsstring) (id : jsstring) : bool :=
  existsb (fun i => jsstring_eqb i id) ids.

Section Listing.
(** The jobs a worker is processing when the request is served: BullMQ
    moves a job from the waiting list to the active one when a worker
    takes it, and the world keeps the waiting list only. *)
Variable activeJobs : list Job.

Definition queue_getActive : M (list Job) :=
  fun w =>
    match timetableQueue w with
    | Some _ => (Returned activeJobs, w, [])
    | None => (null_queue, w, [])
    end.

Definition queue_getWaiting : M (list Job) :=
  fun w =>
    match timetableQueue w with
    | Some q => (Returned (waiting q), w, [])
    | None => (null_queue, w, [])
    end.

Definition get_timetables (session : option Session)
  : M (Reply (list TimetableWithSyncStatus)) :=
  match session with
  | None => ret (Refused (reject 401 "UNAUTHORIZED"))
  | Some session =>
      try_catch
        (timetables <- prisma_timetable_findMany (user_id session) ;;
         syncingTimetableIds <-
           (fun w =>
              match timetableQueue w with
              | Some _ =>
                  (activeJobs <- queue_getActive ;;
                   waitingJobs <- queue_getWaiting ;;
                   ret (map job_timetableId (activeJobs ++ waitingJobs))) w
              | None => ret [] w
              end) ;;
         ret (Json
                (map (fun tc : Timetable * list Course =>
                        let (t, cs) := tc in
                        {| listed := t; listed_courses := cs;
                           isSyncing :=
                             includes syncingTimetableIds (tt_id t)
                             || never_synced t |})
                     timetables)))
        (fun error =>
           console_error (js "[API Error] " ++ exn_message error) ;;;
           ret (Refused (reject 500 "FETCH_FAILED")))
  end.

End Listing.

(** ** [POST /api/api-keys] *)

(** The elements of [timetableIds] when all of them are strings. *)
Fixpoint string_items (items : list JsValue) : option (list jsstring) :=
  match items with
  | [] => Some []
  | JString s :: rest =>
      match string_items rest with
      | Some ids => Some (s :: ids)
      | None => None
      end
  | _ :: _ => None
  end.

(** [prisma.timetable.findMany({ where: { id: { in: timetableIds }, userId } })]:
    the client refuses a list that holds anything but strings. *)
Definition prisma_timetable_findMany_in (timetableIds : list JsValue)
  (userId : jsstring) : M (list Timetable) :=
  fun w =>
    match string_items timetableIds with
    | Some ids =>
        (Returned
           (filter (fun t => includes ids (tt_id t)
                             && jsstring_eqb (tt_userId t) userId)
                   (timetables w)),
         w, [])
    | None =>
        (Threw (PrismaError (js "Invalid value provided. Expected String.")),
         w, [])
    end.

Section ApiKeys.
(** [auth.api.createApiKey({ body: { name, expiresIn, userId,
    metadata: { timetableIds } } })] of better-auth: the key it makes, or
    the error it throws. *)
Variable createApiKey :
  JsValue -> JsValue -> jsstring -> list JsValue -> Outcome JsValue.

Definition post_api_keys (req : Request) : M (Reply JsValue) :=
  match req_session req with
  | None => ret (Refused (reject 401 "UNAUTHORIZED"))
  | Some session =>
  match req_body req with
  | JUndefined | JNull =>
      throw (TypeError (js "Cannot destructure property of req.body"))
  | body =>
  let name := get_property body (js "name") in
  let expiresIn := get_property body (js "expiresIn") in
  let timetableIds := get_property body (js "timetableIds") in
  match timetableIds with
  | JArray items _ =>
      if negb (truthy name) || negb (truthy expiresIn)
      then ret (Refused (reject 400 "BAD_REQUEST"))
      else
        (* Validate that all timetables belong to the user *)
        timetables <- prisma_timetable_findMany_in items (user_id session) ;;
        if negb (Nat.eqb (List.length timetables) (List.length items))
        then ret (Refused (reject 403 "FORBIDDEN"))
        else
          try_catch
            (result <-
               lift (createApiKey name expiresIn (user_id session) items) ;;
             ret (Json result))
            (fun error =>
               console_error (js "[API Keys Error] " ++ exn_message error) ;;;
               ret (Refused (reject 500 "CREATE_FAILED")))
  | _ => ret (Refused (reject 400 "BAD_REQUEST"))
  end
  end
  end.

End ApiKeys.

(** ** The [validateApiKey] middleware *)

(** [req.headers["x-api-key"]]: [string | string[] | undefined]. *)
Inductive HeaderValue : Type :=
| HeaderMissing
| HeaderString (s : jsstring)
| HeaderArray (values : list jsstring).

(** The key record of better-auth, as far as the middleware reads it. *)
Record KeyRecord := {
  key_id : jsstring;
  key_userId : jsstring;
  key_metadata : JsValue }.

(** What [auth.api.verifyApiKey] resolves to; [verify_error] is
    [result.error?.message]. *)
Record VerifyResult := {
  verify_valid : bool;
  verify_key : option KeyRecord;
  verify_error : option jsstring }.

(** [req.apiKeyUser] *)
Record ApiKeyUser := {
  apiKeyUser_userId : jsstring;
  apiKeyUser_timetableIds : list JsValue }.

(** The middleware calls [next()] with [req.apiKeyUser] set, or answers
    with [{ error, message }]. *)
Inductive Guard : Type :=
| Next (apiKeyUser : ApiKeyUser)
| Answered (status : Z) (error message : jsstring).

(** [(Array.isArray(apiKey) ? apiKey[0] : apiKey)?.trim()] *)
Definition keyString (apiKey : HeaderValue) : option jsstring :=
  match apiKey with
  | HeaderMissing => None
  | HeaderString s => Some (js_trim s)
  | HeaderArray [] => None
  | HeaderArray (s :: _) => Some (js_trim s)
  end.

(** [v.timetableIds]: reading a property of [null] or [undefined]
    throws. *)
Definition read_timetableIds (v : JsValue) : Outcome JsValue :=
  match v with
  | JUndefined | JNull =>
      Threw (TypeError (js "Cannot read properties of null"))
  | _ => Returned (get_property v (js "timetableIds"))
  end.

Section ValidateApiKey.
Variable env : Env.
Variable verifyApiKey : jsstring -> Outcome VerifyResult.

(** Lines 1345-1359: the metadata object the timetable identifiers are
    read from. *)
Definition key_metadata_object (keyRecord : KeyRecord) : JsValue :=
  match key_metadata keyRecord with
  | JString s =>
      match JSON_parse env s with
      | Returned v => v
      | Threw _ => JObject []
      end
  | JObject ps => JObject ps
  | JArray items named => JArray items named
  | _ => JObject []
  end.

(** Console output is left out. *)
Definition validateApiKey (apiKey : HeaderValue) : Guard :=
  match keyString apiKey with
  | Some (c :: k) =>
      let keyString := c :: k in
      let failed :=
        Answered 500 (js "INTERNAL_ERROR") (js "Failed to validate API key") in
      match verifyApiKey keyString with
      | Threw _ => failed
      | Returned result =>
          match verify_valid result, verify_key result with
          | true, Some keyRecord =>
              (* Extract timetable IDs from metadata *)
              let metadata := key_metadata_object keyRecord in
              match read_timetableIds metadata with
              | Threw _ => failed
              | Returned ids =>
                  let timetableIds :=
                    match ids with
                    | JArray items _ => items
                    | _ => []
                    end in
                  (* Attach to request *)
                  Next {| apiKeyUser_userId := key_userId keyRecord;
                          apiKeyUser_timetableIds := timetableIds |}
              end
          | _, _ =>
              Answered 401 (js "UNAUTHORIZED")
                (if truthy_opt (verify_error result)
                 then match verify_error result with
                      | Some m => m
                      | None => js "Invalid API key"
                      end
                 else js "Invalid API key")
          end
      end
  | _ => Answered 401 (js "UNAUTHORIZED") (js "Missing x-api-key header")
  end.

End ValidateApiKey.

(* ------------------------------------------------------------------ *)
(** * Vocabulary of the properties of these handlers *)
(* ------------------------------------------------------------------ *)

(** A lower-case hex digit. *)
Definition is_lower_hex (c : Z) : Prop := 48 <= c <= 57 \/ 97 <= c <= 102.

(** A stored value [decrypt] takes apart: a non-empty piece, a colon, a
    second non-empty piece, and then the end or another colon. *)
Definition two_pieces (data a b : jsstring) : Prop :=
  a <> [] /\ b <> [] /\
  Forall (fun c => c <> 58) a /\ Forall (fun c => c <> 58) b /\
  exists rest, data = a ++ [58] ++ b ++ rest /\
               (rest = [] \/ exists r, rest = 58 :: r).

Module MoreDemo.
Import Demo.

(** The deployment after wigor was taken out of the registry. *)
Definition trimmed_env : Env :=
  {| providers := [quiet; down];
     crypto := crypto demo_env;
     encryption_key := encryption_key demo_env;
     JSON_parse := JSON_parse demo_env;
     JSON_stringify := JSON_stringify demo_env;
     clock := clock demo_env;
     randomUUID := randomUUID demo_env;
     entropy := entropy demo_env;
     generated_id := generated_id demo_env |}.

(** The deployment under a key of 32 accented letters, which is 64
    bytes long. *)
Definition accented_env : Env :=
  {| providers := providers demo_env;
     crypto := crypto demo_env;
     encryption_key := repeat 233 32;
     JSON_parse := JSON_parse demo_env;
     JSON_stringify := JSON_stringify demo_env;
     clock := clock demo_env;
     randomUUID := randomUUID demo_env;
     entropy := entropy demo_env;
     generated_id := generated_id demo_env |}.

(** The deployment with a credential record that was cut short. *)
Definition garbled_world : World :=
  set_credentials
    [ {| cred_timetableId := js "tt1";
         cred_encryptedCredentials := js "4b02";
         cred_iv := iv demo_payload |} ]
    demo_world.

End MoreDemo.

(** The run resolved to [{ success: true, coursesCount }]. *)
Definition completed (o : Outcome SyncResult) : Prop :=
  exists n, o = Returned {| success := true; message := None;
                            coursesCount := Some n |}.

(** The object [validateCredentials] is called with. *)
Definition submitted_credentials (body : JsValue) : JsValue :=
  JObject [(js "identifier", get_property body (js "identifier"));
           (js "password", get_property body (js "password"));
           (js "schoolId", get_property body (js "schoolId"))].

(** The object whose JSON text is encrypted. *)
Definition stored_credentials (body : JsValue) : JsValue :=
  JObject [(js "identifier", get_property body (js "identifier"));
           (js "password", get_property body (js "password"))].

(** The 16 bytes [crypto.randomBytes(16)] draws at a given count of
    reads. *)
Definition drawn_iv (env : Env) (t : nat) : bytes :=
  map (fun i => Vault.byte_of (entropy env t i)) (seq 0 16).

(** The row and the credential record [POST /api/timetables] stores. *)
Definition created_row (env : Env) (w : World) (userId providerId : jsstring)
  (schoolId : option jsstring) (syncInterval : Z) : Timetable :=
  {| tt_id := generated_id env (S (ticks w)); tt_userId := userId;
     tt_providerId := providerId; tt_schoolId := schoolId;
     tt_syncInterval := syncInterval; tt_lastSyncedAt := None |}.

Definition created_credentials (env : Env) (w : World)
  (payload : EncryptedPayload) : Credentials :=
  {| cred_timetableId := generated_id env (S (ticks w));
     cred_encryptedCredentials := encryptedData payload;
     cred_iv := iv payload |}.

(** The job [triggerImmediateSync] queues. *)
Definition immediate_job (timetableId : jsstring) : Job :=
  {| job_name := js "sync-immediate"; job_timetableId := timetableId |}.

Module MoreRequests.
Import Demo DemoRequests.

Definition bob : Session := {| user_id := js "bob"; emailVerified := true |}.

(** Bob links wigor at esgi, which nobody did for him before. *)
Definition bob_request : Request :=
  {| req_session := Some bob;
     req_body := body_of "wigor" (JString (js "esgi")) |}.

End MoreRequests.

(** The world [prisma.timetable.delete] leaves. *)
Definition without_timetable (id : jsstring) (w : World) : World :=
  set_courses
    (filter (fun c => negb (of_timetable id c)) (courses w))
    (set_credentials
       (filter (fun c => negb (credentials_of_timetable id c)) (credentials w))
       (set_timetables
          (filter (fun t => negb (has_id id t)) (timetables w)) w)).

Module MoreDeletes.
Import Demo DemoRequests.

(** Alice deletes her wigor timetable. *)
Definition alice_deletes_tt1 : DeleteRequest :=
  {| delete_session := Some alice; delete_id := js "tt1" |}.

End MoreDeletes.

(** The identifiers [GET /api/timetables] takes for syncing. *)
Definition syncing_ids (activeJobs : list Job) (w : World) : list jsstring :=
  match timetableQueue w with
  | Some q => map job_timetableId (activeJobs ++ waiting q)
  | None => []
  end.

(** The entry of the answer for a stored timetable. *)
Definition listed_entry (activeJobs : list Job) (w : World) (t : Timetable)
  : TimetableWithSyncStatus :=
  {| listed := t;
     listed_courses := filter (of_timetable (tt_id t)) (courses w);
     isSyncing := includes (syncing_ids activeJobs w) (tt_id t)
                  || never_synced t |}.

(** A timetable of the user carries the identifier. *)
Definition owns (w : World) (userId id : jsstring) : Prop :=
  exists t, In t (timetables w) /\ tt_id t = id /\ tt_userId t = userId.

(** The rows [POST /api/api-keys] finds for a list of identifiers. *)
Definition found_timetables (w : World) (userId : jsstring)
  (ids : list jsstring) : list Timetable :=
  filter (fun t => includes ids (tt_id t) && jsstring_eqb (tt_userId t) userId)
         (timetables w).

Module MoreKeys.
Import Demo DemoRequests.

(** better-auth makes a key with the metadata it is given. *)
Definition demo_createApiKey (name expiresIn : JsValue) (userId : jsstring)
  (timetableIds : list JsValue) : Outcome JsValue :=
  Returned (JObject [(js "name", name);
                     (js "userId", JString userId);
                     (js "metadata",
                      JObject [(js "timetableIds", JArray timetableIds [])])]).

Definition key_body (ids : list JsValue) : JsValue :=
  JObject [(js "name", JString (js "calendar"));
           (js "expiresIn", JNumber 86400);
           (js "timetableIds", JArray ids [])].

(** Alice asks for a key to two of her timetables. *)
Definition key_request : Request :=
  {| req_session := Some alice;
     req_body := key_body [JString (js "tt1"); JString (js "tt2")] |}.

(** better-auth knows one key, which lists one timetable. *)
Definition demo_verifyApiKey (key : jsstring) : Outcome VerifyResult :=
  if jsstring_eqb key (js "ots_live_1") then
    Returned {| verify_valid := true;
                verify_key :=
                  Some {| key_id := js "k1"; key_userId := js "alice";
                          key_metadata :=
                            JObject [(js "timetableIds",
                                      JArray [JString (js "tt1")] [])] |};
                verify_error := None |}
  else
    Returned {| verify_valid := false; verify_key := None;
                verify_error := Some (js "Invalid API key.") |}.

End MoreKeys.

(** [!c.hash]: the event comes without a hash, or with an empty one. *)
Definition lacks_hash (c : FetchedCourse) : bool := negb (truthy_opt (fc_hash c)).

(** The hashes of the rows written for the events that lacked one. *)
Definition generated_hashes (fetched : list FetchedCourse) (rows : list Course)
  : list jsstring :=
  map (fun cr : FetchedCourse * Course => course_hash (snd cr))
      (filter (fun cr : FetchedCourse * Course => lacks_hash (fst cr))
              (combine fetched rows)).


(* ------------------------------------------------------------------ *)
(** * Properties                                                       *)
(* ------------------------------------------------------------------ *)

(* ------------------------------------------------------------------ *)
(** * Calendar facts                                                    *)
(* ------------------------------------------------------------------ *)

Module JsDateFacts.
Import JsDate.

Lemma DaysInYear_cases y : DaysInYear y = 365 \/ DaysInYear y = 366.
Proof.
  unfold DaysInYear.
  destruct (y mod 4 =? 0), (y mod 100 =? 0), (y mod 400 =? 0); simpl; auto.
Qed.

Lemma DayFromYear_succ y : DayFromYear (y + 1) = DayFromYear y + DaysInYear y.
Proof.
  unfold DayFromYear, DaysInYear.
  destruct (Z.eqb_spec (y mod 4) 0), (Z.eqb_spec (y mod 100) 0),
    (Z.eqb_spec (y mod 400) 0); cbn [negb]; Z.div_mod_to_equations; lia.
Qed.

Lemma DayFromYear_mono a b : a <= b -> DayFromYear a <= DayFromYear b.
Proof.
  intros H. unfold DayFromYear.
  assert (H4 : (a - 1969) / 4 <= (b - 1969) / 4)
    by (apply Z.div_le_mono; lia).
  assert (H400 : (a - 1601) / 400 <= (b - 1601) / 400)
    by (apply Z.div_le_mono; lia).
  assert (H100 : (b - 1901) / 100 <= (a - 1901) / 100 + (b - a)).
  { rewrite <- Z.div_add by lia. apply Z.div_le_mono; lia. }
  lia.
Qed.

Lemma YearFromDay_spec d :
  DayFromYear (YearFromDay d) <= d < DayFromYear (YearFromDay d + 1).
Proof.
  unfold YearFromDay.
  set (y0 := 1970 + d * 400 / 146097).
  destruct (Z.ltb_spec d (DayFromYear y0)) as [Hlt|Hge].
  - replace (y0 - 1 + 1) with y0 by lia. split; [|lia].
    subst y0. unfold DayFromYear in *. Z.div_mod_to_equations. lia.
  - destruct (Z.leb_spec (DayFromYear (y0 + 1)) d) as [Hle|Hgt]; [|lia].
    split; [lia|].
    subst y0. unfold DayFromYear in *. Z.div_mod_to_equations. lia.
Qed.

(** [YearFromDay] is the year the ECMAScript definition asks for. *)
Lemma YearFromDay_unique d y :
  DayFromYear y <= d < DayFromYear (y + 1) -> YearFromDay d = y.
Proof.
  intros [Hlo Hhi]. pose proof (YearFromDay_spec d) as [Slo Shi].
  destruct (Z.lt_trichotomy (YearFromDay d) y) as [Hlt|[Heq|Hgt]]; auto.
  - pose proof (DayFromYear_mono (YearFromDay d + 1) y ltac:(lia)). lia.
  - pose proof (DayFromYear_mono (y + 1) (YearFromDay d) ltac:(lia)). lia.
Qed.

End JsDateFacts.


(* ------------------------------------------------------------------ *)
(** * Equality tests                                                    *)
(* ------------------------------------------------------------------ *)

Lemma jsstring_eqb_eq a b : jsstring_eqb a b = true <-> a = b.
Proof.
  revert b. induction a as [|x a IH]; intros [|y b]; simpl;
    try (split; [discriminate | congruence]); try tauto.
  rewrite andb_true_iff, Z.eqb_eq, IH. split.
  - intros [-> ->]. reflexivity.
  - intros H. injection H. auto.
Qed.

Lemma jsstring_eqb_refl a : jsstring_eqb a a = true.
Proof. apply jsstring_eqb_eq. reflexivity. Qed.

Lemma jsstring_eqb_neq a b : jsstring_eqb a b = false <-> a <> b.
Proof.
  rewrite <- jsstring_eqb_eq. destruct (jsstring_eqb a b); split;
    congruence || discriminate || auto.
Qed.

Lemma opt_jsstring_eqb_eq a b : opt_jsstring_eqb a b = true <-> a = b.
Proof.
  destruct a, b; simpl; rewrite ?jsstring_eqb_eq;
    split; congruence || discriminate || auto.
Qed.

Lemma key_eqb_eq a b : key_eqb a b = true <-> a = b.
Proof.
  destruct a as [[n1 i1] e1], b as [[n2 i2] e2]. unfold key_eqb.
  rewrite !andb_true_iff, jsstring_eqb_eq, opt_jsstring_eqb_eq, Z.eqb_eq.
  split.
  - intros [[-> ->] ->]. reflexivity.
  - intros H. injection H. auto.
Qed.

(* ------------------------------------------------------------------ *)
(** * The loop over the repeatable jobs                                  *)
(* ------------------------------------------------------------------ *)

Lemma filter_filter {A} (f g : A -> bool) (l : list A) :
  filter f (filter g l) = filter (fun x => g x && f x) l.
Proof.
  induction l as [|x l IH]; simpl; auto.
  destruct (g x); simpl; rewrite IH; reflexivity.
Qed.

Section RemoveLoop.
Variable jobId : jsstring.

(** Running the loop over the listed entries: none of them carries an
    [id], so no test [job.id === jobId] holds and nothing is removed. *)
Lemma for_of_remove l : forall w,
  for_of (map listed_as l)
    (fun job =>
       if opt_jsstring_eqb (entry_id job) (Some jobId)
       then queue_removeRepeatableByKey (entry_key job)
       else ret tt) w
  = (Returned tt, w, []).
Proof.
  induction l as [|j l IH]; intros w; cbn [map for_of]; [reflexivity|].
  unfold bind. cbn [listed_as entry_id opt_jsstring_eqb]. unfold ret at 1.
  now rewrite IH.
Qed.

Lemma remove_repeatable_jobs_run w q :
  timetableQueue w = Some q ->
  remove_repeatable_jobs jobId w = (Returned tt, w, [QueueGetRepeatableJobs]).
Proof.
  intros Hq. unfold remove_repeatable_jobs, bind, queue_getRepeatableJobs.
  rewrite Hq. now rewrite for_of_remove.
Qed.

End RemoveLoop.

(* ------------------------------------------------------------------ *)
(** * Runs of [scheduleTimetableSync]                                   *)
(* ------------------------------------------------------------------ *)

Lemma scheduleTimetableSync_run timetableId intervalMinutes w q :
  timetableQueue w = Some q ->
  scheduleTimetableSync timetableId intervalMinutes w =
    (Returned tt,
     set_queue
       (Some {| repeatable :=
                  with_registration
                    (sync_registration timetableId intervalMinutes)
                    (repeatable q);
                waiting := waiting q |}) w,
     schedule_events timetableId intervalMinutes).
Proof.
  intros Hq. unfold scheduleTimetableSync. rewrite Hq. unfold bind.
  rewrite (remove_repeatable_jobs_run _ _ _ Hq).
  unfold queue_add. rewrite Hq.
  fold (sync_registration timetableId intervalMinutes).
  unfold with_registration, schedule_events.
  destruct (existsb _ (repeatable q)); [destruct q|]; reflexivity.
Qed.

Lemma scheduleTimetableSync_disabled timetableId intervalMinutes w :
  timetableQueue w = None ->
  scheduleTimetableSync timetableId intervalMinutes w =
    (Returned tt, w,
     [ConsoleWarn (js "[Queue] Cannot schedule sync - queue not initialized")]).
Proof. intros Hq. unfold scheduleTimetableSync. now rewrite Hq. Qed.

Lemma registered_for_sync_registration timetableId i :
  registered_for timetableId (sync_registration timetableId i) = true.
Proof. apply opt_jsstring_eqb_eq. reflexivity. Qed.

Lemma filter_app_single {A} (f : A -> bool) l x :
  filter f (l ++ [x]) = filter f l ++ (if f x then [x] else []).
Proof. rewrite filter_app. reflexivity. Qed.

(** A registration is in the table once it was added, and whatever was
    registered before still is. *)
Lemma with_registration_spec j l :
  In j (with_registration j l) /\ incl l (with_registration j l).
Proof.
  unfold with_registration.
  destruct (existsb (fun j' => key_eqb (rj_key j') (rj_key j)) l) eqn:E.
  - split; [|apply incl_refl].
    apply existsb_exists in E. destruct E as [j' [Hin Hk]].
    apply key_eqb_eq in Hk. destruct j as [n i e], j' as [n' i' e'].
    unfold rj_key in Hk. cbn in Hk. injection Hk as -> -> ->. exact Hin.
  - split; [apply in_or_app; right; now left|apply incl_appl, incl_refl].
Qed.

(* ------------------------------------------------------------------ *)
(** * Scheduling twice                                                  *)
(* ------------------------------------------------------------------ *)

(** With the queue initialised a call removes nothing: every
    registration found before it is still there after it, those of the
    same timetable included, and so is the one it makes. *)
Lemma scheduleTimetableSync_keeps_registrations timetableId i w q :
  timetableQueue w = Some q ->
  In (sync_registration timetableId i)
     (registrations (world_of (scheduleTimetableSync timetableId i w))) /\
  incl (repeatable q)
       (registrations (world_of (scheduleTimetableSync timetableId i w))).
Proof.
  intros Hq. rewrite (scheduleTimetableSync_run _ _ _ _ Hq).
  unfold world_of, registrations.
  cbn [fst snd timetableQueue set_queue repeatable].
  apply with_registration_spec.
Qed.

(** Two calls with intervals that differ leave two registrations for the
    timetable. *)
Lemma scheduleTimetableSync_twice_both timetableId i1 i2 w q :
  timetableQueue w = Some q -> i1 <> i2 ->
  let r1 := scheduleTimetableSync timetableId i1 w in
  let r2 := scheduleTimetableSync timetableId i2 (world_of r1) in
  In (sync_registration timetableId i1) (registrations (world_of r2)) /\
  In (sync_registration timetableId i2) (registrations (world_of r2)) /\
  sync_registration timetableId i1 <> sync_registration timetableId i2 /\
  events_of r2 = schedule_events timetableId i2.
Proof.
  intros Hq Hne r1 r2.
  destruct (scheduleTimetableSync_keeps_registrations timetableId i1 w q Hq)
    as [H1 _]. fold r1 in H1.
  assert (Hq1 : exists q1, timetableQueue (world_of r1) = Some q1).
  { unfold r1. rewrite (scheduleTimetableSync_run _ _ _ _ Hq). eexists.
    reflexivity. }
  destruct Hq1 as [q1 Hq1].
  destruct (scheduleTimetableSync_keeps_registrations timetableId i2
              (world_of r1) q1 Hq1) as [H2 Hk]. fold r2 in H2, Hk.
  split; [|split; [exact H2|split]].
  - apply Hk. unfold registrations in H1. now rewrite Hq1 in H1.
  - unfold sync_registration. intros E. injection E as E. lia.
  - unfold r2. now rewrite (scheduleTimetableSync_run _ _ _ _ Hq1).
Qed.

(** C7.  On a queue that is initialised and holds no registration for
    timetable [tt3], [scheduleTimetableSync] is called for it with an
    interval of 15 minutes and then of 60 minutes.  The second call lists
    the repeatable jobs and adds its registration without removing
    anything, the listed entries carrying no [id]; afterwards the
    timetable has two registrations, one for each interval, and not
    one. *)
Theorem scheduleTimetableSync_twice_two_registrations :
  let r1 := scheduleTimetableSync (js "tt3") 15 Demo.demo_world in
  let r2 := scheduleTimetableSync (js "tt3") 60 (world_of r1) in
  filter (registered_for (js "tt3")) (registrations Demo.demo_world) = [] /\
  outcome_of r2 = Returned tt /\
  events_of r2 = schedule_events (js "tt3") 60 /\
  filter (registered_for (js "tt3")) (registrations (world_of r2))
  = [sync_registration (js "tt3") 15; sync_registration (js "tt3") 60].
Proof.
  cbv zeta.
  rewrite (scheduleTimetableSync_run (js "tt3") 15 Demo.demo_world
             Demo.demo_queue eq_refl).
  unfold world_of at 1 2 3. cbn [fst snd].
  erewrite scheduleTimetableSync_run by reflexivity.
  repeat split; vm_compute; reflexivity.
Qed.

(** When the queue is not initialised both calls only log a warning,
    and no registration exists afterwards. *)
Lemma scheduleTimetableSync_twice_degraded :
  List.length
    (filter (registered_for (js "tt1"))
       (registrations
          (world_of
             (scheduleTimetableSync (js "tt1") 60
                (world_of
                   (scheduleTimetableSync (js "tt1") 60 Demo.degraded_world))))))
  <> 1%nat.
Proof.
  rewrite !scheduleTimetableSync_disabled by reflexivity.
  cbn. discriminate.
Qed.

(* ------------------------------------------------------------------ *)
(** * The runs of [performSync]                                         *)
(* ------------------------------------------------------------------ *)

Lemma stored_timetable_id id w t c :
  stored_timetable id w = Some (t, c) ->
  tt_id t = id /\ In t (timetables w)
  /\ existsb (has_id id) (timetables w) = true.
Proof.
  unfold stored_timetable. destruct (find (has_id id) (timetables w)) as [t'|] eqn:F;
    [|discriminate].
  intros H. injection H as -> _. apply find_some in F. destruct F as [Hin Hid].
  split; [now apply jsstring_eqb_eq|]. split; [exact Hin|].
  apply existsb_exists. eauto.
Qed.

Lemma stored_timetable_credentials id w t c :
  stored_timetable id w = Some (t, Some c) ->
  In c (credentials w) /\ cred_timetableId c = id.
Proof.
  unfold stored_timetable. destruct (find (has_id id) (timetables w)); [|discriminate].
  intros H. injection H as _ F. apply find_some in F. destruct F as [Hin Hid].
  split; [exact Hin|]. now apply jsstring_eqb_eq.
Qed.

(** Building the rows of [createMany] only draws identifiers. *)
Lemma map_M_course_row env id fetched : forall w,
  exists rows n,
    map_M (course_row env id) fetched w = (Returned rows, set_ticks n w, [])
    /\ Forall2 (stored_as id) fetched rows
    /\ (ticks w <= n)%nat.
Proof.
  induction fetched as [|c fetched IH]; intros w.
  - exists [], (ticks w). repeat split; auto. destruct w; reflexivity.
  - cbn [map_M]. unfold bind at 1. unfold course_row at 1. unfold bind at 1.
    assert (Hrow : forall h, stored_as id c
               {| course_timetableId := id; course_hash := h;
                  course_subject := fc_subject c; course_start := fc_start c;
                  course_end := fc_end c; course_location := fc_location c;
                  course_teacher := fc_teacher c; course_color := fc_color c |}
               \/ truthy_opt (fc_hash c) = true).
    { intros h. destruct (truthy_opt (fc_hash c)) eqn:T; [now right|left].
      unfold stored_as. cbn. repeat split; auto. intros X. congruence. }
    destruct (truthy_opt (fc_hash c)) eqn:T.
    + destruct (fc_hash c) as [h|] eqn:Hh; [|discriminate].
      unfold ret at 1. cbn iota beta. unfold ret at 1.
      destruct (IH w) as [rows [n [E [F L]]]].
      unfold bind. rewrite E. unfold ret.
      exists ({| course_timetableId := id; course_hash := h;
                 course_subject := fc_subject c; course_start := fc_start c;
                 course_end := fc_end c; course_location := fc_location c;
                 course_teacher := fc_teacher c; course_color := fc_color c |}
              :: rows), n.
      repeat split; auto. constructor; auto.
      unfold stored_as. cbn. rewrite Hh. repeat split; auto.
    + unfold crypto_randomUUID. cbn iota beta. unfold ret at 1.
      destruct (IH (tick w)) as [rows [n [E [F L]]]].
      unfold bind. rewrite E. unfold ret.
      exists ({| course_timetableId := id;
                 course_hash := randomUUID env (ticks w);
                 course_subject := fc_subject c; course_start := fc_start c;
                 course_end := fc_end c; course_location := fc_location c;
                 course_teacher := fc_teacher c; course_color := fc_color c |}
              :: rows), n.
      repeat split; auto.
      * constructor; auto. destruct (Hrow (randomUUID env (ticks w))); congruence.
      * cbn in L. lia.
Qed.

(** Every run of [performSync] is one of the six. *)
Lemma performSync_run env id w : SyncRun env id w (performSync env id w).
Proof.
  unfold performSync.
  destruct (timetableQueue w) as [q|] eqn:Hq.
  2:{ apply run_disabled. exact Hq. }
  unfold try_catch, sync_body. unfold bind at 1.
  unfold prisma_timetable_findUnique.
  destruct (stored_timetable id w) as [[t [c|]]|] eqn:Hs.
  - (* the timetable and its credentials are there *)
    destruct (stored_timetable_id _ _ _ _ Hs) as [Hid [_ Hex]].
    destruct (getProvider env (tt_providerId t)) as [p|] eqn:Hp.
    2:{ unfold throw, console_error, emit, bind. cbn.
        eapply run_unknown_provider; eauto. }
    unfold bind at 1. unfold emit at 1. unfold bind at 1. unfold lift at 1.
    destruct (provider_credentials env t c) as [creds|e] eqn:Hc.
    2:{ unfold throw, console_error, emit, bind. cbn.
        eapply run_credentials_failed; eauto. }
    unfold bind at 1. unfold Date_now at 1.
    destruct (fetch_window (clock env (ticks w))) as [from to] eqn:Hw.
    unfold bind at 1. unfold provider_getSchedule, bind at 1, emit at 1.
    destruct (getSchedule p creds from to) as [fetched|e] eqn:Hg.
    2:{ unfold throw, console_error, emit, bind. cbn.
        pose proof (run_provider_failed env id w q t c p creds e Hq Hs Hp Hc)
          as R. cbv zeta in R. rewrite Hw in R. cbn [fst snd] in R.
        apply R. exact Hg. }
    unfold bind at 1, emit at 1, ret at 1. rewrite Hid.
    unfold bind at 1, prisma_course_deleteMany at 1.
    destruct (map_M_course_row env id fetched
                (set_courses
                   (filter (fun c0 => negb (in_delete_range id from c0))
                           (courses (tick w))) (tick w)))
      as [rows [n [Em [Fr Ln]]]].
    destruct fetched as [|f fetched].
    + pose proof (run_synced env id w q t c p creds [] [] (S (ticks w))
                    Hq Hs Hp Hc) as R.
      cbv zeta in R. rewrite Hw in R. cbn [fst snd] in R.
      unfold synced_world in R. rewrite app_nil_r in R.
      unfold prisma_timetable_update, bind, Date_now, ret. cbn.
      rewrite Hex. cbn. apply R; auto.
    + pose proof (run_synced env id w q t c p creds (f :: fetched) rows n
                    Hq Hs Hp Hc) as R.
      cbv zeta in R. rewrite Hw in R. cbn [fst snd] in R.
      cbn [List.length]. replace (0 <? Z.of_nat (S (List.length fetched)))
        with true by (symmetry; apply Z.ltb_lt; lia).
      unfold bind at 1. unfold bind at 1. rewrite Em.
      unfold prisma_course_createMany, bind, Date_now, prisma_timetable_update, ret.
      cbn. rewrite Hex. cbn. apply R; auto.
  - (* no credential record *)
    unfold bind, console_warn, emit.
    rewrite (remove_repeatable_jobs_run _ _ _ Hq). unfold ret.
    cbn [app].
    exact (run_not_found env id w q Hq (or_intror (ex_intro _ t Hs))).
  - (* no timetable *)
    unfold bind, console_warn, emit.
    rewrite (remove_repeatable_jobs_run _ _ _ Hq). unfold ret.
    cbn [app].
    exact (run_not_found env id w q Hq (or_introl Hs)).
Qed.

(* ------------------------------------------------------------------ *)
(** * Civil dates of constructed [Date]s                                *)
(* ------------------------------------------------------------------ *)

Module CivilFacts.
Import JsDate JsDateFacts.

Lemma Day_MakeDate d t : 0 <= t < msPerDay -> Day (MakeDate d t) = d.
Proof.
  intros H. unfold Day, MakeDate, msPerDay in *.
  Z.div_mod_to_equations. lia.
Qed.

Lemma TimeWithinDay_MakeDate d t :
  0 <= t < msPerDay -> TimeWithinDay (MakeDate d t) = t.
Proof.
  intros H. unfold TimeWithinDay, MakeDate, msPerDay in *.
  Z.div_mod_to_equations. lia.
Qed.

(** A day inside year [y] belongs to [y]. *)
Lemma YearFromDay_in_year y k :
  0 <= k < DaysInYear y -> YearFromDay (DayFromYear y + k) = y.
Proof.
  intros H. apply YearFromDay_unique. rewrite DayFromYear_succ. lia.
Qed.

Lemma leap_cases y :
  leap y = 0 /\ DaysInYear y = 365 \/ leap y = 1 /\ DaysInYear y = 366.
Proof.
  unfold leap. destruct (DaysInYear_cases y) as [H|H]; rewrite H; cbn; auto.
Qed.

Lemma month_cases m :
  0 <= m <= 11 ->
  m = 0 \/ m = 1 \/ m = 2 \/ m = 3 \/ m = 4 \/ m = 5 \/
  m = 6 \/ m = 7 \/ m = 8 \/ m = 9 \/ m = 10 \/ m = 11.
Proof. lia. Qed.

Ltac each_month H :=
  repeat (destruct H as [H|H]; [subst|]); [..|subst].

Ltac decide_ltb :=
  repeat match goal with
    | |- context [?a <? ?b] => destruct (Z.ltb_spec a b); try lia
    end.

(** The month and the day of the month of day [k] of a year, [l] being 1
    in a leap year: the case analysis of [MonthFromTime] and
    [DateFromTime]. *)
Lemma month_of_offset l m d :
  (l = 0 \/ l = 1) -> 0 <= m <= 11 ->
  1 <= d <= match m with 1 => 28 + l | 3 | 5 | 8 | 10 => 30 | _ => 31 end ->
  let k := month_start l m + d - 1 in
  (if k <? 31 then 0 else if k <? 59 + l then 1 else if k <? 90 + l then 2
   else if k <? 120 + l then 3 else if k <? 151 + l then 4
   else if k <? 181 + l then 5 else if k <? 212 + l then 6
   else if k <? 243 + l then 7 else if k <? 273 + l then 8
   else if k <? 304 + l then 9 else if k <? 334 + l then 10 else 11) = m
  /\ 0 <= k < 365 + l.
Proof.
  intros Hl Hm Hd k. subst k. apply month_cases in Hm.
  destruct Hl; subst l; each_month Hm; cbn [month_start] in *;
    (split; [decide_ltb; reflexivity | lia]).
Qed.

(** [MakeDay] followed by the three projections gives the date back. *)
Lemma civil_MakeDate y m d :
  0 <= m <= 11 -> 1 <= d <= DaysInMonth y m ->
  civil y m d (MakeDate (MakeDay y m d) 0).
Proof.
  intros Hm Hd.
  assert (Hl : leap y = 0 \/ leap y = 1)
    by (destruct (leap_cases y) as [[L _]|[L _]]; auto).
  destruct (month_of_offset (leap y) m d Hl Hm Hd) as [Hmonth Hk].
  assert (Hday : MakeDay y m d = DayFromYear y + (month_start (leap y) m + d - 1)).
  { unfold MakeDay, DayFromMonth.
    replace (m / 12) with 0 by (Z.div_mod_to_equations; lia).
    replace (m mod 12) with m by (Z.div_mod_to_equations; lia).
    replace (y + 0) with y by lia. lia. }
  assert (Hy : YearFromTime (MakeDate (MakeDay y m d) 0) = y).
  { unfold YearFromTime. rewrite Day_MakeDate by (unfold msPerDay; lia).
    rewrite Hday. apply YearFromDay_in_year.
    destruct (leap_cases y) as [[L D]|[L D]]; rewrite L, D in *; lia. }
  assert (Hw : DayWithinYear (MakeDate (MakeDay y m d) 0)
               = month_start (leap y) m + d - 1).
  { unfold DayWithinYear. rewrite Hy, Day_MakeDate by (unfold msPerDay; lia).
    lia. }
  assert (HM : MonthFromTime (MakeDate (MakeDay y m d) 0) = m).
  { unfold MonthFromTime, InLeapYear. rewrite Hy, Hw. exact Hmonth. }
  unfold civil. split; [exact Hy|]. split; [exact HM|]. split.
  - unfold DateFromTime, InLeapYear. rewrite HM, Hy, Hw.
    apply month_cases in Hm. each_month Hm; cbn [month_start]; lia.
  - apply TimeWithinDay_MakeDate. unfold msPerDay. lia.
Qed.

(** [new Date(y, m, d)] for a year outside 0..99. *)
Lemma civil_new_Date y m d :
  100 <= y -> 0 <= m <= 11 -> 1 <= d <= DaysInMonth y m ->
  civil y m d (new_Date y m d).
Proof.
  intros Hy Hm Hd. unfold new_Date.
  replace ((0 <=? y) && (y <=? 99)) with false
    by (symmetry; apply andb_false_iff; right; apply Z.leb_gt; lia).
  unfold MakeTime. now apply civil_MakeDate.
Qed.

(** Moving 30 August on by 14 days with [setDate] gives 13 September. *)
Lemma setDate_august_30 y :
  100 <= y ->
  let end_ := new_Date y 7 30 in
  setDate end_ (getDate end_ + 14) = new_Date y 8 13
  /\ setDate end_ (getDate end_ + 14) = end_ + 14 * msPerDay.
Proof.
  intros Hy end_.
  destruct (civil_new_Date y 7 30 Hy ltac:(lia) ltac:(cbn; lia))
    as [Y [Mo [D T]]]. fold end_ in Y, Mo, D, T.
  unfold setDate, getDate. rewrite Y, Mo, D, T.
  unfold end_, new_Date.
  replace ((0 <=? y) && (y <=? 99)) with false
    by (symmetry; apply andb_false_iff; right; apply Z.leb_gt; lia).
  unfold MakeDate, MakeTime, MakeDay, DayFromMonth, msPerDay.
  change (7 / 12) with 0. change (7 mod 12) with 7.
  change (8 / 12) with 0. change (8 mod 12) with 8.
  cbn [month_start]. replace (y + 0) with y by lia. lia.
Qed.

End CivilFacts.

(* ------------------------------------------------------------------ *)
(** * Reading the calls of a run                                        *)
(* ------------------------------------------------------------------ *)

(** Splits a hypothesis [In e evs] over the list of calls of a run. *)
Ltac which_event H :=
  repeat
    match type of H with
    | In _ (_ ++ _) => apply in_app_or in H; destruct H as [H|H]
    | In _ (map _ _) =>
        apply in_map_iff in H; destruct H as [? [H ?]]; discriminate H
    | In _ (match ?l with [] => _ | _ :: _ => _ end) =>
        is_var l; destruct l; cbv beta iota in H
    | In _ [] => destruct H
    | In _ (_ :: _) => destruct H as [H|H]; [try discriminate H|]
    end.

(** The provider is called in two kinds of runs only, and always with
    the credentials of lines 84-92 and the window of lines 94-108. *)
Lemma provider_call_inv env id w pid creds from to :
  In (CallGetSchedule pid creds from to) (events_of (performSync env id w)) ->
  exists q t c p,
    timetableQueue w = Some q /\
    stored_timetable id w = Some (t, Some c) /\
    getProvider env (tt_providerId t) = Some p /\
    pid = provider_id p /\
    provider_credentials env t c = Returned creds /\
    (from, to) = fetch_window (clock env (ticks w)).
Proof.
  intros H. destruct (performSync_run env id w); unfold events_of in H;
    cbn [snd] in H;
    try (assert (Hwin : window = fetch_window (clock env (ticks w)))
           by reflexivity; clearbody window);
    which_event H.
  all: injection H as <- <- <- <-; exists q, t, c, p;
    repeat split; auto; rewrite <- Hwin; now destruct window.
Qed.

(* ------------------------------------------------------------------ *)
(** * The fetch window                                                  *)
(* ------------------------------------------------------------------ *)

Lemma fetch_window_from_start_year now :
  100 <= startYear now ->
  fst (fetch_window now) = JsDate.new_Date (startYear now) 8 1 /\
  snd (fetch_window now) = JsDate.new_Date (startYear now + 1) 8 13 /\
  snd (fetch_window now)
    = JsDate.new_Date (startYear now + 1) 7 30 + 14 * JsDate.msPerDay.
Proof.
  intros Hy. unfold fetch_window, period. cbn [startDate endDate fst snd].
  destruct (CivilFacts.setDate_august_30 (startYear now + 1) ltac:(lia))
    as [E1 E2].
  split; [reflexivity|]. split; [exact E1|exact E2].
Qed.

(** C3.  Whenever [performSync] calls the provider, with a clock showing
    a year from 1970 to 275000, the window it passes starts on 1 September
    (local midnight) of the previous calendar year when the current month
    is January to August, and of the current year otherwise; its end is
    30 August of the year after the start, moved on by 14 days (13
    September).  For 2024-03-01 the start is 2023-09-01 and for 2024-10-01
    it is 2024-09-01. *)
Theorem performSync_fetch_window :
  forall env id w pid creds from to,
    In (CallGetSchedule pid creds from to) (events_of (performSync env id w)) ->
    let now := clock env (ticks w) in
    let year := JsDate.getFullYear now in
    1970 <= year <= 275000 ->
    (from, to) = fetch_window now /\
    (JsDate.getMonth now < 8 ->
       JsDate.civil (year - 1) 8 1 from /\
       JsDate.civil year 7 30 (JsDate.new_Date year 7 30) /\
       to = JsDate.new_Date year 7 30 + 14 * JsDate.msPerDay /\
       JsDate.civil year 8 13 to) /\
    (8 <= JsDate.getMonth now ->
       JsDate.civil year 8 1 from /\
       JsDate.civil (year + 1) 7 30 (JsDate.new_Date (year + 1) 7 30) /\
       to = JsDate.new_Date (year + 1) 7 30 + 14 * JsDate.msPerDay /\
       JsDate.civil (year + 1) 8 13 to) /\
    fst (fetch_window (JsDate.new_Date 2024 2 1)) = JsDate.new_Date 2023 8 1 /\
    fst (fetch_window (JsDate.new_Date 2024 9 1)) = JsDate.new_Date 2024 8 1.
Proof.
  intros env id w pid creds from to Hcall now year Hyear.
  destruct (provider_call_inv _ _ _ _ _ _ _ Hcall)
    as [q [t [c [p [_ [_ [_ [_ [_ Hw]]]]]]]]].
  fold now in Hw.
  assert (Hyr : year = JsDate.getFullYear now) by reflexivity.
  clearbody year. clearbody now.
  split; [exact Hw|].
  assert (Hfrom : from = fst (fetch_window now)) by (now rewrite <- Hw).
  assert (Hto : to = snd (fetch_window now)) by (now rewrite <- Hw).
  clear Hw Hcall.
  assert (Hcivil : forall y, 1969 <= y ->
            startYear now = y ->
            JsDate.civil y 8 1 from /\
            JsDate.civil (y + 1) 7 30 (JsDate.new_Date (y + 1) 7 30) /\
            to = JsDate.new_Date (y + 1) 7 30 + 14 * JsDate.msPerDay /\
            JsDate.civil (y + 1) 8 13 to).
  { intros y Hy Hs.
    destruct (fetch_window_from_start_year now ltac:(lia)) as [F [T1 T2]].
    rewrite Hs in F, T1, T2. rewrite Hfrom, Hto, F, T2.
    split; [apply CivilFacts.civil_new_Date;
            unfold JsDate.DaysInMonth; lia|].
    split; [apply CivilFacts.civil_new_Date;
            unfold JsDate.DaysInMonth; lia|].
    split; [reflexivity|].
    rewrite <- T2, T1.
    apply CivilFacts.civil_new_Date; unfold JsDate.DaysInMonth; lia. }
  split; [|split; [|split]].
  - intros Hm.
    assert (Hs : startYear now = year - 1).
    { unfold startYear. rewrite <- Hyr.
      apply Z.ltb_lt in Hm. now rewrite Hm. }
    specialize (Hcivil (year - 1) ltac:(lia) Hs).
    replace (year - 1 + 1) with year in Hcivil by lia. exact Hcivil.
  - intros Hm. apply Hcivil; [lia|]. unfold startYear. rewrite <- Hyr.
    apply Z.ltb_ge in Hm. now rewrite Hm.
  - vm_compute. reflexivity.
  - vm_compute. reflexivity.
Qed.

Lemma performSync_fetch_window_witness :
  (JsDate.new_Date 2024 8 1, JsDate.new_Date 2025 8 13)
    = fetch_window (clock Demo.demo_env 0)
  /\ JsDate.civil 2024 8 1 (JsDate.new_Date 2024 8 1)
  /\ JsDate.civil 2025 8 13 (JsDate.new_Date 2025 8 13).
Proof.
  pose proof (performSync_fetch_window Demo.demo_env (js "tt2") Demo.demo_world
                (js "quiet") (JObject [])
                (JsDate.new_Date 2024 8 1) (JsDate.new_Date 2025 8 13)) as W.
  cbv zeta in W.
  destruct W as [W1 [_ [W2 _]]].
  - vm_compute. auto.
  - vm_compute. split; discriminate.
  - split; [exact W1|]. destruct W2 as [A [_ [_ B]]].
    + vm_compute. discriminate.
    + split; [exact A|exact B].
Defined.

(* ------------------------------------------------------------------ *)
(** * Reconciliation                                                    *)
(* ------------------------------------------------------------------ *)

Lemma kept_courses_iff id from cs c :
  In c (kept_courses id from cs) <->
  In c cs /\ (course_timetableId c <> id \/ course_start c < from).
Proof.
  unfold kept_courses. rewrite filter_In. unfold in_delete_range.
  rewrite negb_true_iff, andb_false_iff, jsstring_eqb_neq, Z.leb_gt.
  tauto.
Qed.

(** C1.  In every run of [performSync] that reaches reconciliation (the
    [deleteMany] call is made), the call is for the synced timetable and
    the start of the computed window; it comes before any insertion; the
    stored courses afterwards are the old ones that belong to another
    timetable or start strictly before the window start, unchanged and in
    their order, followed by the rows written for the fetched events: so
    every old course of the timetable starting at or after the window
    start is deleted. *)
Theorem performSync_reconciliation :
  forall env id w tid from,
    In (CourseDeleteMany tid from) (events_of (performSync env id w)) ->
    let r := performSync env id w in
    tid = id /\
    from = fst (fetch_window (clock env (ticks w))) /\
    exists fetched rows before synced,
      events_of r =
        before ++ CourseDeleteMany id from
        :: (match fetched with [] => [] | _ :: _ => [CourseCreateMany rows] end)
        ++ [TimetableUpdate id synced] /\
      Forall (fun e => writes_courses e = false) before /\
      In (GetScheduleReturned fetched) before /\
      Forall2 (stored_as id) fetched rows /\
      courses (world_of r) = kept_courses id from (courses w) ++ rows /\
      (forall c, In c (kept_courses id from (courses w)) <->
                 In c (courses w) /\
                 (course_timetableId c <> id \/ course_start c < from)).
Proof.
  intros env id w tid from H r. subst r.
  destruct (performSync_run env id w); unfold events_of, world_of in *;
    cbn [fst snd] in *;
    try (assert (Hwin : window = fetch_window (clock env (ticks w)))
           by reflexivity; clearbody window);
    which_event H.
  all: injection H as <- <-; (split; [reflexivity|]); (split; [now rewrite Hwin|]).
  all: exists fetched, rows,
         [TimetableFindUnique id;
          CallDecrypt (cred_encryptedCredentials c) (cred_iv c);
          CallGetSchedule (provider_id p) creds (fst window) (snd window);
          GetScheduleReturned fetched], (clock env n);
       (split; [reflexivity|]).
  all: split; [repeat constructor|].
  all: split; [cbn; auto 10|].
  all: split; [assumption|].
  all: split; [reflexivity|].
  all: intros c0; apply kept_courses_iff.
Qed.

Lemma performSync_reconciliation_witness :
  exists fetched rows,
    Forall2 (stored_as (js "tt1")) fetched rows /\
    courses (world_of (performSync Demo.demo_env (js "tt1") Demo.demo_world))
    = kept_courses (js "tt1") (JsDate.new_Date 2024 8 1)
        (courses Demo.demo_world) ++ rows.
Proof.
  destruct (performSync_reconciliation Demo.demo_env (js "tt1") Demo.demo_world
              (js "tt1") (JsDate.new_Date 2024 8 1))
    as [_ [_ [fetched [rows [before [synced [_ [_ [_ [Hr [Hc _]]]]]]]]]]].
  - vm_compute. auto 10.
  - exists fetched, rows. split; [exact Hr|exact Hc].
Defined.

(** C4.  In every run of [performSync] in which the provider returns an
    empty list, the run returns [{ success: true, coursesCount: 0 }],
    the stored courses afterwards are exactly the old ones outside the
    range [timetableId = id, start >= window start], the timetable's
    last-synced timestamp is set (non-null) and nothing is thrown; a run
    in which the provider throws ends by throwing that error instead. *)
Theorem performSync_empty_schedule :
  forall env id w,
    In (GetScheduleReturned []) (events_of (performSync env id w)) ->
    let r := performSync env id w in
    let from := fst (fetch_window (clock env (ticks w))) in
    outcome_of r = Returned {| success := true; message := None;
                               coursesCount := Some 0 |} /\
    courses (world_of r) = kept_courses id from (courses w) /\
    (forall c, In c (courses (world_of r)) ->
               ~ (course_timetableId c = id /\ from <= course_start c)) /\
    (exists t, In t (timetables (world_of r)) /\ tt_id t = id) /\
    (forall t, In t (timetables (world_of r)) -> tt_id t = id ->
               tt_lastSyncedAt t <> None) /\
    (forall e, outcome_of r <> Threw e) /\
    (forall w' e,
        In (GetScheduleThrew e) (events_of (performSync env id w')) ->
        outcome_of (performSync env id w') = Threw e).
Proof.
  intros env id w H r from.
  assert (Hthrow : forall w' e,
            In (GetScheduleThrew e) (events_of (performSync env id w')) ->
            outcome_of (performSync env id w') = Threw e).
  { intros w' e He.
    destruct (performSync_run env id w'); unfold events_of, outcome_of in *;
      cbn [fst snd] in *; try clearbody window; which_event He.
    injection He as <-. reflexivity. }
  subst r from.
  destruct (performSync_run env id w); unfold events_of, world_of, outcome_of in *;
    cbn [fst snd] in *;
    try (assert (Hwin : window = fetch_window (clock env (ticks w)))
           by reflexivity; clearbody window);
    which_event H.
  injection H as ->. inversion H5; subst rows. rewrite <- Hwin.
  destruct (stored_timetable_id _ _ _ _ H1) as [Hid [Hin _]].
  unfold synced_world. cbn [courses timetables]. rewrite app_nil_r.
  split; [reflexivity|]. split; [reflexivity|]. split.
  { intros c0 Hc [E1 E2]. apply kept_courses_iff in Hc.
    destruct Hc as [_ [N|L]]; [congruence|lia]. }
  split.
  { exists (set_lastSyncedAt t (clock env n)). split; [|exact Hid].
    apply in_map_iff. exists t. split; [|exact Hin].
    unfold has_id. now rewrite Hid, jsstring_eqb_refl. }
  split; [|split; [discriminate|exact Hthrow]].
  intros t0 Ht0 Hid0. apply in_map_iff in Ht0. destruct Ht0 as [t1 [E _]].
  destruct (has_id id t1) eqn:Hh; subst t0.
  - discriminate.
  - unfold has_id in Hh. apply jsstring_eqb_neq in Hh. congruence.
Qed.

Lemma performSync_empty_schedule_witness :
  outcome_of (performSync Demo.demo_env (js "tt2") Demo.demo_world)
  = Returned {| success := true; message := None; coursesCount := Some 0 |}
  /\ courses (world_of (performSync Demo.demo_env (js "tt2") Demo.demo_world))
     = kept_courses (js "tt2")
         (fst (fetch_window (clock Demo.demo_env 0)))
         (courses Demo.demo_world).
Proof.
  destruct (performSync_empty_schedule Demo.demo_env (js "tt2") Demo.demo_world)
    as [Ho [Hc _]].
  - vm_compute. auto 10.
  - split; [exact Ho|exact Hc].
Defined.

(** C5.  In every run of [performSync] in which the provider call throws,
    the run throws the same error; timetables (hence every last-synced
    timestamp), credential records, courses and the queue are as before,
    and no call that writes to storage was made. *)
Theorem performSync_provider_failure :
  forall env id w e,
    In (GetScheduleThrew e) (events_of (performSync env id w)) ->
    let r := performSync env id w in
    outcome_of r = Threw e /\
    timetables (world_of r) = timetables w /\
    credentials (world_of r) = credentials w /\
    courses (world_of r) = courses w /\
    timetableQueue (world_of r) = timetableQueue w /\
    Forall (fun ev => writes_storage ev = false) (events_of r).
Proof.
  intros env id w e H r. subst r.
  destruct (performSync_run env id w); unfold events_of, world_of, outcome_of in *;
    cbn [fst snd] in *; try clearbody window; which_event H.
  injection H as <-. repeat split; auto.
  repeat constructor.
Qed.

Lemma performSync_provider_failure_witness :
  outcome_of (performSync Demo.demo_env (js "tt3") Demo.demo_world)
  = Threw (ProviderError (js "ETIMEDOUT"))
  /\ courses (world_of (performSync Demo.demo_env (js "tt3") Demo.demo_world))
     = courses Demo.demo_world.
Proof.
  destruct (performSync_provider_failure Demo.demo_env (js "tt3")
              Demo.demo_world (ProviderError (js "ETIMEDOUT")))
    as [Ho [_ [_ [Hc _]]]].
  - vm_compute. auto 10.
  - split; [exact Ho|exact Hc].
Defined.

(* ------------------------------------------------------------------ *)
(** * A timetable that is gone                                          *)
(* ------------------------------------------------------------------ *)

(** A run for a timetable that is gone, or whose credential record is:
    the soft answer, after the look-up, the warning and the listing of
    the repeatable jobs; nothing is removed and nothing else changes. *)
Lemma performSync_not_found_run env id w q :
  timetableQueue w = Some q ->
  (find (has_id id) (timetables w) = None \/
   find (fun c => jsstring_eqb (cred_timetableId c) id) (credentials w) = None) ->
  performSync env id w =
    (Returned {| success := false;
                 message := Some (js "Timetable not found");
                 coursesCount := None |},
     w,
     [TimetableFindUnique id; ConsoleWarn (not_found_message id);
      QueueGetRepeatableJobs]).
Proof.
  intros Hq Hmissing.
  assert (Hs : forall t c, stored_timetable id w <> Some (t, Some c)).
  { intros t c. unfold stored_timetable.
    destruct Hmissing as [E|E]; rewrite E;
      [|destruct (find (has_id id) (timetables w))]; congruence. }
  destruct (performSync_run env id w) as [Hn|q' Hq' _| | | |];
    try congruence;
    try (exfalso; eapply Hs; eassumption).
Qed.

(** C6.  The queue is initialised and holds a registration
    [sync-gone], made for a timetable [gone] that is no longer stored.
    [performSync] for it looks the timetable up, warns, lists the
    repeatable jobs and returns
    [{ success: false, message: "Timetable not found" }] without
    throwing, decrypting, calling a provider or writing to storage; but
    no listed entry carries an [id], the removal is never made, and the
    registration is still there after the run. *)
Theorem performSync_not_found_registration_stays :
  let r := performSync Demo.demo_env (js "gone") Demo.demo_world in
  let registration :=
    {| rj_name := js "sync"; rj_id := Some (sync_job_id (js "gone"));
       rj_every := 3600000 |} in
  find (has_id (js "gone")) (timetables Demo.demo_world) = None /\
  filter (registered_for (js "gone")) (registrations Demo.demo_world)
  = [registration] /\
  r = (Returned {| success := false;
                   message := Some (js "Timetable not found");
                   coursesCount := None |},
       Demo.demo_world,
       [TimetableFindUnique (js "gone");
        ConsoleWarn (not_found_message (js "gone"));
        QueueGetRepeatableJobs]) /\
  filter (registered_for (js "gone")) (registrations (world_of r))
  = [registration].
Proof.
  cbv zeta.
  rewrite (performSync_not_found_run Demo.demo_env (js "gone") Demo.demo_world
             Demo.demo_queue eq_refl (or_introl eq_refl)).
  repeat split; reflexivity.
Qed.

(* ------------------------------------------------------------------ *)
(** * The credentials handed to the provider                            *)
(* ------------------------------------------------------------------ *)

Lemma props_get_set_same ps k v : props_get (props_set ps k v) k = v.
Proof.
  induction ps as [|[k' v'] ps IH]; cbn.
  - now rewrite jsstring_eqb_refl.
  - destruct (jsstring_eqb k' k) eqn:E; cbn.
    + now rewrite jsstring_eqb_refl.
    + now rewrite E.
Qed.

Lemma props_get_set_other ps k v k' :
  k' <> k -> props_get (props_set ps k v) k' = props_get ps k'.
Proof.
  intros Hne. induction ps as [|[k0 v0] ps IH]; cbn.
  - apply jsstring_eqb_neq in Hne.
    destruct (jsstring_eqb k k') eqn:E; auto.
    apply jsstring_eqb_eq in E. apply jsstring_eqb_neq in Hne. congruence.
  - destruct (jsstring_eqb k0 k) eqn:E; cbn.
    + apply jsstring_eqb_eq in E. subst k0.
      destruct (jsstring_eqb k k') eqn:E'; auto.
      apply jsstring_eqb_eq in E'. congruence.
    + destruct (jsstring_eqb k0 k'); auto.
Qed.

(** After [obj.k = v] the property is [v] and the others are as before. *)
Lemma set_property_spec obj k v obj' :
  set_property obj k v = Returned obj' ->
  get_property obj' k = v /\
  forall k', k' <> k -> get_property obj' k' = get_property obj k'.
Proof.
  destruct obj; cbn; try discriminate; intros H; injection H as <-; cbn;
    (split; [apply props_get_set_same
            | intros k' Hk; now apply props_get_set_other]).
Qed.

(** The credentials of a provider call come from the JSON-decoded
    decrypted credential record: when the timetable's school identifier
    is a non-empty string, they are that object after its [schoolId]
    property was assigned the identifier; otherwise they are the decoded
    object itself. *)
Lemma provider_call_credentials env id w pid creds from to :
  In (CallGetSchedule pid creds from to) (events_of (performSync env id w)) ->
  exists t c decrypted parsed,
    stored_timetable id w = Some (t, Some c) /\
    decrypt env (cred_encryptedCredentials c) (cred_iv c) = Returned decrypted /\
    JSON_parse env decrypted = Returned parsed /\
    match tt_schoolId t with
    | Some (u :: s) =>
        set_property parsed (js "schoolId") (JString (u :: s)) = Returned creds /\
        get_property creds (js "schoolId") = JString (u :: s) /\
        (forall k, k <> js "schoolId" ->
                   get_property creds k = get_property parsed k)
    | Some [] | None => creds = parsed
    end.
Proof.
  intros H.
  destruct (provider_call_inv _ _ _ _ _ _ _ H)
    as [q [t [c [p [_ [Hs [_ [_ [Hc _]]]]]]]]].
  unfold provider_credentials in Hc.
  destruct (decrypt env (cred_encryptedCredentials c) (cred_iv c))
    as [decrypted|] eqn:Hd; [|discriminate].
  destruct (JSON_parse env decrypted) as [parsed|] eqn:Hp; [|discriminate].
  exists t, c, decrypted, parsed. repeat (split; [assumption || reflexivity|]).
  destruct (tt_schoolId t) as [[|u s]|]; cbn [truthy_opt truthy_string] in Hc.
  - now injection Hc.
  - split; [exact Hc|]. now apply set_property_spec in Hc.
  - now injection Hc.
Qed.

(* ------------------------------------------------------------------ *)
(** * Start-up of the encryption module                                 *)
(* ------------------------------------------------------------------ *)

Lemma utf8_encode_ascii k :
  Forall (fun c => 0 <= c < 128) k -> Encoding.utf8_encode k = k.
Proof.
  induction 1 as [|c k Hc _ IH]; [reflexivity|].
  cbn [Encoding.utf8_encode].
  unfold Encoding.is_high_surrogate, Encoding.is_low_surrogate.
  replace (55296 <=? c) with false by (symmetry; apply Z.leb_gt; lia).
  replace (56320 <=? c) with false by (symmetry; apply Z.leb_gt; lia).
  cbn [andb]. unfold Encoding.utf8_of_code_point.
  replace (c <? 128) with true by (symmetry; apply Z.ltb_lt; lia).
  cbn [app]. now rewrite IH.
Qed.



(* ------------------------------------------------------------------ *)
(** * Runs of [POST /api/timetables]                                    *)
(* ------------------------------------------------------------------ *)

(** The two scheduling helpers touch the queue and the console only. *)
Lemma triggerImmediateSync_queue_only id w :
  exists w' evs,
    triggerImmediateSync id w = (Returned tt, w', evs) /\
    same_rows w w' /\
    Forall (fun e => looks_up_or_writes e = false) evs.
Proof.
  unfold triggerImmediateSync, queue_add, console_warn, emit.
  destruct (timetableQueue w) as [q|] eqn:Hq; rewrite ?Hq;
    eexists _, _; (split; [reflexivity|]);
    (split; [repeat split|repeat constructor]).
Qed.

Lemma scheduleTimetableSync_queue_only id n w :
  exists w' evs,
    scheduleTimetableSync id n w = (Returned tt, w', evs) /\
    same_rows w w' /\
    Forall (fun e => looks_up_or_writes e = false) evs.
Proof.
  destruct (timetableQueue w) as [q|] eqn:Hq.
  - rewrite (scheduleTimetableSync_run _ _ _ _ Hq). eexists _, _.
    split; [reflexivity|]. split; [repeat split|].
    unfold schedule_events. repeat constructor.
  - rewrite (scheduleTimetableSync_disabled _ _ _ Hq). eexists _, _.
    split; [reflexivity|]. split; [repeat split|repeat constructor].
Qed.

(** Closes the case of a request answered before the look-up. *)
Ltac answered_early :=
  apply post_answered_early;
  [ repeat split
  | reflexivity
  | repeat constructor
  | let res := fresh "res" in
    let E := fresh "E" in
    intros res E;
    first [ discriminate E
          | injection E as <-; split; discriminate ] ].

(** Every run of the handler is one of the four. *)
Lemma post_timetables_run env req w :
  PostRun env req w (post_timetables env req w).
Proof.
  unfold post_timetables.
  destruct (req_session req) as [session|] eqn:Hsession;
    [|unfold ret; answered_early].
  destruct (emailVerified session); cbn [negb];
    [|unfold ret; answered_early].
  assert (Hgoal : forall body, body = req_body req ->
    PostRun env req w
      ((let providerId := get_property body (js "providerId") in
        let schoolId := get_property body (js "schoolId") in
        let identifier := get_property body (js "identifier") in
        let password := get_property body (js "password") in
        let syncInterval :=
          match get_property body (js "syncInterval") with
          | JUndefined => JNumber 60
          | v => v
          end in
        if negb (truthy providerId) || negb (truthy identifier)
           || negb (truthy password)
        then ret (reject 400 "BAD_REQUEST")
        else
        match getProviderOf env providerId, providerId with
        | Some provider, JString providerId =>
        if has_schools provider && negb (truthy schoolId)
        then ret (reject 400 "MISSING_SCHOOL")
        else
        try_catch
          (let candidate := JObject [(js "identifier", identifier);
                                     (js "password", password);
                                     (js "schoolId", schoolId)] in
           emit (CallValidateCredentials providerId candidate) ;;;
           isValid <- lift (validateCredentials provider candidate) ;;
           if negb isValid then ret (reject 401 "INVALID_CREDENTIALS")
           else
             let credsJson :=
               JSON_stringify env (JObject [(js "identifier", identifier);
                                            (js "password", password)]) in
             payload <- encrypt env credsJson ;;
             normalized <- lift (normalizedSchoolId schoolId) ;;
             existingTimetable <-
               prisma_timetable_findFirst (user_id session) providerId normalized ;;
             match existingTimetable with
             | Some _ => ret (reject 400 "ALREADY_EXISTS")
             | None =>
                 timetable <-
                   prisma_timetable_create env (user_id session) providerId
                     normalized syncInterval payload ;;
                 triggerImmediateSync (tt_id timetable) ;;;
                 scheduleTimetableSync (tt_id timetable)
                   (tt_syncInterval timetable) ;;;
                 ret {| res_status := 202; res_error := None;
                        res_timetable := Some timetable |}
             end)
          (fun error =>
             console_error (js "[API Error] " ++ exn_message error) ;;;
             ret (reject 500 "INTERNAL_ERROR"))
        | _, _ => ret (reject 400 "UNKNOWN_PROVIDER")
        end) w)).
  2:{ destruct (req_body req) eqn:Hbody;
        try (unfold throw; answered_early);
        apply Hgoal; reflexivity. }
  intros body Hbody. cbv zeta. rewrite Hbody. clear body Hbody.
  destruct (negb (truthy (get_property (req_body req) (js "providerId")))
            || negb (truthy (get_property (req_body req) (js "identifier")))
            || negb (truthy (get_property (req_body req) (js "password"))));
    [unfold ret; answered_early|].
  destruct (getProviderOf env (get_property (req_body req) (js "providerId")))
    as [provider|] eqn:Hprovider;
    destruct (get_property (req_body req) (js "providerId"))
      as [| |?|?|providerId|? ?|?] eqn:HproviderId;
    try (unfold ret; answered_early).
  destruct (has_schools provider
            && negb (truthy (get_property (req_body req) (js "schoolId"))));
    [unfold ret; answered_early|].
  unfold try_catch. unfold bind at 1. unfold emit at 1. unfold bind at 1.
  unfold lift at 1.
  destruct (validateCredentials provider _) as [isValid|e];
    [|unfold bind, console_error, emit, ret; cbn [app]; answered_early].
  destruct isValid; cbn [negb];
    [|unfold ret; cbn [app]; answered_early].
  unfold bind at 1. unfold encrypt at 1. unfold bind at 1.
  unfold crypto_randomBytes at 1. unfold bind at 1. unfold emit at 1.
  unfold lift at 1.
  destruct (Vault.encrypt _ _ _ _) as [payload|e];
    [|unfold bind, console_error, emit, ret; cbn [app]; answered_early].
  unfold bind at 1. unfold lift at 1.
  destruct (normalizedSchoolId _) as [normalized|e] eqn:Hnormalized;
    [|unfold bind, console_error, emit, ret; cbn [app]; answered_early].
  unfold bind at 1. unfold prisma_timetable_findFirst at 1.
  cbn [timetables tick set_ticks].
  destruct (find _ (timetables w)) as [existing|] eqn:Hfind.
  { unfold ret. cbn [app].
    match goal with
    | |- PostRun _ _ _ (_, ?w', ?a :: ?b :: ?c) =>
        change (a :: b :: c) with ([a; b] ++ c)
    end.
    eapply post_already_exists; eauto; repeat constructor. }
  unfold bind at 1. unfold prisma_timetable_create at 1.
  destruct (match get_property (req_body req) (js "syncInterval") with
            | JUndefined => JNumber 60
            | v => v
            end) as [| |?|n|?|? ?|?];
    try (unfold bind, console_error, emit, ret; cbn [app];
         match goal with
         | |- PostRun _ _ _ (_, ?w', ?a :: ?b :: ?c :: ?d) =>
             change (a :: b :: c :: d) with ([a; b] ++ c :: d)
         end;
         eapply post_create_failed; eauto; repeat constructor).
  cbn [timetables tick set_ticks ticks].
  destruct (existsb _ (timetables w)).
  { unfold bind, console_error, emit, ret; cbn [app].
    match goal with
    | |- PostRun _ _ _ (_, ?w', ?a :: ?b :: ?c :: ?d) =>
        change (a :: b :: c :: d) with ([a; b] ++ c :: d)
    end.
    eapply post_create_failed; eauto; repeat constructor. }
  unfold bind at 1. cbn [tt_id tt_syncInterval].
  match goal with
  | |- context [triggerImmediateSync ?i ?w1] =>
      destruct (triggerImmediateSync_queue_only i w1)
        as [w2 [evs2 [E2 [[R2t [R2c R2o]] F2]]]]; rewrite E2
  end.
  unfold bind at 1.
  match goal with
  | |- context [scheduleTimetableSync ?i ?n ?w1] =>
      destruct (scheduleTimetableSync_queue_only i n w1)
        as [w3 [evs3 [E3 [[R3t [R3c R3o]] F3]]]]; rewrite E3
  end.
  unfold ret. cbn [app].
  match goal with
  | |- PostRun _ _ _ (_, ?w', ?a :: ?b :: ?c :: ?d :: ?e) =>
      change (a :: b :: c :: d :: e) with ([a; b] ++ c :: d :: e)
  end.
  eapply post_created; eauto.
  - rewrite R3t, R2t. reflexivity.
  - rewrite R3c, R2c. reflexivity.
  - rewrite R3o, R2o. reflexivity.
  - rewrite app_nil_r. apply Forall_app. split; assumption.
Qed.

Lemma same_owner_provider_school_iff u p s t :
  same_owner_provider_school u p s t = true <-> triple t = (u, p, s).
Proof.
  unfold same_owner_provider_school, triple.
  rewrite !andb_true_iff, !jsstring_eqb_eq, opt_jsstring_eqb_eq. split.
  - intros [[-> ->] ->]. reflexivity.
  - intros H. injection H. auto.
Qed.

Lemma find_triple_none u p s ts :
  find (same_owner_provider_school u p s) ts = None ->
  ~ In (u, p, s) (map triple ts).
Proof.
  intros Hf Hin. apply in_map_iff in Hin. destruct Hin as [t [Ht Hin]].
  apply (find_none _ _ Hf) in Hin.
  apply same_owner_provider_school_iff in Ht. congruence.
Qed.

Lemma find_triple_some u p s ts :
  (exists t, In t ts /\ triple t = (u, p, s)) ->
  exists t, find (same_owner_provider_school u p s) ts = Some t.
Proof.
  intros [t [Hin Ht]].
  destruct (find (same_owner_provider_school u p s) ts) as [t'|] eqn:Hf;
    [eauto|].
  exfalso. apply (find_triple_none _ _ _ _ Hf).
  rewrite <- Ht. now apply in_map.
Qed.

Lemma NoDup_snoc {A} (l : list A) (x : A) :
  NoDup l -> ~ In x l -> NoDup (l ++ [x]).
Proof.
  induction 1 as [|y l Hy Hl IH]; intros Hx; cbn.
  - constructor; [intros []|constructor].
  - constructor.
    + rewrite in_app_iff. intros [H|[H|[]]]; [auto|].
      subst. apply Hx. now left.
    + apply IH. intros H. apply Hx. now right.
Qed.

(** The run of a request that passes every check made before the
    look-up, for a triple that has a timetable: the provider validates
    the credentials, they are encrypted, the triple is looked up and the
    answer is 400 [ALREADY_EXISTS]. *)
Lemma post_timetables_existing_run env req w session providerId provider
      normalized existing :
  req_session req = Some session ->
  emailVerified session = true ->
  get_property (req_body req) (js "providerId") = JString providerId ->
  providerId <> [] ->
  truthy (get_property (req_body req) (js "identifier")) = true ->
  truthy (get_property (req_body req) (js "password")) = true ->
  getProvider env providerId = Some provider ->
  (has_schools provider = true ->
   truthy (get_property (req_body req) (js "schoolId")) = true) ->
  validateCredentials provider (submitted_credentials (req_body req))
    = Returned true ->
  List.length (Vault.key_bytes (encryption_key env)) = 32%nat ->
  normalizedSchoolId (get_property (req_body req) (js "schoolId"))
    = Returned normalized ->
  find (same_owner_provider_school (user_id session) providerId normalized)
       (timetables w) = Some existing ->
  post_timetables env req w =
    (Returned (reject 400 "ALREADY_EXISTS"), tick w,
     [CallValidateCredentials providerId (submitted_credentials (req_body req));
      CallEncrypt (drawn_iv env (ticks w));
      TimetableFindFirst (user_id session) providerId normalized]).
Proof.
  intros Hs Hv Hp Hne Hi Hpw Hg Hsch Hval Hkey Hn Hf.
  assert (Hgoal : forall body, body = req_body req ->
    (let providerId := get_property body (js "providerId") in
     let schoolId := get_property body (js "schoolId") in
     let identifier := get_property body (js "identifier") in
     let password := get_property body (js "password") in
     let syncInterval :=
       match get_property body (js "syncInterval") with
       | JUndefined => JNumber 60
       | v => v
       end in
     if negb (truthy providerId) || negb (truthy identifier)
        || negb (truthy password)
     then ret (reject 400 "BAD_REQUEST")
     else
     match getProviderOf env providerId, providerId with
     | Some provider, JString providerId =>
     if has_schools provider && negb (truthy schoolId)
     then ret (reject 400 "MISSING_SCHOOL")
     else
     try_catch
       (let candidate := JObject [(js "identifier", identifier);
                                  (js "password", password);
                                  (js "schoolId", schoolId)] in
        emit (CallValidateCredentials providerId candidate) ;;;
        isValid <- lift (validateCredentials provider candidate) ;;
        if negb isValid then ret (reject 401 "INVALID_CREDENTIALS")
        else
          let credsJson :=
            JSON_stringify env (JObject [(js "identifier", identifier);
                                         (js "password", password)]) in
          payload <- encrypt env credsJson ;;
          normalized <- lift (normalizedSchoolId schoolId) ;;
          existingTimetable <-
            prisma_timetable_findFirst (user_id session) providerId normalized ;;
          match existingTimetable with
          | Some _ => ret (reject 400 "ALREADY_EXISTS")
          | None =>
              timetable <-
                prisma_timetable_create env (user_id session) providerId
                  normalized syncInterval payload ;;
              triggerImmediateSync (tt_id timetable) ;;;
              scheduleTimetableSync (tt_id timetable)
                (tt_syncInterval timetable) ;;;
              ret {| res_status := 202; res_error := None;
                     res_timetable := Some timetable |}
          end)
       (fun error =>
          console_error (js "[API Error] " ++ exn_message error) ;;;
          ret (reject 500 "INTERNAL_ERROR"))
     | _, _ => ret (reject 400 "UNKNOWN_PROVIDER")
     end) w
    = (Returned (reject 400 "ALREADY_EXISTS"), tick w,
       [CallValidateCredentials providerId (submitted_credentials body);
        CallEncrypt (drawn_iv env (ticks w));
        TimetableFindFirst (user_id session) providerId normalized])).
  { intros body ->. cbv zeta. rewrite Hp, Hi, Hpw. cbn [truthy].
    replace (truthy_string providerId) with true
      by (destruct providerId; [congruence|reflexivity]).
    cbn [negb orb getProviderOf]. rewrite Hg.
    replace (has_schools provider
             && negb (truthy (get_property (req_body req) (js "schoolId"))))
      with false
      by (destruct (has_schools provider); [now rewrite Hsch|reflexivity]).
    unfold submitted_credentials in Hval |- *.
    unfold try_catch. unfold bind at 1. unfold emit at 1. unfold bind at 1.
    unfold lift at 1. rewrite Hval. cbn [negb].
    unfold bind at 1. unfold encrypt at 1. unfold bind at 1.
    unfold crypto_randomBytes at 1. unfold bind at 1. unfold emit at 1.
    unfold lift at 1.
    unfold Vault.encrypt at 1, Vault.createCipheriv at 1. rewrite Hkey.
    cbn [List.length map seq Nat.eqb negb].
    unfold bind at 1. unfold lift at 1. rewrite Hn.
    unfold bind at 1. unfold prisma_timetable_findFirst at 1.
    cbn [timetables tick set_ticks]. rewrite Hf. reflexivity. }
  unfold post_timetables. rewrite Hs, Hv. cbn [negb].
  destruct (req_body req) eqn:Hbody; try discriminate Hp;
    cbv beta iota; exact (Hgoal _ eq_refl).
Qed.

(** C9.  Starting from stored timetables with at most one row per
    (user, provider, school) triple, every request to
    [POST /api/timetables] leaves at most one row per triple.  A request
    to create a timetable (it is authenticated with a verified e-mail,
    gives the required fields, names a registered provider and a school
    where the provider needs one, its credentials are accepted by the
    provider, and the key is one the cipher takes) for a triple (user of the session, provider, normalised
    school) that has a timetable is answered 400 [ALREADY_EXISTS]: no
    timetable and no credential record is stored, courses and the queue
    are left as they were, and no call writes to storage.  A timetable is
    created (202) only for a triple that had none, and a request that
    does not create one leaves timetables and credential records as they
    were. *)
Theorem post_timetables_one_per_triple :
  forall env req w,
    one_per_triple (timetables w) ->
    let r := post_timetables env req w in
    one_per_triple (timetables (world_of r)) /\
    (forall session providerId provider normalized,
        List.length (Vault.key_bytes (encryption_key env)) = 32%nat ->
        req_session req = Some session ->
        emailVerified session = true ->
        get_property (req_body req) (js "providerId") = JString providerId ->
        providerId <> [] ->
        truthy (get_property (req_body req) (js "identifier")) = true ->
        truthy (get_property (req_body req) (js "password")) = true ->
        getProvider env providerId = Some provider ->
        (has_schools provider = true ->
         truthy (get_property (req_body req) (js "schoolId")) = true) ->
        validateCredentials provider (submitted_credentials (req_body req))
          = Returned true ->
        normalizedSchoolId (get_property (req_body req) (js "schoolId"))
          = Returned normalized ->
        (exists t, In t (timetables w) /\
                   triple t = (user_id session, providerId, normalized)) ->
        outcome_of r = Returned (reject 400 "ALREADY_EXISTS") /\
        timetables (world_of r) = timetables w /\
        credentials (world_of r) = credentials w /\
        courses (world_of r) = courses w /\
        timetableQueue (world_of r) = timetableQueue w /\
        Forall (fun e => writes_storage e = false) (events_of r)) /\
    (forall res,
        outcome_of r = Returned res -> res_status res = 202 ->
        exists row creds,
          res_timetable res = Some row /\
          timetables (world_of r) = timetables w ++ [row] /\
          credentials (world_of r) = credentials w ++ [creds] /\
          cred_timetableId creds = tt_id row /\
          ~ In (triple row) (map triple (timetables w))) /\
    ((timetables (world_of r) = timetables w /\
      credentials (world_of r) = credentials w) \/
     outcome_of r <> Returned (reject 400 "ALREADY_EXISTS") /\
     exists row, timetables (world_of r) = timetables w ++ [row] /\
                 ~ In (triple row) (map triple (timetables w))).
Proof.
  intros env req w Hinv r. subst r.
  split; [|split].
  2:{ intros session providerId provider normalized
        Hkey Hs Hv Hp Hne Hi Hpw Hg Hsch Hval Hn Hex.
      apply find_triple_some in Hex. destruct Hex as [existing Hf].
      rewrite (post_timetables_existing_run env req w session providerId
                 provider normalized existing) by assumption.
      unfold outcome_of, world_of, events_of. cbn [fst snd].
      repeat (split; [reflexivity|]). repeat constructor. }
  all: destruct (post_timetables_run env req w)
    as [o w' evs [Rt [Rc Ro]] Hq F Ho
       |session p' s' existing w' before Hs Hp Hn Hf [Rt [Rc Ro]] Hq F
       |session p' s' w' before after Hs Hp Hn Hf [Rt [Rc Ro]] Hq F F'
       |session p' s' row creds w' before after Hs Hp Hn Hf Ht Hc Rt Rc Ro F F'];
    unfold outcome_of, world_of, events_of; cbn [fst snd].
  - now rewrite Rt.
  - now rewrite Rt.
  - now rewrite Rt.
  - unfold one_per_triple. rewrite Rt, map_app. cbn [map].
    apply NoDup_snoc; [exact Hinv|]. rewrite Ht. now apply find_triple_none.
  - split; [|now left].
    intros res E E2. destruct (Ho res E) as [_ N]. contradiction.
  - split; [|now left]. intros res E E2. injection E as <-. discriminate.
  - split; [|now left]. intros res E E2. injection E as <-. discriminate.
  - assert (Hnew : ~ In (triple row) (map triple (timetables w)))
      by (rewrite Ht; now apply find_triple_none).
    split.
    + intros res E _. injection E as <-. exists row, creds.
      repeat split; auto.
    + right. split; [discriminate|]. exists row. split; assumption.
Qed.

(** The handler never stores an empty school identifier: blank ones
    become null. *)
Lemma normalizedSchoolId_truthy v s :
  normalizedSchoolId v = Returned (Some s) -> truthy_string s = true.
Proof.
  unfold normalizedSchoolId. destruct (truthy v) eqn:T; [|discriminate].
  destruct v; try discriminate.
  destruct (truthy_string (js_trim s0)); [|discriminate].
  intros H. injection H as <-. exact T.
Qed.

Lemma demo_world_one_per_triple : one_per_triple (timetables Demo.demo_world).
Proof.
  unfold one_per_triple.
  repeat (constructor; [cbn; intuition discriminate|]). constructor.
Qed.

Lemma post_timetables_duplicate_witness :
  outcome_of (post_timetables Demo.demo_env DemoRequests.duplicate_request
                Demo.demo_world)
  = Returned (reject 400 "ALREADY_EXISTS")
  /\ timetables
       (world_of (post_timetables Demo.demo_env
                    DemoRequests.duplicate_request Demo.demo_world))
     = timetables Demo.demo_world
  /\ one_per_triple
       (timetables
          (world_of (post_timetables Demo.demo_env
                       DemoRequests.duplicate_request Demo.demo_world))).
Proof.
  destruct (post_timetables_one_per_triple Demo.demo_env
              DemoRequests.duplicate_request Demo.demo_world
              demo_world_one_per_triple) as [Hinv [Hdup _]].
  destruct (Hdup DemoRequests.alice (js "wigor") Demo.wigor (Some (js "esgi")))
    as [Ho [Ht _]]; try reflexivity.
  - discriminate.
  - exists (Demo.timetable_of "tt1" "wigor" (Some (js "esgi"))).
    split; [now left|reflexivity].
  - split; [exact Ho|]. split; [exact Ht|exact Hinv].
Defined.

(** A request whose credentials the provider refuses is answered 401
    [INVALID_CREDENTIALS] before the triple is looked up, whether a
    timetable exists for it or not. *)
Lemma post_timetables_refused_before_lookup :
  (exists t, In t (timetables Demo.demo_world)
             /\ triple t = (js "alice", js "down", None)) /\
  outcome_of (post_timetables Demo.demo_env DemoRequests.refused_request
                Demo.demo_world)
  = Returned (reject 401 "INVALID_CREDENTIALS") /\
  reject 401 "INVALID_CREDENTIALS" <> reject 400 "ALREADY_EXISTS".
Proof.
  split; [|split].
  - exists (Demo.timetable_of "tt3" "down" None).
    split; [cbn; auto|reflexivity].
  - vm_compute. reflexivity.
  - discriminate.
Qed.

(* ------------------------------------------------------------------ *)
(** * The credentials handed to the provider, on stored timetables      *)
(* ------------------------------------------------------------------ *)

(** [POST /api/timetables], the only writer of school identifiers, never
    stores the empty string. *)
Lemma post_timetables_no_empty_school env req w :
  no_empty_school (timetables w) ->
  no_empty_school (timetables (world_of (post_timetables env req w))).
Proof.
  intros Hinv.
  destruct (post_timetables_run env req w)
    as [o w' evs [Rt _] _ _ _
       |session p' s' existing w' before _ _ _ _ [Rt _] _ _
       |session p' s' w' before after _ _ _ _ [Rt _] _ _ _
       |session p' s' row creds w' before after _ _ Hn _ Ht _ Rt _ _ _ _];
    unfold world_of; cbn [fst snd]; rewrite Rt; try exact Hinv.
  apply Forall_app. split; [exact Hinv|]. constructor; [|constructor].
  unfold triple in Ht. injection Ht as _ _ Hschool. rewrite Hschool.
  intros E. rewrite E in Hn. apply normalizedSchoolId_truthy in Hn.
  discriminate.
Qed.

(** [performSync] touches no school identifier. *)
Lemma performSync_no_empty_school env id w :
  no_empty_school (timetables w) ->
  no_empty_school (timetables (world_of (performSync env id w))).
Proof.
  intros Hinv.
  destruct (performSync_run env id w); try clearbody window;
    unfold world_of; cbn [fst snd tick set_ticks synced_world timetables];
    try exact Hinv.
  unfold no_empty_school in *. rewrite Forall_forall in *.
  intros t' Hin. apply in_map_iff in Hin. destruct Hin as [t0 [<- Hin]].
  destruct (has_id id t0); cbn [set_lastSyncedAt tt_schoolId]; auto.
Qed.

(** C10.  On stored timetables none of which has the empty string for
    school identifier, in every run of [performSync] the credentials
    passed to [getSchedule] come from the JSON-decoded decrypted
    credential record: when the timetable's school identifier is not
    null, they are that object after its [schoolId] property was assigned
    the identifier (any stored value is overwritten, the other properties
    are kept); when it is null, they are the decoded object itself.
    Timetables stay that way: neither [POST /api/timetables], which
    writes a blank identifier as null, nor [performSync] stores an empty
    school identifier. *)
Theorem performSync_provider_credentials :
  forall env id w,
    no_empty_school (timetables w) ->
    (forall pid creds from to,
        In (CallGetSchedule pid creds from to)
           (events_of (performSync env id w)) ->
        exists t c decrypted parsed,
          stored_timetable id w = Some (t, Some c) /\
          decrypt env (cred_encryptedCredentials c) (cred_iv c)
          = Returned decrypted /\
          JSON_parse env decrypted = Returned parsed /\
          match tt_schoolId t with
          | Some s =>
              set_property parsed (js "schoolId") (JString s) = Returned creds /\
              get_property creds (js "schoolId") = JString s /\
              (forall k, k <> js "schoolId" ->
                         get_property creds k = get_property parsed k)
          | None => creds = parsed
          end) /\
    (forall req,
        no_empty_school (timetables (world_of (post_timetables env req w)))) /\
    no_empty_school (timetables (world_of (performSync env id w))).
Proof.
  intros env id w Hinv. split; [|split].
  - intros pid creds from to H.
    destruct (provider_call_credentials env id w pid creds from to H)
      as [t [c [decrypted [parsed [Hs [Hd [Hp Hm]]]]]]].
    exists t, c, decrypted, parsed.
    repeat (split; [assumption|]).
    destruct (stored_timetable_id _ _ _ _ Hs) as [_ [Hin _]].
    unfold no_empty_school in Hinv. rewrite Forall_forall in Hinv.
    specialize (Hinv t Hin). cbv beta in Hinv.
    destruct (tt_schoolId t) as [[|u s]|] eqn:E;
      [exfalso; apply Hinv; reflexivity|exact Hm|exact Hm].
  - intros req. now apply post_timetables_no_empty_school.
  - now apply performSync_no_empty_school.
Qed.

Lemma performSync_provider_credentials_witness :
  no_empty_school (timetables Demo.demo_world) /\
  In (CallGetSchedule (js "wigor")
        (JObject [(js "schoolId", JString (js "esgi"))])
        (JsDate.new_Date 2024 8 1) (JsDate.new_Date 2025 8 13))
     (events_of (performSync Demo.demo_env (js "tt1") Demo.demo_world)) /\
  exists parsed,
    JSON_parse Demo.demo_env (js "{}") = Returned parsed /\
    set_property parsed (js "schoolId") (JString (js "esgi"))
    = Returned (JObject [(js "schoolId", JString (js "esgi"))]).
Proof.
  assert (Hinv : no_empty_school (timetables Demo.demo_world))
    by (repeat constructor; discriminate).
  assert (Hcall :
    In (CallGetSchedule (js "wigor")
          (JObject [(js "schoolId", JString (js "esgi"))])
          (JsDate.new_Date 2024 8 1) (JsDate.new_Date 2025 8 13))
       (events_of (performSync Demo.demo_env (js "tt1") Demo.demo_world)))
    by (vm_compute; auto 10).
  split; [exact Hinv|]. split; [exact Hcall|].
  destruct (performSync_provider_credentials Demo.demo_env (js "tt1")
              Demo.demo_world Hinv) as [Hcreds _].
  destruct (Hcreds _ _ _ _ Hcall)
    as [t [c [decrypted [parsed [Hs [Hd [Hp Hset]]]]]]].
  assert (Ht : tt_schoolId t = Some (js "esgi"))
    by (vm_compute in Hs; now injection Hs as <- _).
  assert (Hdec : decrypted = js "{}")
    by (vm_compute in Hs; injection Hs as _ <-; vm_compute in Hd;
        now injection Hd).
  subst decrypted. rewrite Ht in Hset. exists parsed.
  split; [exact Hp|exact (proj1 Hset)].
Defined.

(* ------------------------------------------------------------------ *)
(** * Hex, [split] and UTF-8 round trips                                *)
(* ------------------------------------------------------------------ *)

Module EncodingFacts.
Import Encoding.

Lemma hex_value_digit n : 0 <= n < 16 -> hex_value (hex_digit n) = Some n.
Proof.
  intros H. unfold hex_digit, hex_value.
  destruct (Z.ltb_spec n 10).
  - replace ((48 <=? 48 + n) && (48 + n <=? 57)) with true
      by (symmetry; apply andb_true_iff; split; apply Z.leb_le; lia).
    f_equal. lia.
  - replace ((48 <=? 87 + n) && (87 + n <=? 57)) with false
      by (symmetry; apply andb_false_iff; right; apply Z.leb_gt; lia).
    replace ((97 <=? 87 + n) && (87 + n <=? 102)) with true
      by (symmetry; apply andb_true_iff; split; apply Z.leb_le; lia).
    f_equal. lia.
Qed.

Lemma hex_digit_not_colon n : 0 <= n < 16 -> hex_digit n <> 58.
Proof. unfold hex_digit. destruct (Z.ltb_spec n 10); lia. Qed.

(** [Buffer.from(buf.toString("hex"), "hex")] gives the buffer back. *)
Lemma hex_decode_encode bs :
  Forall is_byte bs -> hex_decode (hex_encode bs) = bs.
Proof.
  induction 1 as [|b bs Hb _ IH]; [reflexivity|].
  unfold is_byte in Hb. cbn [hex_encode flat_map app hex_decode].
  rewrite !hex_value_digit by (Z.div_mod_to_equations; lia).
  fold (hex_encode bs). rewrite IH. f_equal.
  Z.div_mod_to_equations; lia.
Qed.

Lemma hex_encode_no_colon bs :
  Forall is_byte bs -> Forall (fun c => c <> 58) (hex_encode bs).
Proof.
  induction 1 as [|b bs Hb _ IH]; [constructor|].
  unfold is_byte in Hb. cbn [hex_encode flat_map app].
  constructor; [apply hex_digit_not_colon; Z.div_mod_to_equations; lia|].
  constructor; [apply hex_digit_not_colon; Z.div_mod_to_equations; lia|].
  exact IH.
Qed.

Lemma hex_encode_length bs :
  List.length (hex_encode bs) = (2 * List.length bs)%nat.
Proof.
  induction bs as [|b bs IH]; [reflexivity|].
  cbn [hex_encode flat_map app List.length]. fold (hex_encode bs).
  rewrite IH. lia.
Qed.

Lemma split_no_separator sep s :
  Forall (fun c => c <> sep) s -> split sep s = [s].
Proof.
  induction 1 as [|c s Hc _ IH]; [reflexivity|].
  cbn [split]. apply Z.eqb_neq in Hc. now rewrite Hc, IH.
Qed.

(** The two pieces of [`${a}:${b}`] when neither holds the separator. *)
Lemma split_two sep a b :
  Forall (fun c => c <> sep) a -> Forall (fun c => c <> sep) b ->
  split sep (a ++ [sep] ++ b) = [a; b].
Proof.
  intros Ha Hb. induction Ha as [|c a Hc _ IH].
  - cbn. rewrite Z.eqb_refl. now rewrite split_no_separator.
  - cbn [app split] in *. apply Z.eqb_neq in Hc. now rewrite Hc, IH.
Qed.

(** Decides the comparisons met while a sequence is decoded. *)
Ltac decide_bounds :=
  repeat
    (match goal with
     | |- context [if ?c then _ else _] =>
         match c with
         | context [?a <=? ?b] => destruct (Z.leb_spec a b)
         | context [?a <? ?b] => destruct (Z.ltb_spec a b)
         | context [?a =? ?b] => destruct (Z.eqb_spec a b)
         end
     end;
     try (exfalso; Z.div_mod_to_equations; lia);
     cbn [andb]; cbv iota).

Ltac decode_step :=
  cbn [app utf8_decode_from utf8_step u_needed u_lower u_upper u_code_point
       utf8_initial];
  unfold utf8_lead; decide_bounds.

Lemma utf8_of_code_point_bytes cp :
  is_scalar cp -> Forall is_byte (utf8_of_code_point cp).
Proof.
  intros H. unfold is_scalar in H. unfold utf8_of_code_point, is_byte.
  decide_bounds; repeat constructor; Z.div_mod_to_equations; lia.
Qed.

(** Decoding the sequence of a scalar value gives its code units. *)
Lemma utf8_decode_code_point cp rest :
  is_scalar cp ->
  utf8_decode_from utf8_initial (utf8_of_code_point cp ++ rest)
  = utf16_of_code_point cp ++ utf8_decode_from utf8_initial rest.
Proof.
  intros H. unfold is_scalar in H. unfold utf8_of_code_point.
  destruct (Z.ltb_spec cp 128) as [H1|H1];
    [|destruct (Z.ltb_spec cp 2048) as [H2|H2];
      [|destruct (Z.ltb_spec cp 65536) as [H3|H3]]].
  - decode_step. unfold utf16_of_code_point. decide_bounds. reflexivity.
  - do 2 decode_step. unfold utf16_of_code_point. decide_bounds.
    cbn [app]. do 2 f_equal. Z.div_mod_to_equations; lia.
  - do 3 decode_step.
    all: unfold utf16_of_code_point; decide_bounds.
    all: cbn [app]; do 2 f_equal; Z.div_mod_to_equations; lia.
  - do 4 decode_step.
    all: unfold utf16_of_code_point; decide_bounds.
    all: cbn [app]; do 3 f_equal; Z.div_mod_to_equations; lia.
Qed.

Lemma surrogate_pair_scalar hi lo :
  is_high_surrogate hi = true -> is_low_surrogate lo = true ->
  let cp := 65536 + (hi - 55296) * 1024 + (lo - 56320) in
  is_scalar cp /\ utf16_of_code_point cp = [hi; lo].
Proof.
  unfold is_high_surrogate, is_low_surrogate, is_scalar, utf16_of_code_point.
  cbv zeta. rewrite !andb_true_iff, !Z.leb_le. intros [H1 H2] [L1 L2].
  split; [lia|].
  decide_bounds. f_equal; [|f_equal]; Z.div_mod_to_equations; lia.
Qed.

Lemma unit_scalar c :
  0 <= c < 65536 -> is_high_surrogate c = false ->
  is_low_surrogate c = false ->
  is_scalar c /\ utf16_of_code_point c = [c].
Proof.
  unfold is_high_surrogate, is_low_surrogate, is_scalar, utf16_of_code_point.
  rewrite !andb_false_iff, !Z.leb_gt. intros Hc Hh Hl.
  split; [lia|]. decide_bounds. reflexivity.
Qed.

(** What [utf8_encode] writes for a well-formed string, step by step. *)
Lemma utf8_encode_unit c s :
  is_high_surrogate c = false -> is_low_surrogate c = false ->
  utf8_encode (c :: s) = utf8_of_code_point c ++ utf8_encode s.
Proof. intros Hh Hl. cbn [utf8_encode]. now rewrite Hh, Hl. Qed.

Lemma utf8_encode_pair hi lo s :
  is_high_surrogate hi = true -> is_low_surrogate lo = true ->
  utf8_encode (hi :: lo :: s)
  = utf8_of_code_point (65536 + (hi - 55296) * 1024 + (lo - 56320))
    ++ utf8_encode s.
Proof. intros Hh Hl. cbn [utf8_encode]. now rewrite Hh, Hl. Qed.

(** [Buffer.from(s, "utf8").toString("utf8")] gives a well-formed string
    back. *)
Lemma utf8_decode_encode s :
  WellFormed s -> utf8_decode (utf8_encode s) = s.
Proof.
  unfold utf8_decode. induction 1 as [|c s Hc Hh Hl _ IH|hi lo s Hh Hl _ IH].
  - reflexivity.
  - destruct (unit_scalar c Hc Hh Hl) as [Hs Hu].
    rewrite utf8_encode_unit, utf8_decode_code_point, Hu, IH by assumption.
    reflexivity.
  - destruct (surrogate_pair_scalar hi lo Hh Hl) as [Hs Hu].
    rewrite utf8_encode_pair, utf8_decode_code_point, Hu, IH by assumption.
    reflexivity.
Qed.

Lemma utf8_encode_bytes s : WellFormed s -> Forall is_byte (utf8_encode s).
Proof.
  induction 1 as [|c s Hc Hh Hl _ IH|hi lo s Hh Hl _ IH].
  - constructor.
  - rewrite utf8_encode_unit by assumption. apply Forall_app. split; [|exact IH].
    apply utf8_of_code_point_bytes. now apply unit_scalar.
  - rewrite utf8_encode_pair by assumption. apply Forall_app. split; [|exact IH].
    apply utf8_of_code_point_bytes. now apply surrogate_pair_scalar.
Qed.

Lemma utf8_of_code_point_nonempty cp : utf8_of_code_point cp <> [].
Proof.
  unfold utf8_of_code_point.
  destruct (cp <? 128), (cp <? 2048), (cp <? 65536); discriminate.
Qed.

Lemma utf8_encode_nonempty s :
  WellFormed s -> s <> [] -> utf8_encode s <> [].
Proof.
  intros H Hne E. destruct H as [|c s Hc Hh Hl _|hi lo s Hh Hl _];
    [congruence| |].
  - rewrite utf8_encode_unit in E by assumption.
    apply app_eq_nil in E. now apply (utf8_of_code_point_nonempty c).
  - rewrite utf8_encode_pair in E by assumption.
    apply app_eq_nil in E. destruct E as [E _].
    now apply utf8_of_code_point_nonempty in E.
Qed.

End EncodingFacts.

(* ------------------------------------------------------------------ *)
(** * The vault: what [decrypt] accepts                                 *)
(* ------------------------------------------------------------------ *)

Module VaultFacts.
Import Encoding EncodingFacts Vault.

Lemma byte_of_is_byte z : is_byte (byte_of z).
Proof. unfold is_byte, byte_of. Z.div_mod_to_equations. lia. Qed.

Lemma lxor_is_byte a b : is_byte a -> is_byte b -> is_byte (Z.lxor a b).
Proof.
  unfold is_byte. intros Ha Hb.
  assert (H0 : 0 <= Z.lxor a b) by (apply Z.lxor_nonneg; lia).
  split; [exact H0|].
  destruct (Z.eq_dec (Z.lxor a b) 0) as [E|E]; [lia|].
  change 256 with (2 ^ 8). apply Z.log2_lt_pow2; [lia|].
  pose proof (Z.log2_lxor a b ltac:(lia) ltac:(lia)) as L.
  assert (La : Z.log2 a < 8).
  { destruct (Z.eq_dec a 0) as [->|]; [cbn; lia|].
    apply Z.log2_lt_pow2; [lia|]. change (2 ^ 8) with 256. lia. }
  assert (Lb : Z.log2 b < 8).
  { destruct (Z.eq_dec b 0) as [->|]; [cbn; lia|].
    apply Z.log2_lt_pow2; [lia|]. change (2 ^ 8) with 256. lia. }
  lia.
Qed.

Lemma lxor_cancel a k : Z.lxor (Z.lxor a k) k = a.
Proof. now rewrite Z.lxor_assoc, Z.lxor_nilpotent, Z.lxor_0_r. Qed.

(** Counter mode is its own inverse and keeps bytes bytes. *)
Lemma gctr_from_involutive ks data : forall i,
  gctr_from ks i (gctr_from ks i data) = data.
Proof.
  induction data as [|b data IH]; intros i; cbn [gctr_from]; [reflexivity|].
  now rewrite lxor_cancel, IH.
Qed.

Lemma gctr_from_bytes ks data : forall i,
  Forall is_byte data -> Forall is_byte (gctr_from ks i data).
Proof.
  induction data as [|b data IH]; intros i H; cbn [gctr_from];
    [constructor|].
  inversion H; subst. constructor; [|now apply IH].
  apply lxor_is_byte; [assumption|apply byte_of_is_byte].
Qed.

Lemma gctr_from_nonempty ks data i : data <> [] -> gctr_from ks i data <> [].
Proof. destruct data; [congruence|discriminate]. Qed.

Lemma gcm_tag_bytes crypto key ivb ct :
  Forall is_byte (gcm_tag crypto key ivb ct)
  /\ List.length (gcm_tag crypto key ivb ct) = 16%nat.
Proof.
  unfold gcm_tag. split.
  - apply Forall_forall. intros x Hx. apply in_map_iff in Hx.
    destruct Hx as [i [<- _]]. apply byte_of_is_byte.
  - now rewrite length_map, length_seq.
Qed.

Lemma bytes_eqb_eq a b : bytes_eqb a b = true <-> a = b.
Proof.
  revert b. induction a as [|x a IH]; intros [|y b]; cbn;
    try (split; [discriminate|congruence]); try tauto.
  rewrite andb_true_iff, Z.eqb_eq, IH. split.
  - intros [-> ->]. reflexivity.
  - intros H. injection H. auto.
Qed.

Lemma bytes_eqb_neq a b : a <> b -> bytes_eqb a b = false.
Proof.
  intros H. destruct (bytes_eqb a b) eqn:E; [|reflexivity].
  apply bytes_eqb_eq in E. contradiction.
Qed.

Lemma hex_encode_nonempty bs : bs <> [] -> hex_encode bs <> [].
Proof. destruct bs; [congruence|discriminate]. Qed.

Section Stored.
Variable crypto : NodeCrypto.
Variable key : jsstring.
Hypothesis key_32 : List.length (key_bytes key) = 32%nat.

(** [decrypt] on a stored value made of a ciphertext [ct], a full-length
    tag and an IV: the plaintext when the tag is the one of [ct], the
    authentication error otherwise. *)
Lemma decrypt_stored ivb ct tag :
  ivb <> [] -> Forall is_byte ivb ->
  ct <> [] -> Forall is_byte ct ->
  List.length tag = 16%nat -> Forall is_byte tag ->
  decrypt crypto key (hex_encode ct ++ js ":" ++ hex_encode tag)
          (hex_encode ivb)
  = if bytes_eqb tag (gcm_tag crypto key ivb ct)
    then Returned (utf8_decode (gctr crypto key ivb ct))
    else Threw authentication_error.
Proof.
  intros Hiv Hivb Hct Hctb Htag Htagb. unfold decrypt.
  change (js ":") with [58].
  rewrite split_two by (now apply hex_encode_no_colon).
  cbn [nth_error truthy_opt].
  assert (T1 : truthy_string (hex_encode ct) = true)
    by (destruct ct; [congruence|reflexivity]).
  assert (T2 : truthy_string (hex_encode tag) = true)
    by (destruct tag; [discriminate|reflexivity]).
  rewrite T1, T2. cbn [negb orb].
  rewrite !hex_decode_encode by assumption.
  unfold createCipheriv. rewrite key_32. cbn [Nat.eqb negb].
  replace (Nat.eqb (List.length ivb) 0) with false
    by (destruct ivb; [congruence|reflexivity]).
  rewrite Htag. cbn [valid_gcm_tag_length Nat.eqb Nat.leb orb andb negb].
  rewrite hex_encode_length, Nat.odd_even. cbv iota.
  replace (firstn 16 (gcm_tag crypto key ivb ct)) with (gcm_tag crypto key ivb ct).
  - reflexivity.
  - symmetry. apply firstn_all2. now rewrite (proj2 (gcm_tag_bytes _ _ _ _)).
Qed.

(** What [encrypt] returns. *)
Lemma encrypt_returns ivb text :
  ivb <> [] ->
  encrypt crypto key ivb text =
    Returned {| encryptedData :=
                  hex_encode (gctr crypto key ivb (utf8_encode text))
                  ++ js ":" ++
                  hex_encode (gcm_tag crypto key ivb
                                (gctr crypto key ivb (utf8_encode text)));
                iv := hex_encode ivb |}.
Proof.
  intros Hiv. unfold encrypt, createCipheriv. rewrite key_32.
  cbn [Nat.eqb negb].
  replace (Nat.eqb (List.length ivb) 0) with false
    by (destruct ivb; [congruence|reflexivity]).
  reflexivity.
Qed.

(** The round trip for a non-empty well-formed plaintext. *)
Lemma decrypt_encrypt ivb text :
  ivb <> [] -> Forall is_byte ivb -> WellFormed text -> text <> [] ->
  exists payload,
    encrypt crypto key ivb text = Returned payload /\
    decrypt crypto key (encryptedData payload) (iv payload) = Returned text.
Proof.
  intros Hiv Hivb Hwf Hne. eexists. split; [now apply encrypt_returns|].
  cbn [encryptedData iv].
  destruct (gcm_tag_bytes crypto key ivb
              (gctr crypto key ivb (utf8_encode text))) as [Tb Tl].
  rewrite decrypt_stored; auto.
  - rewrite (proj2 (bytes_eqb_eq _ _) eq_refl). unfold gctr.
    now rewrite gctr_from_involutive, utf8_decode_encode.
  - apply gctr_from_nonempty. now apply utf8_encode_nonempty.
  - apply gctr_from_bytes. now apply utf8_encode_bytes.
Qed.

End Stored.

Lemma flip_bit_length bs i k : List.length (flip_bit bs i k) = List.length bs.
Proof.
  unfold flip_bit. rewrite <- (firstn_skipn i bs) at 3.
  rewrite !length_app. destruct (skipn i bs); reflexivity.
Qed.

Lemma flip_bit_bytes bs i k :
  0 <= k < 8 -> Forall is_byte bs -> Forall is_byte (flip_bit bs i k).
Proof.
  intros Hk H. unfold flip_bit. rewrite <- (firstn_skipn i bs) in H.
  apply Forall_app in H. destruct H as [H1 H2].
  apply Forall_app. split; [exact H1|].
  destruct (skipn i bs) as [|b rest]; [constructor|].
  inversion H2; subst. constructor; [|assumption].
  apply lxor_is_byte; [assumption|]. unfold is_byte.
  assert (k = 0 \/ k = 1 \/ k = 2 \/ k = 3 \/ k = 4 \/ k = 5 \/ k = 6 \/ k = 7)
    as Hc by lia.
  repeat (destruct Hc as [Hc|Hc]; [subst; cbn; lia|]). subst; cbn; lia.
Qed.

Lemma flip_bit_changes bs i k :
  (i < List.length bs)%nat -> 0 <= k -> flip_bit bs i k <> bs.
Proof.
  intros Hi Hk E. unfold flip_bit in E.
  rewrite <- (firstn_skipn i bs) in E at 3. apply app_inv_head in E.
  destruct (skipn i bs) as [|b rest] eqn:S.
  - assert (L : List.length (skipn i bs) = 0%nat) by now rewrite S.
    rewrite length_skipn in L. lia.
  - injection E as E. apply (f_equal (fun x => Z.lxor b x)) in E.
    rewrite <- Z.lxor_assoc, Z.lxor_nilpotent, Z.lxor_0_l in E.
    assert (0 < 2 ^ k) by (apply Z.pow_pos_nonneg; lia). lia.
Qed.

End VaultFacts.

(* ------------------------------------------------------------------ *)
(** * Encryption round trip                                             *)
(* ------------------------------------------------------------------ *)

(** The empty plaintext does not survive the round trip, whatever the
    cipher: its ciphertext is empty, and [decrypt] takes an empty first
    piece for a malformed value. *)
Lemma decrypt_after_encrypt_empty crypto key ivb :
  List.length (Vault.key_bytes key) = 32%nat -> ivb <> [] ->
  decrypt_after_encrypt crypto key ivb []
  = Threw (Error (js "Invalid encrypted data format")).
Proof.
  intros Hk Hiv. unfold decrypt_after_encrypt.
  rewrite VaultFacts.encrypt_returns by assumption.
  cbn [encryptedData iv]. unfold Vault.decrypt.
  change (Encoding.utf8_encode []) with (@nil Z).
  change (Vault.gctr crypto key ivb []) with (@nil Z).
  cbn [Encoding.hex_encode flat_map app]. change (js ":") with [58].
  cbn [app Encoding.split Z.eqb Pos.eqb nth_error truthy_opt truthy_string
       negb orb].
  reflexivity.
Qed.

(** Whatever [decrypt] returns passed the tag check: it is the plaintext
    of a ciphertext whose tag is the one stored with it. *)
Lemma decrypt_returns_authentic crypto key data ivHex out :
  Vault.decrypt crypto key data ivHex = Returned out ->
  exists encryptedText authTagHex,
    nth_error (Encoding.split 58 data) 0 = Some encryptedText /\
    nth_error (Encoding.split 58 data) 1 = Some authTagHex /\
    let ivb := Encoding.hex_decode ivHex in
    let ct := Encoding.hex_decode encryptedText in
    let authTag := Encoding.hex_decode authTagHex in
    authTag = firstn (List.length authTag) (Vault.gcm_tag crypto key ivb ct) /\
    out = Encoding.utf8_decode (Vault.gctr crypto key ivb ct).
Proof.
  unfold Vault.decrypt.
  destruct (nth_error (Encoding.split 58 data) 0) as [encryptedText|];
    destruct (nth_error (Encoding.split 58 data) 1) as [authTagHex|];
    cbn [truthy_opt negb orb];
    try (destruct (truthy_string _); discriminate); try discriminate.
  destruct (negb (truthy_string encryptedText)
            || negb (truthy_string authTagHex)); [discriminate|].
  destruct (Vault.createCipheriv key _); [|discriminate].
  destruct (negb (Vault.valid_gcm_tag_length _)); [discriminate|].
  destruct (Nat.odd _); [discriminate|].
  destruct (Vault.bytes_eqb _ _) eqn:E; [|discriminate].
  intros H. injection H as <-. apply VaultFacts.bytes_eqb_eq in E.
  exists encryptedText, authTagHex. repeat split; auto.
Qed.

(** Under a key of 32 bytes, for every plaintext that is not empty and
    has no lone surrogate, [encrypt] returns a pair
    [(encryptedData, iv)] on which [decrypt] returns the plaintext.  The
    stored value is the hex ciphertext, a colon and the hex tag; when any
    bit of the tag bytes is flipped (and the tag written in hex again)
    [decrypt] throws the authentication error; and [decrypt] never
    returns anything but the plaintext of a ciphertext whose stored tag
    verifies. *)
Lemma encrypt_decrypt_roundtrip :
  forall env text w,
    List.length (Vault.key_bytes (encryption_key env)) = 32%nat ->
    Encoding.WellFormed text -> text <> [] ->
    exists payload ivb ct tag,
      encrypt env text w = (Returned payload, tick w, [CallEncrypt ivb]) /\
      decrypt env (encryptedData payload) (iv payload) = Returned text /\
      ct = Vault.gctr (crypto env) (encryption_key env) ivb
             (Encoding.utf8_encode text) /\
      tag = Vault.gcm_tag (crypto env) (encryption_key env) ivb ct /\
      encryptedData payload
        = Encoding.hex_encode ct ++ js ":" ++ Encoding.hex_encode tag /\
      iv payload = Encoding.hex_encode ivb /\
      ct <> [] /\ List.length tag = 16%nat /\
      (forall i k, (i < 16)%nat -> 0 <= k < 8 ->
         decrypt env
           (Encoding.hex_encode ct ++ js ":"
            ++ Encoding.hex_encode (Vault.flip_bit tag i k))
           (iv payload)
         = Threw Vault.authentication_error) /\
      (forall data ivHex out,
         decrypt env data ivHex = Returned out ->
         exists encryptedText authTagHex,
           nth_error (Encoding.split 58 data) 0 = Some encryptedText /\
           nth_error (Encoding.split 58 data) 1 = Some authTagHex /\
           Encoding.hex_decode authTagHex
           = firstn (List.length (Encoding.hex_decode authTagHex))
               (Vault.gcm_tag (crypto env) (encryption_key env)
                  (Encoding.hex_decode ivHex)
                  (Encoding.hex_decode encryptedText))).
Proof.
  intros env text w Hkey Hwf Hne.
  set (ivb := map (fun i => Vault.byte_of (entropy env (ticks w) i)) (seq 0 16)).
  assert (Hiv : ivb <> []) by discriminate.
  assert (Hivb : Forall Encoding.is_byte ivb).
  { apply Forall_forall. intros x Hx. apply in_map_iff in Hx.
    destruct Hx as [i [<- _]]. apply VaultFacts.byte_of_is_byte. }
  set (ct := Vault.gctr (crypto env) (encryption_key env) ivb
               (Encoding.utf8_encode text)).
  set (tag := Vault.gcm_tag (crypto env) (encryption_key env) ivb ct).
  assert (Hct : ct <> [])
    by (apply VaultFacts.gctr_from_nonempty;
        now apply EncodingFacts.utf8_encode_nonempty).
  assert (Hctb : Forall Encoding.is_byte ct)
    by (apply VaultFacts.gctr_from_bytes;
        now apply EncodingFacts.utf8_encode_bytes).
  destruct (VaultFacts.gcm_tag_bytes (crypto env) (encryption_key env) ivb ct)
    as [Htagb Htagl]. fold tag in Htagb, Htagl.
  exists {| encryptedData :=
              Encoding.hex_encode ct ++ js ":" ++ Encoding.hex_encode tag;
            iv := Encoding.hex_encode ivb |}, ivb, ct, tag.
  cbn [encryptedData iv].
  split.
  { unfold encrypt, bind, crypto_randomBytes, emit, lift. fold ivb.
    rewrite (VaultFacts.encrypt_returns _ _ Hkey ivb text Hiv).
    reflexivity. }
  split.
  { unfold decrypt.
    rewrite (VaultFacts.decrypt_stored _ _ Hkey) by assumption.
    fold tag. rewrite (proj2 (VaultFacts.bytes_eqb_eq _ _) eq_refl).
    unfold ct, Vault.gctr.
    now rewrite VaultFacts.gctr_from_involutive,
      EncodingFacts.utf8_decode_encode. }
  repeat (split; [reflexivity || assumption|]).
  split.
  - intros i k Hi Hk. unfold decrypt.
    rewrite (VaultFacts.decrypt_stored _ _ Hkey); auto.
    + fold tag. rewrite VaultFacts.bytes_eqb_neq; [reflexivity|].
      apply VaultFacts.flip_bit_changes; lia.
    + now rewrite VaultFacts.flip_bit_length.
    + now apply VaultFacts.flip_bit_bytes.
  - intros data ivHex out Hd. unfold decrypt in Hd.
    destruct (decrypt_returns_authentic _ _ _ _ _ Hd)
      as [encryptedText [authTagHex [H0 [H1 [H2 _]]]]].
    eauto.
Qed.

(** Hex text is not the bytes it stands for, and UTF-8 has no form for
    a lone surrogate: on the demonstration cipher, a lone surrogate comes
    back as U+FFFD, and flipping bit 5 of a letter digit of the stored
    value changes its case and nothing of what [decrypt] reads. *)
Lemma stored_text_is_read_as_hex :
  decrypt_after_encrypt Demo.demo_crypto Vault.dev_fallback_key Demo.demo_iv
    [55296] = Returned [65533]
  /\ encryptedData Demo.demo_payload
     = js "4b02:47739fcbf7234f7ba7d36692beea1642"
  /\ Vault.flip_bit (encryptedData Demo.demo_payload) 1 5
     = js "4B02:47739fcbf7234f7ba7d36692beea1642"
  /\ Vault.decrypt Demo.demo_crypto Vault.dev_fallback_key
       (Vault.flip_bit (encryptedData Demo.demo_payload) 1 5)
       (iv Demo.demo_payload) = Returned (js "{}").
Proof. repeat split; vm_compute; reflexivity. Qed.

(* ------------------------------------------------------------------ *)
(** * Two stored values [decrypt] mistakes                              *)
(* ------------------------------------------------------------------ *)

(** A digit of the hex form with bit 6 flipped is no hex digit, and no
    colon. *)
Lemma hex_digit_damaged n :
  0 <= n < 16 ->
  Encoding.hex_value (Z.lxor (Encoding.hex_digit n) (2 ^ 6)) = None /\
  Z.lxor (Encoding.hex_digit n) (2 ^ 6) <> 58.
Proof.
  intros H.
  set (damaged := fun m =>
         match Encoding.hex_value (Z.lxor (Encoding.hex_digit m) (2 ^ 6)) with
         | None => negb (Z.lxor (Encoding.hex_digit m) (2 ^ 6) =? 58)
         | Some _ => false
         end).
  assert (A : forallb damaged (map Z.of_nat (seq 0 16)) = true)
    by (vm_compute; reflexivity).
  rewrite forallb_forall in A.
  assert (Hn : damaged n = true).
  { apply A. apply in_map_iff. exists (Z.to_nat n).
    split; [lia|apply in_seq; lia]. }
  unfold damaged in Hn.
  destruct (Encoding.hex_value _); [discriminate|].
  split; [reflexivity|]. apply negb_true_iff in Hn. now apply Z.eqb_neq.
Qed.

(** [Buffer.from(s, "hex")] reads the digits of whole bytes and goes on
    with what follows them. *)
Lemma hex_decode_app bs s :
  Forall Encoding.is_byte bs ->
  Encoding.hex_decode (Encoding.hex_encode bs ++ s)
  = bs ++ Encoding.hex_decode s.
Proof.
  induction 1 as [|b bs Hb _ IH]; [reflexivity|].
  unfold Encoding.is_byte in Hb.
  cbn [Encoding.hex_encode flat_map app Encoding.hex_decode].
  rewrite !EncodingFacts.hex_value_digit by (Z.div_mod_to_equations; lia).
  fold (Encoding.hex_encode bs). rewrite IH. f_equal.
  Z.div_mod_to_equations; lia.
Qed.

Lemma flip_bit_last (l : list Z) c k :
  Vault.flip_bit (l ++ [c]) (List.length l) k = l ++ [Z.lxor c (2 ^ k)].
Proof.
  unfold Vault.flip_bit.
  induction l as [|a l IH]; cbn [List.length app firstn skipn];
    [reflexivity|].
  now rewrite IH.
Qed.

Lemma list_16_last (l : list Z) :
  List.length l = 16%nat -> l = firstn 15 l ++ [nth 15 l 0].
Proof.
  intros H.
  do 16 (destruct l as [|? l]; [discriminate H|]).
  destruct l; [reflexivity|discriminate H].
Qed.

Section Damaged.
Variable crypto : NodeCrypto.
Variable key : jsstring.
Hypothesis key_32 : List.length (Vault.key_bytes key) = 32%nat.

(** [decrypt] on a ciphertext stored with any text in the place of the
    tag: the text is read as hex, as far as it goes. *)
Lemma decrypt_stored_text ivb ct tagHex :
  ivb <> [] -> Forall Encoding.is_byte ivb ->
  ct <> [] -> Forall Encoding.is_byte ct ->
  tagHex <> [] -> Forall (fun c => c <> 58) tagHex ->
  Vault.decrypt crypto key (Encoding.hex_encode ct ++ js ":" ++ tagHex)
    (Encoding.hex_encode ivb)
  = let authTag := Encoding.hex_decode tagHex in
    if negb (Vault.valid_gcm_tag_length (List.length authTag)) then
      Threw (TypeError (js "Invalid authentication tag length"))
    else if Vault.bytes_eqb authTag
              (firstn (List.length authTag) (Vault.gcm_tag crypto key ivb ct))
    then Returned (Encoding.utf8_decode (Vault.gctr crypto key ivb ct))
    else Threw Vault.authentication_error.
Proof.
  intros Hiv Hivb Hct Hctb Htag Hcolon. unfold Vault.decrypt.
  change (js ":") with [58].
  rewrite EncodingFacts.split_two
    by (try assumption; now apply EncodingFacts.hex_encode_no_colon).
  cbn [nth_error truthy_opt].
  assert (T1 : truthy_string (Encoding.hex_encode ct) = true)
    by (destruct ct; [congruence|reflexivity]).
  assert (T2 : truthy_string tagHex = true)
    by (destruct tagHex; [congruence|reflexivity]).
  rewrite T1, T2. cbn [negb orb].
  rewrite !EncodingFacts.hex_decode_encode by assumption.
  unfold Vault.createCipheriv. rewrite key_32. cbn [Nat.eqb negb].
  replace (Nat.eqb (List.length ivb) 0) with false
    by (destruct ivb; [congruence|reflexivity]).
  cbv zeta.
  destruct (negb (Vault.valid_gcm_tag_length _)); [reflexivity|].
  rewrite EncodingFacts.hex_encode_length, Nat.odd_even. reflexivity.
Qed.

(** Flipping bit 6 of the last character of a stored value damages the
    last digit of its tag: the tag is read as its first 15 bytes, which
    are accepted, and [decrypt] returns the plaintext. *)
Lemma decrypt_damaged_tag ivb ct :
  ivb <> [] -> Forall Encoding.is_byte ivb ->
  ct <> [] -> Forall Encoding.is_byte ct ->
  let stored :=
    Encoding.hex_encode ct ++ js ":"
    ++ Encoding.hex_encode (Vault.gcm_tag crypto key ivb ct) in
  exists last,
    List.length stored = S last /\
    Vault.flip_bit stored last 6 <> stored /\
    Vault.decrypt crypto key (Vault.flip_bit stored last 6)
      (Encoding.hex_encode ivb)
    = Returned (Encoding.utf8_decode (Vault.gctr crypto key ivb ct)).
Proof.
  intros Hiv Hivb Hct Hctb stored.
  destruct (VaultFacts.gcm_tag_bytes crypto key ivb ct) as [Tb Tl].
  set (tag := Vault.gcm_tag crypto key ivb ct) in *.
  set (t15 := firstn 15 tag).
  set (b := nth 15 tag 0).
  assert (Etag : tag = t15 ++ [b]) by (now apply list_16_last).
  assert (Hb : Encoding.is_byte b).
  { rewrite Forall_forall in Tb. apply Tb. apply nth_In. lia. }
  assert (Ht15 : Forall Encoding.is_byte t15).
  { rewrite Etag in Tb. now apply Forall_app in Tb. }
  assert (L15 : List.length t15 = 15%nat)
    by (unfold t15; rewrite firstn_length_le; lia).
  set (hi := Encoding.hex_digit (b / 16)).
  set (lo := Encoding.hex_digit (b mod 16)).
  set (P := Encoding.hex_encode ct ++ js ":" ++ Encoding.hex_encode t15 ++ [hi]).
  assert (Es : stored = P ++ [lo]).
  { unfold stored, P. rewrite Etag. unfold Encoding.hex_encode.
    rewrite flat_map_app. cbn [flat_map app]. fold hi lo.
    rewrite <- !app_assoc. reflexivity. }
  unfold Encoding.is_byte in Hb.
  destruct (hex_digit_damaged (b mod 16)) as [Hnone Hncolon];
    [Z.div_mod_to_equations; lia|]. fold lo in Hnone, Hncolon.
  exists (List.length P). rewrite Es, flip_bit_last.
  split; [rewrite length_app; cbn; lia|]. split.
  { intros E. apply app_inv_head in E. injection E as E.
    apply (f_equal (fun x => Z.lxor lo x)) in E.
    rewrite <- Z.lxor_assoc, Z.lxor_nilpotent, Z.lxor_0_l in E.
    cbn in E. lia. }
  unfold P. rewrite <- !app_assoc. cbn [app].
  change (hi :: Z.lxor lo (2 ^ 6) :: nil) with ([hi; Z.lxor lo (2 ^ 6)]).
  rewrite decrypt_stored_text; try assumption.
  - cbv zeta. rewrite hex_decode_app by assumption.
    cbn [Encoding.hex_decode]. rewrite Hnone.
    destruct (Encoding.hex_value hi);
      rewrite app_nil_r, L15;
      cbn [Vault.valid_gcm_tag_length Nat.eqb Nat.leb orb andb negb];
      fold tag; fold t15;
      now rewrite (proj2 (VaultFacts.bytes_eqb_eq _ _) eq_refl).
  - destruct (Encoding.hex_encode t15); discriminate.
  - apply Forall_app. split; [now apply EncodingFacts.hex_encode_no_colon|].
    constructor; [apply EncodingFacts.hex_digit_not_colon;
                  Z.div_mod_to_equations; lia|].
    constructor; [exact Hncolon|constructor].
Qed.

End Damaged.

(** C2.  Under a key of 32 bytes [decrypt] mistakes two stored values.
    The empty plaintext: [encrypt] stores a colon and the tag, and
    [decrypt] takes the empty first piece for a missing one and throws
    Invalid encrypted data format instead of returning the plaintext.  A
    damaged tag: for every plaintext that is not empty and has no lone
    surrogate, flipping bit 6 of the last character of the stored value
    (the last digit of the tag) changes the value, and [decrypt] still
    returns the plaintext, the tag being read as 15 bytes, instead of
    throwing the authentication error. *)
Theorem decrypt_after_encrypt_defects :
  forall env text w,
    List.length (Vault.key_bytes (encryption_key env)) = 32%nat ->
    Encoding.WellFormed text -> text <> [] ->
    (exists payload ivb,
       encrypt env [] w = (Returned payload, tick w, [CallEncrypt ivb]) /\
       decrypt env (encryptedData payload) (iv payload)
       = Threw (Error (js "Invalid encrypted data format"))) /\
    (exists payload ivb last,
       encrypt env text w = (Returned payload, tick w, [CallEncrypt ivb]) /\
       List.length (encryptedData payload) = S last /\
       Vault.flip_bit (encryptedData payload) last 6 <> encryptedData payload /\
       decrypt env (Vault.flip_bit (encryptedData payload) last 6) (iv payload)
       = Returned text).
Proof.
  intros env text w Hkey Hwf Hne.
  set (ivb := map (fun i => Vault.byte_of (entropy env (ticks w) i)) (seq 0 16)).
  assert (Hiv : ivb <> []) by discriminate.
  assert (Hivb : Forall Encoding.is_byte ivb).
  { apply Forall_forall. intros x Hx. apply in_map_iff in Hx.
    destruct Hx as [i [<- _]]. apply VaultFacts.byte_of_is_byte. }
  assert (Henc : forall t,
            encrypt env t w =
              (Vault.encrypt (crypto env) (encryption_key env) ivb t,
               tick w, [CallEncrypt ivb])) by reflexivity.
  split.
  - pose proof (decrypt_after_encrypt_empty (crypto env) (encryption_key env)
                  ivb Hkey Hiv) as He.
    unfold decrypt_after_encrypt in He.
    rewrite (VaultFacts.encrypt_returns _ _ Hkey ivb [] Hiv) in He.
    eexists _, ivb. rewrite Henc.
    rewrite (VaultFacts.encrypt_returns _ _ Hkey ivb [] Hiv).
    split; [reflexivity|exact He].
  - set (ct := Vault.gctr (crypto env) (encryption_key env) ivb
                 (Encoding.utf8_encode text)).
    assert (Hct : ct <> [])
      by (apply VaultFacts.gctr_from_nonempty;
          now apply EncodingFacts.utf8_encode_nonempty).
    assert (Hctb : Forall Encoding.is_byte ct)
      by (apply VaultFacts.gctr_from_bytes;
          now apply EncodingFacts.utf8_encode_bytes).
    destruct (decrypt_damaged_tag (crypto env) (encryption_key env) Hkey
                ivb ct Hiv Hivb Hct Hctb) as [last [Hl [Hd Hr]]].
    eexists _, ivb, last. rewrite Henc.
    rewrite (VaultFacts.encrypt_returns _ _ Hkey ivb text Hiv).
    cbn [encryptedData iv]. fold ct.
    split; [reflexivity|]. split; [exact Hl|]. split; [exact Hd|].
    unfold decrypt. etransitivity; [exact Hr|]. unfold ct, Vault.gctr.
    now rewrite VaultFacts.gctr_from_involutive,
      EncodingFacts.utf8_decode_encode.
Qed.

Lemma decrypt_after_encrypt_defects_witness :
  (exists payload ivb,
     encrypt Demo.demo_env [] Demo.demo_world
     = (Returned payload, tick Demo.demo_world, [CallEncrypt ivb]) /\
     decrypt Demo.demo_env (encryptedData payload) (iv payload)
     = Threw (Error (js "Invalid encrypted data format"))) /\
  (exists payload ivb last,
     encrypt Demo.demo_env (js "{}") Demo.demo_world
     = (Returned payload, tick Demo.demo_world, [CallEncrypt ivb]) /\
     List.length (encryptedData payload) = S last /\
     Vault.flip_bit (encryptedData payload) last 6 <> encryptedData payload /\
     decrypt Demo.demo_env (Vault.flip_bit (encryptedData payload) last 6)
       (iv payload)
     = Returned (js "{}")).
Proof.
  apply (decrypt_after_encrypt_defects Demo.demo_env (js "{}") Demo.demo_world).
  - reflexivity.
  - change (js "{}") with [123; 125].
    apply Encoding.wf_unit; [lia|reflexivity|reflexivity|].
    apply Encoding.wf_unit; [lia|reflexivity|reflexivity|].
    apply Encoding.wf_empty.
  - discriminate.
Defined.

(** The key check counts characters, the cipher bytes: a key of 32
    characters outside ASCII passes start-up and makes every [encrypt]
    throw, and a key of 32 bytes in 16 such characters is refused at
    start-up. *)
Lemma module_init_counts_characters :
  Vault.module_init (Some (repeat 233 32)) = Returned (repeat 233 32)
  /\ List.length (Vault.key_bytes (repeat 233 32)) = 64%nat
  /\ Vault.encrypt Demo.demo_crypto (repeat 233 32) Demo.demo_iv (js "{}")
     = Threw (RangeError (js "Invalid key length"))
  /\ List.length (Vault.key_bytes (repeat 233 16)) = 32%nat
  /\ Vault.module_init (Some (repeat 233 16))
     = Threw (Error (js "ENCRYPTION_KEY must be exactly 32 characters long.")).
Proof. repeat split; vm_compute; reflexivity. Qed.

(* ------------------------------------------------------------------ *)
(** * The vault: what is stored, and what is read back *)
(* ------------------------------------------------------------------ *)

Module SplitFacts.
Import Encoding EncodingFacts.

Lemma split_first sep s :
  exists a tl, split sep s = a :: tl /\ Forall (fun c => c <> sep) a /\
    ((tl = [] /\ s = a) \/ (exists s', s = a ++ sep :: s' /\ tl = split sep s')).
Proof.
  induction s as [|c s IH].
  - exists [], []. cbn. repeat split; auto.
  - cbn [split]. destruct (Z.eqb_spec c sep) as [->|Hne].
    + exists [], (split sep s). repeat split; auto. right. exists s. auto.
    + destruct IH as [a [tl [E [Fa Hs]]]]. rewrite E.
      exists (c :: a), tl. split; [reflexivity|]. split; [now constructor|].
      destruct Hs as [[-> ->]|[s' [-> ->]]]; [now left|right].
      exists s'. auto.
Qed.

Lemma split_app sep a s :
  Forall (fun c => c <> sep) a ->
  split sep (a ++ sep :: s) = a :: split sep s.
Proof.
  induction 1 as [|c a Hc _ IH]; cbn [app split].
  - now rewrite Z.eqb_refl.
  - apply Z.eqb_neq in Hc. now rewrite Hc, IH.
Qed.

Lemma split_nonempty sep s : split sep s <> [].
Proof. destruct (split_first sep s) as [a [tl [E _]]]. congruence. Qed.

(** The first two pieces of [a:b] and of [a:b:...]. *)
Lemma split_first_two a b rest :
  Forall (fun c => c <> 58) a -> Forall (fun c => c <> 58) b ->
  (rest = [] \/ exists r, rest = 58 :: r) ->
  nth_error (split 58 (a ++ [58] ++ b ++ rest)) 0 = Some a /\
  nth_error (split 58 (a ++ [58] ++ b ++ rest)) 1 = Some b.
Proof.
  intros Ha Hb Hr. cbn [app]. rewrite split_app by assumption.
  cbn [nth_error]. split; [reflexivity|].
  destruct Hr as [->|[r ->]].
  - rewrite app_nil_r, split_no_separator by assumption. reflexivity.
  - rewrite split_app by assumption. reflexivity.
Qed.

End SplitFacts.

(** X1.  [decrypt] throws the error Invalid encrypted data format
    exactly when the stored value is not made of a non-empty piece, a
    colon and a second non-empty piece, followed by the end of the value
    or by another colon.  Neither the key, the IV nor the cipher take
    part in this. *)
Theorem decrypt_format_error_iff :
  forall (crypto : NodeCrypto) (key data ivHex : jsstring),
    Vault.decrypt crypto key data ivHex
      = Threw (Error (js "Invalid encrypted data format"))
    <-> ~ (exists a b, two_pieces data a b).
Proof.
  intros crypto key data ivHex. split.
  - intros H [a [b [Ha [Hb [Fa [Fb [rest [-> Hr]]]]]]]].
    destruct (SplitFacts.split_first_two a b rest Fa Fb Hr) as [E0 E1].
    unfold Vault.decrypt in H. cbv zeta in H. rewrite E0, E1 in H.
    cbn [truthy_opt] in H.
    assert (Ta : truthy_string a = true) by (destruct a; [congruence|reflexivity]).
    assert (Tb : truthy_string b = true) by (destruct b; [congruence|reflexivity]).
    rewrite Ta, Tb in H. cbn [negb orb] in H.
    destruct (Vault.createCipheriv key _) as [[]|e] eqn:C.
    2:{ unfold Vault.createCipheriv in C.
        destruct (Nat.eqb _ 0); [injection C as <-; discriminate|].
        destruct (negb _); [injection C as <-; discriminate|discriminate]. }
    destruct (negb (Vault.valid_gcm_tag_length _)); [discriminate|].
    destruct (Nat.odd _); [discriminate|].
    destruct (Vault.bytes_eqb _ _); [discriminate|].
    injection H as H. vm_compute in H. discriminate.
  - intros Hn. unfold Vault.decrypt. cbv zeta.
    destruct (SplitFacts.split_first 58 data) as [a [tl [E [Fa Hs]]]].
    rewrite E. cbn [nth_error truthy_opt].
    destruct a as [|c a].
    { cbn [truthy_string negb orb]. reflexivity. }
    cbn [truthy_string negb orb].
    destruct Hs as [[-> _]|[s' [Hd ->]]].
    { cbn [nth_error truthy_opt negb]. reflexivity. }
    destruct (SplitFacts.split_first 58 s') as [b [tl' [E' [Fb Hs']]]].
    rewrite E'. cbn [nth_error truthy_opt].
    destruct b as [|d b].
    { cbn [truthy_string negb]. reflexivity. }
    exfalso. apply Hn. exists (c :: a), (d :: b).
    split; [discriminate|]. split; [discriminate|].
    split; [exact Fa|]. split; [exact Fb|].
    destruct Hs' as [[_ ->]|[s'' [-> _]]].
    + exists []. rewrite app_nil_r. split; [exact Hd|now left].
    + exists (58 :: s''). split; [exact Hd|right; eauto].
Qed.

(** X2.  What follows a second colon in the stored value is never read:
    for pieces [a] and [b] without a colon, [decrypt] gives on a:b:rest
    what it gives on a:b, the same text or the same error. *)
Theorem decrypt_ignores_after_second_colon :
  forall (crypto : NodeCrypto) (key a b rest ivHex : jsstring),
    Forall (fun c => c <> 58) a -> Forall (fun c => c <> 58) b ->
    Vault.decrypt crypto key (a ++ js ":" ++ b ++ js ":" ++ rest) ivHex
    = Vault.decrypt crypto key (a ++ js ":" ++ b) ivHex.
Proof.
  intros crypto key a b rest ivHex Fa Fb. change (js ":") with [58].
  destruct (SplitFacts.split_first_two a b (58 :: rest) Fa Fb
              (or_intror (ex_intro _ rest eq_refl))) as [E0 E1].
  destruct (SplitFacts.split_first_two a b [] Fa Fb (or_introl eq_refl))
    as [F0 F1].
  rewrite app_nil_r in F0, F1.
  unfold Vault.decrypt. cbv zeta.
  change ([58] ++ rest) with (58 :: rest).
  rewrite E0, E1, F0, F1. reflexivity.
Qed.

Lemma decrypt_ignores_after_second_colon_witness :
  Vault.decrypt Demo.demo_crypto Vault.dev_fallback_key
    (js "4b02:47739fcbf7234f7ba7d36692beea1642:anything") (iv Demo.demo_payload)
  = Returned (js "{}").
Proof.
  rewrite (decrypt_ignores_after_second_colon Demo.demo_crypto
             Vault.dev_fallback_key (js "4b02")
             (js "47739fcbf7234f7ba7d36692beea1642") (js "anything")).
  - vm_compute. reflexivity.
  - repeat constructor; vm_compute; discriminate.
  - repeat constructor; vm_compute; discriminate.
Defined.

Module HexFacts.
Import Encoding EncodingFacts.

Lemma hex_digit_lower n : 0 <= n < 16 -> is_lower_hex (hex_digit n).
Proof.
  intros H. unfold hex_digit, is_lower_hex.
  destruct (Z.ltb_spec n 10); lia.
Qed.

Lemma hex_encode_lower bs :
  Forall is_byte bs -> Forall is_lower_hex (hex_encode bs).
Proof.
  induction 1 as [|b bs Hb _ IH]; [constructor|].
  unfold is_byte in Hb. cbn [hex_encode flat_map app].
  constructor; [apply hex_digit_lower; Z.div_mod_to_equations; lia|].
  constructor; [apply hex_digit_lower; Z.div_mod_to_equations; lia|].
  exact IH.
Qed.

Lemma replacement_is_bytes : Forall is_byte replacement_bytes.
Proof. repeat constructor; unfold is_byte; lia. Qed.

(** Every string of 16-bit code units is encoded into bytes, lone
    surrogates included. *)
Lemma utf8_encode_units_aux n : forall s,
  (List.length s <= n)%nat ->
  Forall (fun c => 0 <= c < 65536) s -> Forall is_byte (utf8_encode s).
Proof.
  induction n as [|n IH]; intros s Hn Hs.
  - destruct s; [constructor|cbn in Hn; lia].
  - destruct s as [|c rest]; [constructor|].
    inversion Hs as [|? ? Hc Hrest]; subst. cbn in Hn.
    cbn [utf8_encode].
    destruct (is_high_surrogate c) eqn:Hh.
    + destruct rest as [|c2 rest'].
      * apply replacement_is_bytes.
      * destruct (is_low_surrogate c2) eqn:Hl.
        -- apply Forall_app. split.
           ++ apply utf8_of_code_point_bytes.
              now apply surrogate_pair_scalar.
           ++ apply IH; [cbn in Hn; lia|]. now inversion Hrest.
        -- apply Forall_app. split; [apply replacement_is_bytes|].
           apply IH; [lia|assumption].
    + destruct (is_low_surrogate c) eqn:Hl.
      * apply Forall_app. split; [apply replacement_is_bytes|].
        apply IH; [lia|assumption].
      * apply Forall_app. split.
        -- apply utf8_of_code_point_bytes. now apply unit_scalar.
        -- apply IH; [lia|assumption].
Qed.

Lemma utf8_encode_units s :
  Forall (fun c => 0 <= c < 65536) s -> Forall is_byte (utf8_encode s).
Proof. apply (utf8_encode_units_aux (List.length s)). lia. Qed.

End HexFacts.

Lemma gctr_from_length ks data : forall i,
  List.length (Vault.gctr_from ks i data) = List.length data.
Proof.
  induction data as [|b data IH]; intros i; cbn [Vault.gctr_from List.length];
    [reflexivity|].
  now rewrite IH.
Qed.

Lemma randomBytes_bytes env n t :
  Forall Encoding.is_byte
    (map (fun i => Vault.byte_of (entropy env t i)) (seq 0 n)).
Proof.
  apply Forall_forall. intros x Hx. apply in_map_iff in Hx.
  destruct Hx as [i [<- _]]. apply VaultFacts.byte_of_is_byte.
Qed.

(** X3.  Under a key of 32 bytes [encrypt] returns, for every string of
    16-bit code units and with one read of the random source, a value
    made of lower-case hex digits and one colon: two digits for each
    byte of the UTF-8 form of the text, the colon, and the 32 digits of
    the authentication tag.  The IV is 32 lower-case hex digits. *)
Theorem encrypt_stored_format :
  forall (env : Env) (text : jsstring) (w : World),
    List.length (Vault.key_bytes (encryption_key env)) = 32%nat ->
    Forall (fun c => 0 <= c < 65536) text ->
    exists payload ivb c t,
      encrypt env text w = (Returned payload, tick w, [CallEncrypt ivb]) /\
      encryptedData payload = c ++ js ":" ++ t /\
      List.length c = (2 * List.length (Encoding.utf8_encode text))%nat /\
      List.length t = 32%nat /\
      List.length (iv payload) = 32%nat /\
      Forall is_lower_hex c /\ Forall is_lower_hex t /\
      Forall is_lower_hex (iv payload).
Proof.
  intros env text w Hkey Htext.
  set (ivb := map (fun i => Vault.byte_of (entropy env (ticks w) i)) (seq 0 16)).
  assert (Hiv : ivb <> []) by discriminate.
  assert (Hivb : Forall Encoding.is_byte ivb) by apply randomBytes_bytes.
  set (ct := Vault.gctr (crypto env) (encryption_key env) ivb
               (Encoding.utf8_encode text)).
  set (tag := Vault.gcm_tag (crypto env) (encryption_key env) ivb ct).
  destruct (VaultFacts.gcm_tag_bytes (crypto env) (encryption_key env) ivb ct)
    as [Htagb Htagl]. fold tag in Htagb, Htagl.
  assert (Hctb : Forall Encoding.is_byte ct)
    by (apply VaultFacts.gctr_from_bytes; now apply HexFacts.utf8_encode_units).
  assert (Hctl : List.length ct = List.length (Encoding.utf8_encode text)).
  { unfold ct, Vault.gctr. apply gctr_from_length. }
  exists {| encryptedData :=
              Encoding.hex_encode ct ++ js ":" ++ Encoding.hex_encode tag;
            iv := Encoding.hex_encode ivb |}, ivb,
         (Encoding.hex_encode ct), (Encoding.hex_encode tag).
  cbn [encryptedData iv].
  split.
  { unfold encrypt, bind, crypto_randomBytes, emit, lift. fold ivb.
    rewrite (VaultFacts.encrypt_returns _ _ Hkey ivb text Hiv).
    reflexivity. }
  split; [reflexivity|].
  rewrite !EncodingFacts.hex_encode_length, Hctl, Htagl.
  split; [reflexivity|]. split; [reflexivity|].
  split; [unfold ivb; now rewrite length_map, length_seq|].
  repeat split; now apply HexFacts.hex_encode_lower.
Qed.

Lemma encrypt_stored_format_witness :
  exists payload ivb c t,
    encrypt Demo.demo_env (js "{}") Demo.demo_world
      = (Returned payload, tick Demo.demo_world, [CallEncrypt ivb]) /\
    encryptedData payload = c ++ js ":" ++ t /\
    List.length c = 4%nat /\ List.length t = 32%nat.
Proof.
  destruct (encrypt_stored_format Demo.demo_env (js "{}") Demo.demo_world)
    as [payload [ivb [c [t [He [Hd [Hc [Ht _]]]]]]]].
  - reflexivity.
  - change (js "{}") with [123; 125].
    repeat (constructor; [lia|]). constructor.
  - exists payload, ivb, c, t. repeat split; assumption.
Defined.

Lemma module_init_returned env_key key :
  Vault.module_init env_key = Returned key -> js_length key = 32.
Proof.
  unfold Vault.module_init.
  destruct (Z.eqb_spec (js_length (Vault.ENCRYPTION_KEY env_key)) 32) as [E|E];
    cbn [negb]; [|discriminate].
  intros H. injection H as <-. exact E.
Qed.

(** X4.  A key of 32 characters whose UTF-8 form is not 32 bytes long
    passes the length check made when the module is loaded.  With such a
    key every [encrypt] throws Invalid key length, and [decrypt] never
    returns: on a stored value made of two pieces it throws Invalid
    initialization vector when the IV decodes to no byte at all and
    Invalid key length otherwise (and the format error on any other
    value). *)
Theorem key_of_32_characters_not_32_bytes :
  forall env : Env,
    js_length (encryption_key env) = 32 ->
    List.length (Vault.key_bytes (encryption_key env)) <> 32%nat ->
    Vault.module_init (Some (encryption_key env))
    = Returned (encryption_key env) /\
    (forall text w, exists ivb,
        encrypt env text w
        = (Threw (RangeError (js "Invalid key length")), tick w,
           [CallEncrypt ivb])) /\
    (forall data ivHex a b,
        two_pieces data a b ->
        decrypt env data ivHex
        = if Nat.eqb (List.length (Encoding.hex_decode ivHex)) 0
          then Threw (TypeError (js "Invalid initialization vector"))
          else Threw (RangeError (js "Invalid key length"))) /\
    (forall data ivHex out, decrypt env data ivHex <> Returned out).
Proof.
  intros env Hlen Hbytes.
  assert (Hc : forall ivb,
            Vault.createCipheriv (encryption_key env) ivb
            = if Nat.eqb (List.length ivb) 0
              then Threw (TypeError (js "Invalid initialization vector"))
              else Threw (RangeError (js "Invalid key length"))).
  { intros ivb. unfold Vault.createCipheriv.
    apply Nat.eqb_neq in Hbytes. now rewrite Hbytes. }
  split; [|split; [|split]].
  - unfold Vault.module_init, Vault.ENCRYPTION_KEY.
    destruct (encryption_key env) as [|c key]; [discriminate|].
    cbn [truthy_opt truthy_string]. rewrite Hlen. reflexivity.
  - intros text w. eexists.
    unfold encrypt, bind, crypto_randomBytes, emit, lift, Vault.encrypt.
    rewrite Hc. reflexivity.
  - intros data ivHex a b [Ha [Hb [Fa [Fb [rest [-> Hr]]]]]].
    destruct (SplitFacts.split_first_two a b rest Fa Fb Hr) as [E0 E1].
    unfold decrypt, Vault.decrypt. cbv zeta. rewrite E0, E1.
    cbn [truthy_opt].
    assert (Ta : truthy_string a = true) by (destruct a; [congruence|reflexivity]).
    assert (Tb : truthy_string b = true) by (destruct b; [congruence|reflexivity]).
    rewrite Ta, Tb. cbn [negb orb]. rewrite Hc.
    now destruct (Nat.eqb _ 0).
  - intros data ivHex out. unfold decrypt, Vault.decrypt. cbv zeta.
    destruct (negb _ || negb _); [discriminate|].
    destruct (nth_error _ 0); [|discriminate].
    destruct (nth_error _ 1); [|discriminate].
    rewrite Hc. now destruct (Nat.eqb _ 0).
Qed.

Lemma key_of_32_characters_not_32_bytes_witness :
  Vault.module_init (Some (repeat 233 32)) = Returned (repeat 233 32) /\
  (exists ivb,
     encrypt MoreDemo.accented_env (js "{}") Demo.demo_world
     = (Threw (RangeError (js "Invalid key length")), tick Demo.demo_world,
        [CallEncrypt ivb])) /\
  decrypt MoreDemo.accented_env (encryptedData Demo.demo_payload) []
  = Threw (TypeError (js "Invalid initialization vector")).
Proof.
  destruct (key_of_32_characters_not_32_bytes MoreDemo.accented_env)
    as [Hi [He [Hd _]]].
  - reflexivity.
  - vm_compute. discriminate.
  - split; [exact Hi|]. split; [apply He|].
    rewrite (Hd (encryptedData Demo.demo_payload) []
               (js "4b02") (js "47739fcbf7234f7ba7d36692beea1642")).
    + reflexivity.
    + split; [discriminate|]. split; [discriminate|].
      split; [repeat (constructor; [discriminate|]); constructor|].
      split; [repeat (constructor; [discriminate|]); constructor|].
      exists []. split; [vm_compute; reflexivity|now left].
Defined.

(** X5.  A key of ASCII characters that the module accepted when it was
    loaded is 32 bytes long, and [encrypt] then returns a payload for
    every text, reading the random source once. *)
Theorem accepted_ascii_key_encrypts :
  forall (env : Env) (env_key : option jsstring),
    Vault.module_init env_key = Returned (encryption_key env) ->
    Forall (fun c => 0 <= c < 128) (encryption_key env) ->
    List.length (Vault.key_bytes (encryption_key env)) = 32%nat /\
    forall text w, exists payload ivb,
      encrypt env text w = (Returned payload, tick w, [CallEncrypt ivb]).
Proof.
  intros env env_key Hinit Hascii.
  assert (Hkey : List.length (Vault.key_bytes (encryption_key env)) = 32%nat).
  { apply module_init_returned in Hinit. unfold Vault.key_bytes.
    rewrite utf8_encode_ascii by assumption. unfold js_length in Hinit. lia. }
  split; [exact Hkey|]. intros text w.
  eexists _, _. unfold encrypt, bind, crypto_randomBytes, emit, lift.
  rewrite (VaultFacts.encrypt_returns _ _ Hkey) by discriminate.
  reflexivity.
Qed.

Lemma accepted_ascii_key_encrypts_witness :
  exists payload ivb,
    encrypt Demo.demo_env (js "secret") Demo.demo_world
    = (Returned payload, tick Demo.demo_world, [CallEncrypt ivb]).
Proof.
  destruct (accepted_ascii_key_encrypts Demo.demo_env None) as [_ H].
  - reflexivity.
  - unfold Demo.demo_env, encryption_key, Vault.dev_fallback_key.
    vm_compute. repeat (constructor; [split; [discriminate|reflexivity]|]).
    constructor.
  - apply H.
Defined.

(* ------------------------------------------------------------------ *)
(** * The window of a run *)
(* ------------------------------------------------------------------ *)

Module WindowFacts.
Import JsDate JsDateFacts CivilFacts.

Lemma new_Date_value y m d :
  100 <= y -> 0 <= m <= 11 ->
  new_Date y m d = (DayFromYear y + month_start (leap y) m + d - 1) * msPerDay.
Proof.
  intros Hy Hm. unfold new_Date.
  replace ((0 <=? y) && (y <=? 99)) with false
    by (symmetry; apply andb_false_iff; right; apply Z.leb_gt; lia).
  unfold MakeDate, MakeTime, MakeDay, DayFromMonth.
  replace (m / 12) with 0 by (Z.div_mod_to_equations; lia).
  replace (m mod 12) with m by (Z.div_mod_to_equations; lia).
  replace (y + 0) with y by lia. lia.
Qed.

Lemma Day_bounds t : Day t * msPerDay <= t < (Day t + 1) * msPerDay.
Proof. unfold Day, msPerDay. Z.div_mod_to_equations. lia. Qed.

(** The months before September are the days before day 243 (244 in a
    leap year) of the year. *)
Lemma month_before_september t :
  MonthFromTime t < 8 <-> DayWithinYear t < 243 + InLeapYear t.
Proof.
  unfold MonthFromTime. cbv zeta.
  assert (Hl : InLeapYear t = 0 \/ InLeapYear t = 1).
  { unfold InLeapYear. destruct (leap_cases (YearFromTime t)) as [[L _]|[L _]]; auto. }
  generalize dependent (InLeapYear t). generalize (DayWithinYear t).
  intros d l Hl.
  repeat match goal with
         | |- context [?a <? ?b] => destruct (Z.ltb_spec a b)
         end; lia.
Qed.

Lemma DaysInYear_leap y : DaysInYear y = 365 + leap y.
Proof. destruct (leap_cases y) as [[L D]|[L D]]; lia. Qed.

End WindowFacts.

(** As local time values, the clock lies between the two ends of the
    window, which are 377 days apart, 378 when the year of the end is a
    leap year. *)
Lemma fetch_window_local_values :
  forall now : Z,
    1970 <= JsDate.getFullYear now <= 275000 ->
    fst (fetch_window now) <= now < snd (fetch_window now) /\
    snd (fetch_window now) - fst (fetch_window now)
    = (377 + JsDate.leap (startYear now + 1)) * JsDate.msPerDay.
Proof.
  intros now Hyear.
  assert (Hsy : startYear now = JsDate.getFullYear now - 1 /\ JsDate.getMonth now < 8
                \/ startYear now = JsDate.getFullYear now /\ 8 <= JsDate.getMonth now).
  { unfold startYear. cbv zeta.
    destruct (Z.ltb_spec (JsDate.getMonth now) 8); [left|right]; auto. }
  assert (Hge : 100 <= startYear now) by (destruct Hsy as [[E _]|[E _]]; lia).
  destruct (fetch_window_from_start_year now Hge) as [Hfrom [_ Hto]].
  rewrite Hfrom, Hto.
  rewrite !WindowFacts.new_Date_value by lia.
  change (JsDate.month_start (JsDate.leap (startYear now)) 8)
    with (243 + JsDate.leap (startYear now)).
  change (JsDate.month_start (JsDate.leap (startYear now + 1)) 7)
    with (212 + JsDate.leap (startYear now + 1)).
  pose proof (JsDateFacts.DayFromYear_succ (startYear now)) as Hsucc.
  rewrite WindowFacts.DaysInYear_leap in Hsucc.
  pose proof (WindowFacts.Day_bounds now) as Hday.
  pose proof (JsDateFacts.YearFromDay_spec (JsDate.Day now)) as Hspec.
  pose proof (WindowFacts.month_before_september now) as Hmonth.
  unfold JsDate.DayWithinYear, JsDate.InLeapYear in Hmonth.
  unfold JsDate.getFullYear, JsDate.getMonth in *.
  change (JsDate.YearFromDay (JsDate.Day now)) with (JsDate.YearFromTime now)
    in Hspec.
  unfold JsDate.msPerDay in *.
  destruct Hsy as [[Es Hm]|[Es Hm]].
  - assert (Ey : JsDate.YearFromTime now = startYear now + 1) by lia.
    rewrite Ey in Hspec, Hmonth.
    apply Hmonth in Hm. clear Hmonth Hfrom Hto.
    lia.
  - assert (Ey : JsDate.YearFromTime now = startYear now) by lia.
    rewrite Ey in Hspec, Hmonth.
    assert (Hd : ~ JsDate.Day now - JsDate.DayFromYear (startYear now)
                 < 243 + JsDate.leap (startYear now))
      by (intros X; apply Hmonth in X; lia).
    clear Hmonth Hfrom Hto.
    destruct (CivilFacts.leap_cases (startYear now + 1)) as [[L _]|[L _]]; lia.
Qed.

Lemma fetch_window_starts_at_midnight now :
  100 <= startYear now -> JsDate.TimeWithinDay (fst (fetch_window now)) = 0.
Proof.
  intros Hge. destruct (fetch_window_from_start_year now Hge) as [Hfrom _].
  rewrite Hfrom, WindowFacts.new_Date_value by lia.
  unfold JsDate.TimeWithinDay. apply Z.mod_mul. discriminate.
Qed.

(** X6.  When the clock shows a year from 1970 to 275000, the window
    [performSync] fetches starts at midnight, the calendar day of the run
    is on or after the day the window starts and before the day it ends
    (clock and window read as local dates), and the window spans 377
    calendar days, 378 when the year it ends in is a leap year. *)
Theorem fetch_window_contains_now :
  forall now : Z,
    1970 <= JsDate.getFullYear now <= 275000 ->
    JsDate.TimeWithinDay (fst (fetch_window now)) = 0 /\
    JsDate.Day (fst (fetch_window now)) <= JsDate.Day now
      < JsDate.Day (snd (fetch_window now)) /\
    JsDate.Day (snd (fetch_window now)) - JsDate.Day (fst (fetch_window now))
    = 377 + JsDate.leap (startYear now + 1).
Proof.
  intros now Hyear.
  destruct (fetch_window_local_values now Hyear) as [[H1 H2] H3].
  assert (Hge : 100 <= startYear now).
  { unfold startYear. cbv zeta. destruct (JsDate.getMonth now <? 8); lia. }
  pose proof (fetch_window_starts_at_midnight now Hge) as H0.
  split; [exact H0|].
  unfold JsDate.TimeWithinDay in H0. unfold JsDate.Day.
  generalize dependent (JsDate.leap (startYear now + 1)).
  generalize dependent (snd (fetch_window now)).
  generalize dependent (fst (fetch_window now)).
  clear. unfold JsDate.msPerDay. intros F H1 H0 T H2 l H3.
  Z.div_mod_to_equations. lia.
Qed.

Lemma fetch_window_contains_now_witness :
  JsDate.Day (fst (fetch_window (clock Demo.demo_env 0)))
  <= JsDate.Day (clock Demo.demo_env 0)
  < JsDate.Day (snd (fetch_window (clock Demo.demo_env 0)))
  /\ JsDate.Day (snd (fetch_window (clock Demo.demo_env 0)))
     - JsDate.Day (fst (fetch_window (clock Demo.demo_env 0))) = 377.
Proof.
  destruct (fetch_window_contains_now (clock Demo.demo_env 0)) as [_ [H1 H2]].
  - vm_compute. split; discriminate.
  - split; [exact H1|]. rewrite H2. reflexivity.
Defined.

(* ------------------------------------------------------------------ *)
(** * What a run of [performSync] touches *)
(* ------------------------------------------------------------------ *)

(** X7.  For a stored timetable with its credential record whose
    provider is not in the registry, [performSync] throws Provider <id>
    not found: the failure is logged and rethrown, the world is left as
    it was, and nothing is decrypted, fetched or written. *)
Theorem performSync_unknown_provider :
  forall env id w q t c,
    timetableQueue w = Some q ->
    stored_timetable id w = Some (t, Some c) ->
    getProvider env (tt_providerId t) = None ->
    let e := Error (js "Provider " ++ tt_providerId t ++ js " not found") in
    performSync env id w =
      (Threw e, w,
       [TimetableFindUnique id; ConsoleError (failure_message id e)]).
Proof.
  intros env id w q t c Hq Hs Hp e. subst e.
  destruct (performSync_run env id w) as [Hn|? ? Hm|q' t' c' Hq' Hs' Hp'
      |q' t' c' p' e' Hq' Hs' Hp'|q' t' c' p' creds e' Hq' Hs' Hp'
      |q' t' c' p' creds fetched rows n Hq' Hs' Hp'];
    try clearbody window.
  - congruence.
  - destruct Hm as [Hm|[t0 Hm]]; congruence.
  - assert (t' = t) by congruence. subst t'. subst e. reflexivity.
  - assert (t' = t) by congruence. subst t'. congruence.
  - assert (t' = t) by congruence. subst t'. congruence.
  - assert (t' = t) by congruence. subst t'. congruence.
Qed.

Lemma performSync_unknown_provider_witness :
  outcome_of (performSync MoreDemo.trimmed_env (js "tt1") Demo.demo_world)
  = Threw (Error (js "Provider wigor not found"))
  /\ world_of (performSync MoreDemo.trimmed_env (js "tt1") Demo.demo_world)
     = Demo.demo_world.
Proof.
  rewrite (performSync_unknown_provider MoreDemo.trimmed_env (js "tt1")
             Demo.demo_world Demo.demo_queue
             (Demo.timetable_of "tt1" "wigor" (Some (js "esgi")))
             (Demo.credentials_of "tt1") eq_refl eq_refl eq_refl).
  split; reflexivity.
Defined.

(** X8.  When the stored credentials cannot be decrypted, when the
    decrypted text is not JSON, or when the school identifier cannot be
    set on the decoded value, [performSync] logs that error and rethrows
    it; the world is left as it was and the provider is never called. *)
Theorem performSync_unreadable_credentials :
  forall env id w q t c p e,
    timetableQueue w = Some q ->
    stored_timetable id w = Some (t, Some c) ->
    getProvider env (tt_providerId t) = Some p ->
    (decrypt env (cred_encryptedCredentials c) (cred_iv c) = Threw e \/
     (exists text,
        decrypt env (cred_encryptedCredentials c) (cred_iv c) = Returned text /\
        JSON_parse env text = Threw e) \/
     (exists text parsed s,
        decrypt env (cred_encryptedCredentials c) (cred_iv c) = Returned text /\
        JSON_parse env text = Returned parsed /\
        tt_schoolId t = Some s /\ s <> [] /\
        set_property parsed (js "schoolId") (JString s) = Threw e)) ->
    performSync env id w =
      (Threw e, w,
       [TimetableFindUnique id;
        CallDecrypt (cred_encryptedCredentials c) (cred_iv c);
        ConsoleError (failure_message id e)]).
Proof.
  intros env id w q t c p e Hq Hs Hp Hbad.
  assert (Hc : provider_credentials env t c = Threw e).
  { unfold provider_credentials.
    destruct Hbad as [->|[[text [-> ->]]|[text [parsed [s [-> [-> [Hs' [Hne He]]]]]]]]];
      [reflexivity|reflexivity|].
    rewrite Hs'. destruct s; [congruence|]. exact He. }
  destruct (performSync_run env id w) as [Hn|? ? Hm|q' t' c' Hq' Hs' Hp'
      |q' t' c' p' e' Hq' Hs' Hp' Hc'|q' t' c' p' creds e' Hq' Hs' Hp' Hc'
      |q' t' c' p' creds fetched rows n Hq' Hs' Hp' Hc'];
    try clearbody window; try clearbody e0.
  - congruence.
  - destruct Hm as [Hm|[t0 Hm]]; congruence.
  - assert (t' = t) by congruence. subst t'. congruence.
  - assert (t' = t /\ c' = c) as [-> ->] by (split; congruence).
    assert (e' = e) by congruence. subst e'. reflexivity.
  - assert (t' = t /\ c' = c) as [-> ->] by (split; congruence). congruence.
  - assert (t' = t /\ c' = c) as [-> ->] by (split; congruence). congruence.
Qed.

Lemma performSync_unreadable_credentials_witness :
  performSync Demo.demo_env (js "tt1") MoreDemo.garbled_world =
    (Threw (Error (js "Invalid encrypted data format")),
     MoreDemo.garbled_world,
     [TimetableFindUnique (js "tt1");
      CallDecrypt (js "4b02") (iv Demo.demo_payload);
      ConsoleError
        (failure_message (js "tt1")
           (Error (js "Invalid encrypted data format")))]).
Proof.
  apply (performSync_unreadable_credentials Demo.demo_env (js "tt1")
           MoreDemo.garbled_world Demo.demo_queue
           (Demo.timetable_of "tt1" "wigor" (Some (js "esgi")))
           {| cred_timetableId := js "tt1";
              cred_encryptedCredentials := js "4b02";
              cred_iv := iv Demo.demo_payload |} Demo.wigor);
    try reflexivity.
  left. reflexivity.
Defined.

Lemma stored_as_timetable id fetched rows :
  Forall2 (stored_as id) fetched rows ->
  Forall (fun r => course_timetableId r = id) rows.
Proof.
  induction 1 as [|c r fetched rows [H _] _ IH]; constructor; auto.
Qed.

Lemma filter_none {A} (f : A -> bool) l :
  Forall (fun x => f x = false) l -> filter f l = [].
Proof.
  induction 1 as [|x l Hx _ IH]; cbn; [reflexivity|]. now rewrite Hx.
Qed.

Lemma filter_others_kept id from cs :
  filter (fun c => negb (of_timetable id c)) (kept_courses id from cs)
  = filter (fun c => negb (of_timetable id c)) cs.
Proof.
  unfold kept_courses. rewrite filter_filter. apply filter_ext. intros c.
  unfold in_delete_range, of_timetable.
  destruct (jsstring_eqb (course_timetableId c) id); cbn;
    [now rewrite andb_false_r|reflexivity].
Qed.

Lemma filter_others_rows id rows :
  Forall (fun r => course_timetableId r = id) rows ->
  filter (fun c => negb (of_timetable id c)) rows = [].
Proof.
  intros H. apply filter_none. revert H. apply Forall_impl. intros r Hr.
  unfold of_timetable. now rewrite Hr, jsstring_eqb_refl.
Qed.

Lemma Forall2_same {A} (R : A -> A -> Prop) l :
  (forall x, R x x) -> Forall2 R l l.
Proof. intros H. induction l; constructor; auto. Qed.

(** X9.  Whatever its outcome, [performSync] of a timetable leaves every
    credential record as it was, changes no timetable row except by
    setting [lastSyncedAt] on rows of that timetable, leaves the courses
    of the other timetables as they were, keeps the waiting jobs, and
    removes from the repeatable registrations at most those of that
    timetable; it never creates a queue. *)
Theorem performSync_frame :
  forall env id w,
    credentials (world_of (performSync env id w)) = credentials w /\
    Forall2 (fun t t' =>
               t' = t \/
               tt_id t = id /\ exists synced, t' = set_lastSyncedAt t synced)
            (timetables w) (timetables (world_of (performSync env id w))) /\
    filter (fun c => negb (of_timetable id c))
           (courses (world_of (performSync env id w)))
    = filter (fun c => negb (of_timetable id c)) (courses w) /\
    match timetableQueue w with
    | None => timetableQueue (world_of (performSync env id w)) = None
    | Some q =>
        exists q',
          timetableQueue (world_of (performSync env id w)) = Some q' /\
          waiting q' = waiting q /\
          (repeatable q' = repeatable q \/
           repeatable q'
           = filter (fun j => negb (registered_for id j)) (repeatable q))
    end.
Proof.
  intros env id w.
  assert (Hsame : Forall2 (fun t t' =>
               t' = t \/
               tt_id t = id /\ exists synced, t' = set_lastSyncedAt t synced)
            (timetables w) (timetables w))
    by (apply Forall2_same; auto).
  destruct (performSync_run env id w) as [Hn|q Hq Hm|q t c Hq Hs Hp
      |q t c p e Hq Hs Hp Hc|q t c p creds e Hq Hs Hp Hc
      |q t c p creds fetched rows n Hq Hs Hp Hc];
    try clearbody window; unfold world_of; cbn [fst snd].
  - rewrite Hn. repeat split; auto.
  - rewrite Hq. cbn [set_queue credentials timetables courses timetableQueue].
    repeat split; auto. eexists. split; [reflexivity|]. cbn. auto.
  - rewrite Hq. repeat split; auto. exists q. auto.
  - rewrite Hq. repeat split; auto. exists q. auto.
  - rewrite Hq. cbn [tick set_ticks credentials timetables courses timetableQueue].
    repeat split; auto. exists q. auto.
  - rewrite Hq. unfold synced_world.
    cbn [credentials timetables courses timetableQueue].
    split; [reflexivity|]. split; [|split].
    + clear. induction (timetables w) as [|t0 ts IH]; cbn [map]; constructor; auto.
      destruct (has_id id t0) eqn:E; [right|now left].
      split; [now apply jsstring_eqb_eq|eauto].
    + rewrite filter_app. fold (kept_courses id (fst window) (courses w)).
      match goal with
      | H : Forall2 (stored_as id) fetched rows |- _ =>
          rewrite filter_others_kept,
            (filter_others_rows id rows (stored_as_timetable _ _ _ H)),
            app_nil_r
      end. reflexivity.
    + exists q. auto.
Qed.

(** A run in which the provider answered is a completed sync. *)
Lemma performSync_synced_inv env id w fetched :
  In (GetScheduleReturned fetched) (events_of (performSync env id w)) ->
  exists rows synced n,
    Forall2 (stored_as id) fetched rows /\
    world_of (performSync env id w)
    = synced_world w id (fst (fetch_window (clock env (ticks w)))) rows synced n /\
    outcome_of (performSync env id w)
    = Returned {| success := true; message := None;
                  coursesCount := Some (Z.of_nat (List.length fetched)) |}.
Proof.
  intros H.
  destruct (performSync_run env id w); unfold events_of, world_of, outcome_of in *;
    cbn [fst snd] in *;
    try (assert (Hwin : window = fetch_window (clock env (ticks w)))
           by reflexivity; clearbody window);
    which_event H.
  all: injection H as <-; exists rows, (clock env n), (S n);
    rewrite <- Hwin; repeat split; auto.
Qed.

Lemma kept_courses_app id from a b :
  kept_courses id from (a ++ b) = kept_courses id from a ++ kept_courses id from b.
Proof. unfold kept_courses. apply filter_app. Qed.

Lemma kept_courses_idem id from cs :
  kept_courses id from (kept_courses id from cs) = kept_courses id from cs.
Proof.
  unfold kept_courses. rewrite filter_filter. apply filter_ext. intros c.
  now destruct (in_delete_range id from c).
Qed.

Lemma kept_courses_rows id from rows :
  Forall (fun r => course_timetableId r = id) rows ->
  kept_courses id from rows = filter (fun c => course_start c <? from) rows.
Proof.
  intros H. unfold kept_courses. apply filter_ext_in. intros r Hr.
  rewrite Forall_forall in H. unfold in_delete_range.
  rewrite (H r Hr), jsstring_eqb_refl. cbn [andb].
  destruct (Z.leb_spec from (course_start r)), (Z.ltb_spec (course_start r) from);
    cbn; auto; lia.
Qed.


(** X10.  For two completed runs of [performSync] of one timetable whose
    windows start at the same moment, the courses stored after the
    second run are those the first run kept, then the rows of the first
    fetch that start before the window, then the rows of the second
    fetch.  When every event of the first fetch starts inside the
    window, nothing of the first fetch remains. *)
Theorem performSync_replaces_previous_sync :
  forall env id w f1 f2,
    completed (outcome_of (performSync env id w)) ->
    completed (outcome_of (performSync env id (world_of (performSync env id w)))) ->
    In (GetScheduleReturned f1) (events_of (performSync env id w)) ->
    In (GetScheduleReturned f2)
       (events_of (performSync env id (world_of (performSync env id w)))) ->
    fst (fetch_window (clock env (ticks (world_of (performSync env id w)))))
    = fst (fetch_window (clock env (ticks w))) ->
    exists rows1 rows2,
      Forall2 (stored_as id) f1 rows1 /\
      Forall2 (stored_as id) f2 rows2 /\
      courses (world_of (performSync env id (world_of (performSync env id w))))
      = kept_courses id (fst (fetch_window (clock env (ticks w)))) (courses w)
        ++ filter (fun c => course_start c
                            <? fst (fetch_window (clock env (ticks w)))) rows1
        ++ rows2 /\
      (Forall (fun c => fst (fetch_window (clock env (ticks w))) <= fc_start c) f1 ->
       courses (world_of (performSync env id (world_of (performSync env id w))))
       = kept_courses id (fst (fetch_window (clock env (ticks w)))) (courses w)
         ++ rows2).
Proof.
  intros env id w f1 f2 _ _ H1 H2 Hfrom.
  destruct (performSync_synced_inv env id w f1 H1)
    as [rows1 [s1 [n1 [F1 [W1 _]]]]].
  rewrite W1 in H2, Hfrom |- *.
  destruct (performSync_synced_inv env id _ f2 H2)
    as [rows2 [s2 [n2 [F2 [W2 _]]]]].
  rewrite W2. rewrite Hfrom.
  set (from := fst (fetch_window (clock env (ticks w)))).
  exists rows1, rows2. split; [exact F1|]. split; [exact F2|].
  assert (E : courses (synced_world (synced_world w id from rows1 s1 n1) id from
                         rows2 s2 n2)
              = kept_courses id from (courses w)
                ++ filter (fun c => course_start c <? from) rows1 ++ rows2).
  { unfold synced_world. cbn [courses].
    fold (kept_courses id from (courses w)).
    fold (kept_courses id from (kept_courses id from (courses w) ++ rows1)).
    rewrite kept_courses_app, kept_courses_idem, <- app_assoc.
    rewrite (kept_courses_rows id from rows1 (stored_as_timetable _ _ _ F1)).
    reflexivity. }
  split; [exact E|].
  intros Hge. rewrite E. f_equal.
  replace (filter (fun c => course_start c <? from) rows1) with (@nil Course);
    [reflexivity|].
  symmetry. apply filter_none. clear E W1 W2 H1 H2.
  induction F1 as [|c r f1 rows1 Hcr _ IH]; [constructor|].
  inversion Hge as [|? ? Hc Hrest]; subst.
  constructor; [|now apply IH].
  destruct Hcr as [_ [_ [Hstart _]]]. rewrite Hstart.
  apply Z.ltb_ge. exact Hc.
Qed.

Lemma performSync_replaces_previous_sync_witness :
  exists rows2,
    Forall2 (stored_as (js "tt1")) [Demo.lecture; Demo.seminar] rows2 /\
    courses
      (world_of
         (performSync Demo.demo_env (js "tt1")
            (world_of (performSync Demo.demo_env (js "tt1") Demo.demo_world))))
    = kept_courses (js "tt1") (fst (fetch_window (clock Demo.demo_env 0)))
        (courses Demo.demo_world) ++ rows2.
Proof.
  destruct (performSync_replaces_previous_sync Demo.demo_env (js "tt1")
              Demo.demo_world [Demo.lecture; Demo.seminar]
              [Demo.lecture; Demo.seminar])
    as [rows1 [rows2 [_ [F2 [_ H]]]]].
  - vm_compute. eexists. reflexivity.
  - vm_compute. eexists. reflexivity.
  - vm_compute. auto 10.
  - vm_compute. auto 10.
  - vm_compute. reflexivity.
  - exists rows2. split; [exact F2|]. apply H.
    repeat constructor; vm_compute; discriminate.
Defined.

(* ------------------------------------------------------------------ *)
(** * Registrations of the other timetables *)
(* ------------------------------------------------------------------ *)

Lemma sync_job_id_inj a b : sync_job_id a = sync_job_id b -> a = b.
Proof. unfold sync_job_id. apply app_inv_head. Qed.

(** A registration carries the id of one timetable only. *)
Lemma registered_for_inj a b j :
  registered_for a j = true -> registered_for b j = true -> a = b.
Proof.
  unfold registered_for. rewrite !opt_jsstring_eqb_eq. intros Ha Hb.
  apply sync_job_id_inj. congruence.
Qed.

(** X11.  [scheduleTimetableSync] and [performSync] of one timetable
    leave the repeatable registrations of every other timetable as they
    were. *)
Theorem registrations_of_other_timetables_kept :
  forall env id other intervalMinutes w,
    other <> id ->
    filter (registered_for other)
      (registrations (world_of (scheduleTimetableSync id intervalMinutes w)))
    = filter (registered_for other) (registrations w) /\
    filter (registered_for other)
      (registrations (world_of (performSync env id w)))
    = filter (registered_for other) (registrations w).
Proof.
  intros env id other m w Hne. split.
  - destruct (timetableQueue w) as [q|] eqn:Hq.
    + rewrite (scheduleTimetableSync_run _ _ _ _ Hq).
      unfold world_of, registrations.
      cbn [fst snd timetableQueue set_queue repeatable]. rewrite Hq.
      unfold with_registration.
      destruct (existsb _ (repeatable q)); [reflexivity|].
      rewrite filter_app_single.
      destruct (registered_for other (sync_registration id m)) eqn:E;
        [|now rewrite app_nil_r].
      exfalso. apply Hne.
      eapply registered_for_inj; [exact E|].
      apply registered_for_sync_registration.
    + now rewrite (scheduleTimetableSync_disabled _ _ _ Hq).
  - destruct (performSync_run env id w) as [Hn|q Hq Hm| | | |];
      try clearbody window; unfold world_of, registrations;
      cbn [fst snd tick set_ticks synced_world set_queue timetableQueue repeatable];
      reflexivity.
Qed.

Lemma registrations_of_other_timetables_kept_witness :
  let registration :=
    {| rj_name := js "sync"; rj_id := Some (js "sync-tt2");
       rj_every := 3600000 |} in
  filter (registered_for (js "tt2")) (registrations Demo.demo_world)
  = [registration] /\
  filter (registered_for (js "tt2"))
    (registrations
       (world_of (scheduleTimetableSync (js "tt1") 30 Demo.demo_world)))
  = [registration] /\
  filter (registered_for (js "tt2"))
    (registrations
       (world_of (performSync Demo.demo_env (js "tt1") Demo.demo_world)))
  = [registration].
Proof.
  cbv zeta.
  destruct (registrations_of_other_timetables_kept Demo.demo_env (js "tt1")
              (js "tt2") 30 Demo.demo_world) as [H1 H2].
  - vm_compute. discriminate.
  - rewrite H1, H2. repeat split; reflexivity.
Defined.

(* ------------------------------------------------------------------ *)
(** * What [POST /api/timetables] leaves behind *)
(* ------------------------------------------------------------------ *)

Ltac not_created Ho Hst :=
  unfold ret, throw, outcome_of in Ho; cbn [fst] in Ho;
  first [ discriminate Ho
        | injection Ho as Ho; subst; discriminate Hst ].

(** What a request that was answered 202 went through. *)
Lemma post_timetables_created_inv env req w res :
  outcome_of (post_timetables env req w) = Returned res ->
  res_status res = 202 ->
  exists session provider providerId n payload normalized,
    req_session req = Some session /\
    emailVerified session = true /\
    get_property (req_body req) (js "providerId") = JString providerId /\
    truthy (get_property (req_body req) (js "identifier")) = true /\
    truthy (get_property (req_body req) (js "password")) = true /\
    getProvider env providerId = Some provider /\
    (has_schools provider = true ->
     truthy (get_property (req_body req) (js "schoolId")) = true) /\
    validateCredentials provider (submitted_credentials (req_body req))
      = Returned true /\
    Vault.encrypt (crypto env) (encryption_key env) (drawn_iv env (ticks w))
      (JSON_stringify env (stored_credentials (req_body req)))
      = Returned payload /\
    normalizedSchoolId (get_property (req_body req) (js "schoolId"))
      = Returned normalized /\
    (get_property (req_body req) (js "syncInterval") = JNumber n \/
     get_property (req_body req) (js "syncInterval") = JUndefined /\ n = 60) /\
    find (same_owner_provider_school (user_id session) providerId normalized)
         (timetables w) = None /\
    existsb (has_id (generated_id env (S (ticks w)))) (timetables w) = false /\
    let row := created_row env w (user_id session) providerId normalized n in
    let creds := created_credentials env w payload in
    res = {| res_status := 202; res_error := None; res_timetable := Some row |} /\
    world_of (post_timetables env req w)
    = world_of
        (scheduleTimetableSync (tt_id row) n
           (world_of
              (triggerImmediateSync (tt_id row)
                 (set_credentials (credentials w ++ [creds])
                    (set_timetables (timetables w ++ [row])
                       (tick (tick w))))))).
Proof.
  unfold post_timetables.
  destruct (req_session req) as [session|] eqn:Hsession;
    [|intros Ho Hst; not_created Ho Hst].
  destruct (emailVerified session) eqn:Hverified; cbn [negb];
    [|intros Ho Hst; not_created Ho Hst].
  assert (Hgoal : forall body run,
      ((let providerId := get_property body (js "providerId") in
        let schoolId := get_property body (js "schoolId") in
        let identifier := get_property body (js "identifier") in
        let password := get_property body (js "password") in
        let syncInterval :=
          match get_property body (js "syncInterval") with
          | JUndefined => JNumber 60
          | v => v
          end in
        if negb (truthy providerId) || negb (truthy identifier)
           || negb (truthy password)
        then ret (reject 400 "BAD_REQUEST")
        else
        match getProviderOf env providerId, providerId with
        | Some provider, JString providerId =>
        if has_schools provider && negb (truthy schoolId)
        then ret (reject 400 "MISSING_SCHOOL")
        else
        try_catch
          (let candidate := JObject [(js "identifier", identifier);
                                     (js "password", password);
                                     (js "schoolId", schoolId)] in
           emit (CallValidateCredentials providerId candidate) ;;;
           isValid <- lift (validateCredentials provider candidate) ;;
           if negb isValid then ret (reject 401 "INVALID_CREDENTIALS")
           else
             let credsJson :=
               JSON_stringify env (JObject [(js "identifier", identifier);
                                            (js "password", password)]) in
             payload <- encrypt env credsJson ;;
             normalized <- lift (normalizedSchoolId schoolId) ;;
             existingTimetable <-
               prisma_timetable_findFirst (user_id session) providerId normalized ;;
             match existingTimetable with
             | Some _ => ret (reject 400 "ALREADY_EXISTS")
             | None =>
                 timetable <-
                   prisma_timetable_create env (user_id session) providerId
                     normalized syncInterval payload ;;
                 triggerImmediateSync (tt_id timetable) ;;;
                 scheduleTimetableSync (tt_id timetable)
                   (tt_syncInterval timetable) ;;;
                 ret {| res_status := 202; res_error := None;
                        res_timetable := Some timetable |}
             end)
          (fun error =>
             console_error (js "[API Error] " ++ exn_message error) ;;;
             ret (reject 500 "INTERNAL_ERROR"))
        | _, _ => ret (reject 400 "UNKNOWN_PROVIDER")
        end) w) = run ->
    outcome_of run = Returned res ->
    res_status res = 202 ->
    exists session0 provider providerId n payload normalized,
      Some session = Some session0 /\
      emailVerified session0 = true /\
      get_property body (js "providerId") = JString providerId /\
      truthy (get_property body (js "identifier")) = true /\
      truthy (get_property body (js "password")) = true /\
      getProvider env providerId = Some provider /\
      (has_schools provider = true ->
       truthy (get_property body (js "schoolId")) = true) /\
      validateCredentials provider (submitted_credentials body)
        = Returned true /\
      Vault.encrypt (crypto env) (encryption_key env) (drawn_iv env (ticks w))
        (JSON_stringify env (stored_credentials body))
        = Returned payload /\
      normalizedSchoolId (get_property body (js "schoolId"))
        = Returned normalized /\
      (get_property body (js "syncInterval") = JNumber n \/
       get_property body (js "syncInterval") = JUndefined /\ n = 60) /\
      find (same_owner_provider_school (user_id session0) providerId normalized)
           (timetables w) = None /\
      existsb (has_id (generated_id env (S (ticks w)))) (timetables w) = false /\
      let row := created_row env w (user_id session0) providerId normalized n in
      let creds := created_credentials env w payload in
      res = {| res_status := 202; res_error := None; res_timetable := Some row |} /\
      world_of run
      = world_of
          (scheduleTimetableSync (tt_id row) n
             (world_of
                (triggerImmediateSync (tt_id row)
                   (set_credentials (credentials w ++ [creds])
                      (set_timetables (timetables w ++ [row])
                         (tick (tick w)))))))).
  2:{ destruct (req_body req) eqn:Hbody;
        try (intros Ho Hst; not_created Ho Hst);
        cbv beta iota; rewrite <- Hbody;
        exact (Hgoal (req_body req) _ eq_refl). }
  intros body run. cbv zeta.
  destruct (truthy (get_property body (js "providerId"))) eqn:Tp;
    cbn [negb orb]; [|intros Hrun Ho Hst; subst run; not_created Ho Hst].
  destruct (truthy (get_property body (js "identifier"))) eqn:Ti;
    cbn [negb orb]; [|intros Hrun Ho Hst; subst run; not_created Ho Hst].
  destruct (truthy (get_property body (js "password"))) eqn:Tw;
    cbn [negb orb]; [|intros Hrun Ho Hst; subst run; not_created Ho Hst].
  destruct (getProviderOf env (get_property body (js "providerId")))
    as [provider|] eqn:Hprovider;
    destruct (get_property body (js "providerId"))
      as [| |?|?|providerId|? ?|?] eqn:HproviderId;
    try (intros Hrun Ho Hst; subst run; not_created Ho Hst).
  cbn [getProviderOf] in Hprovider.
  destruct (has_schools provider
            && negb (truthy (get_property body (js "schoolId"))))
    eqn:Hschool;
    [intros Hrun Ho Hst; subst run; not_created Ho Hst|].
  unfold try_catch. unfold bind at 1. unfold emit at 1. unfold bind at 1.
  unfold lift at 1.
  fold (submitted_credentials body).
  destruct (validateCredentials provider _) as [isValid|e] eqn:Hvalid;
    [|unfold bind, console_error, emit, ret; cbn [app];
      intros Hrun Ho Hst; subst run; not_created Ho Hst].
  destruct isValid; cbn [negb];
    [|unfold ret; cbn [app]; intros Hrun Ho Hst; subst run; not_created Ho Hst].
  unfold bind at 1. unfold encrypt at 1. unfold bind at 1.
  unfold crypto_randomBytes at 1. unfold bind at 1. unfold emit at 1.
  unfold lift at 1.
  fold (drawn_iv env (ticks w)). fold (stored_credentials body).
  destruct (Vault.encrypt _ _ _ _) as [payload|e] eqn:Hencrypt;
    [|unfold bind, console_error, emit, ret; cbn [app];
      intros Hrun Ho Hst; subst run; not_created Ho Hst].
  unfold bind at 1. unfold lift at 1.
  destruct (normalizedSchoolId _) as [normalized|e] eqn:Hnormalized;
    [|unfold bind, console_error, emit, ret; cbn [app];
      intros Hrun Ho Hst; subst run; not_created Ho Hst].
  unfold bind at 1. unfold prisma_timetable_findFirst at 1.
  cbn [timetables tick set_ticks].
  destruct (find _ (timetables w)) as [existing|] eqn:Hfind;
    [unfold ret; cbn [app]; intros Hrun Ho Hst; subst run; not_created Ho Hst|].
  unfold bind at 1. unfold prisma_timetable_create at 1.
  destruct (get_property body (js "syncInterval"))
    as [| |?|n|?|? ?|?] eqn:Hinterval;
    try (unfold bind, console_error, emit, ret; cbn [app];
         intros Hrun Ho Hst; subst run; not_created Ho Hst).
  all: cbn [timetables tick set_ticks ticks].
  all: destruct (existsb _ (timetables w)) eqn:Hfresh;
    [unfold bind, console_error, emit, ret; cbn [app];
     intros Hrun Ho Hst; subst run; not_created Ho Hst|].
  all: unfold bind at 1; cbn [tt_id tt_syncInterval].
  all: match goal with
       | |- context [triggerImmediateSync ?i ?w1] =>
           destruct (triggerImmediateSync_queue_only i w1)
             as [w2 [evs2 [E2 _]]]; rewrite E2
       end.
  all: unfold bind at 1.
  all: match goal with
       | |- context [scheduleTimetableSync ?i ?n ?w1] =>
           destruct (scheduleTimetableSync_queue_only i n w1)
             as [w3 [evs3 [E3 _]]]; rewrite E3
       end.
  all: unfold ret; cbn [app].
  all: intros <- Ho _; unfold outcome_of in Ho; cbn [fst] in Ho;
    injection Ho as <-.
  - exists session, provider, providerId, 60, payload, normalized.
    repeat (split; [first [reflexivity | assumption]|]).
    split.
    { intros Hs. rewrite Hs in Hschool. cbn [andb] in Hschool.
      now apply negb_false_iff in Hschool. }
    repeat (split; [first [reflexivity | assumption | now right]|]).
    cbv zeta. unfold created_row, created_credentials. cbn [tt_id].
    unfold world_of at 1. cbn [fst snd].
    match goal with
    | |- _ = world_of (scheduleTimetableSync _ _ (world_of ?t)) =>
        replace t with (@Returned unit tt, w2, evs2) by (symmetry; exact E2)
    end.
    unfold world_of at 2. cbn [fst snd]. rewrite E3. reflexivity.
  - exists session, provider, providerId, n, payload, normalized.
    repeat (split; [first [reflexivity | assumption]|]).
    split.
    { intros Hs. rewrite Hs in Hschool. cbn [andb] in Hschool.
      now apply negb_false_iff in Hschool. }
    repeat (split; [first [reflexivity | assumption | now left]|]).
    cbv zeta. unfold created_row, created_credentials. cbn [tt_id].
    unfold world_of at 1. cbn [fst snd].
    match goal with
    | |- _ = world_of (scheduleTimetableSync _ _ (world_of ?t)) =>
        replace t with (@Returned unit tt, w2, evs2) by (symmetry; exact E2)
    end.
    unfold world_of at 2. cbn [fst snd]. rewrite E3. reflexivity.
Qed.

Lemma triggerImmediateSync_run id w q :
  timetableQueue w = Some q ->
  triggerImmediateSync id w =
    (Returned tt,
     set_queue (Some {| repeatable := repeatable q;
                        waiting := waiting q ++ [immediate_job id] |}) w,
     [QueueAdd (js "sync-immediate") id None None]).
Proof.
  intros Hq. unfold triggerImmediateSync, queue_add. now rewrite Hq.
Qed.

Lemma triggerImmediateSync_disabled id w :
  timetableQueue w = None ->
  triggerImmediateSync id w =
    (Returned tt, w,
     [ConsoleWarn
        (js "[Queue] Cannot trigger immediate sync - queue not initialized")]).
Proof. intros Hq. unfold triggerImmediateSync. now rewrite Hq. Qed.

(** X12.  A [POST /api/timetables] answered with 202 has appended one
    row to the timetables, not synced yet and with the interval 60 when
    the body gives none; with a queue, one immediate job for it is
    appended to the waiting ones and its registration at its interval is
    added to the repeatable ones, none of which is removed (a
    registration already there under the same key is not doubled);
    without a queue there is still none. *)
Theorem post_timetables_schedules_created :
  forall env req w res,
    outcome_of (post_timetables env req w) = Returned res ->
    res_status res = 202 ->
    exists row,
      res_timetable res = Some row /\
      tt_lastSyncedAt row = None /\
      (get_property (req_body req) (js "syncInterval") = JUndefined ->
       tt_syncInterval row = 60) /\
      timetables (world_of (post_timetables env req w)) = timetables w ++ [row] /\
      match timetableQueue w with
      | Some q =>
          timetableQueue (world_of (post_timetables env req w)) =
            Some {| repeatable :=
                      with_registration
                        (sync_registration (tt_id row) (tt_syncInterval row))
                        (repeatable q);
                    waiting := waiting q ++ [immediate_job (tt_id row)] |}
      | None => timetableQueue (world_of (post_timetables env req w)) = None
      end.
Proof.
  intros env req w res Ho Hst.
  destruct (post_timetables_created_inv env req w res Ho Hst)
    as [session [provider [providerId [n [payload [normalized
        [_ [_ [_ [_ [_ [_ [_ [_ [_ [_ [Hn [_ [_ H]]]]]]]]]]]]]]]]]]].
  cbv zeta in H. destruct H as [-> Hw].
  exists (created_row env w (user_id session) providerId normalized n).
  split; [reflexivity|]. split; [reflexivity|].
  split.
  { intros E. destruct Hn as [Hn|[_ ->]]; [congruence|reflexivity]. }
  rewrite Hw. cbn [created_row tt_id tt_syncInterval].
  set (W := set_credentials _ _).
  destruct (timetableQueue w) as [q|] eqn:Hq.
  - assert (HW : timetableQueue W = Some q) by exact Hq.
    rewrite (triggerImmediateSync_run _ _ _ HW).
    unfold world_of at 2 4. cbn [fst snd].
    erewrite scheduleTimetableSync_run by reflexivity.
    unfold world_of. cbn [fst snd]. split; reflexivity.
  - assert (HW : timetableQueue W = None) by exact Hq.
    rewrite (triggerImmediateSync_disabled _ _ HW).
    unfold world_of at 2 4. cbn [fst snd].
    rewrite (scheduleTimetableSync_disabled _ _ _ HW).
    unfold world_of. cbn [fst snd]. split; [reflexivity|exact HW].
Qed.

Lemma post_timetables_schedules_created_witness :
  exists row,
    timetables
      (world_of (post_timetables Demo.demo_env MoreRequests.bob_request
                   Demo.demo_world))
    = timetables Demo.demo_world ++ [row] /\
    tt_syncInterval row = 60 /\
    timetableQueue
      (world_of (post_timetables Demo.demo_env MoreRequests.bob_request
                   Demo.demo_world))
    = Some {| repeatable :=
                repeatable Demo.demo_queue ++ [sync_registration (tt_id row) 60];
              waiting := [immediate_job (tt_id row)] |}.
Proof.
  destruct (outcome_of (post_timetables Demo.demo_env MoreRequests.bob_request
                          Demo.demo_world)) as [res|e] eqn:Ho.
  2:{ vm_compute in Ho. discriminate. }
  assert (Hst : res_status res = 202)
    by (vm_compute in Ho; injection Ho as <-; reflexivity).
  destruct (post_timetables_schedules_created Demo.demo_env
              MoreRequests.bob_request Demo.demo_world res Ho Hst)
    as [row [Hr [_ [Hi [Ht Hq]]]]].
  exists row. split; [exact Ht|]. split; [apply Hi; reflexivity|].
  cbn [Demo.demo_world timetableQueue] in Hq. rewrite Hq.
  rewrite (Hi eq_refl).
  assert (Hid : tt_id row = js "tt-1")
    by (vm_compute in Ho; injection Ho as <-; injection Hr as <-; reflexivity).
  rewrite Hid. reflexivity.
Defined.

Lemma encrypt_returned_key crypto key ivb text payload :
  Vault.encrypt crypto key ivb text = Returned payload ->
  List.length (Vault.key_bytes key) = 32%nat /\ ivb <> [].
Proof.
  unfold Vault.encrypt, Vault.createCipheriv.
  destruct ivb; cbn [List.length Nat.eqb]; [discriminate|].
  destruct (Nat.eqb_spec (List.length (Vault.key_bytes key)) 32) as [E|E];
    cbn [negb]; [|discriminate].
  intros _. split; [exact E|discriminate].
Qed.

(** What [decrypt] makes of a record stored by [encrypt]. *)
Lemma decrypt_of_encrypt crypto key t env text payload :
  Vault.encrypt crypto key (drawn_iv env t) text = Returned payload ->
  Encoding.WellFormed text -> text <> [] ->
  Vault.decrypt crypto key (encryptedData payload) (iv payload) = Returned text.
Proof.
  intros He Hwf Hne.
  destruct (encrypt_returned_key _ _ _ _ _ He) as [Hkey Hiv].
  destruct (VaultFacts.decrypt_encrypt crypto key Hkey (drawn_iv env t) text
              Hiv (randomBytes_bytes env 16 t) Hwf Hne) as [p [Hp Hd]].
  assert (p = payload) by congruence. now subst p.
Qed.

(** X13.  A [POST /api/timetables] answered with 202 has appended one
    credential record, for the created row, and [decrypt] on that record
    gives back the JSON text of the identifier and password of the
    request, when that text is not empty and is well-formed UTF-16. *)
Theorem post_timetables_stored_credentials :
  forall env req w res,
    outcome_of (post_timetables env req w) = Returned res ->
    res_status res = 202 ->
    Encoding.WellFormed (JSON_stringify env (stored_credentials (req_body req))) ->
    JSON_stringify env (stored_credentials (req_body req)) <> [] ->
    exists row creds,
      res_timetable res = Some row /\
      credentials (world_of (post_timetables env req w))
      = credentials w ++ [creds] /\
      cred_timetableId creds = tt_id row /\
      decrypt env (cred_encryptedCredentials creds) (cred_iv creds)
      = Returned (JSON_stringify env (stored_credentials (req_body req))).
Proof.
  intros env req w res Ho Hst Hwf Hne.
  destruct (post_timetables_created_inv env req w res Ho Hst)
    as [session [provider [providerId [n [payload [normalized
        [_ [_ [_ [_ [_ [_ [_ [_ [He [_ [_ [_ [_ H]]]]]]]]]]]]]]]]]]].
  cbv zeta in H. destruct H as [-> Hw].
  exists (created_row env w (user_id session) providerId normalized n),
         (created_credentials env w payload).
  split; [reflexivity|]. split; [|split; [reflexivity|]].
  - rewrite Hw.
    match goal with
    | |- credentials (world_of (scheduleTimetableSync ?i ?m ?W)) = _ =>
        destruct (scheduleTimetableSync_queue_only i m W)
          as [w3 [evs3 [E3 [[_ [R3 _]] _]]]]; rewrite E3
    end.
    unfold world_of at 1. cbn [fst snd]. rewrite R3.
    match goal with
    | |- credentials (world_of (triggerImmediateSync ?i ?W)) = _ =>
        destruct (triggerImmediateSync_queue_only i W)
          as [w2 [evs2 [E2 [[_ [R2 _]] _]]]]; rewrite E2
    end.
    unfold world_of. cbn [fst snd]. rewrite R2. reflexivity.
  - unfold decrypt. cbn [created_credentials cred_encryptedCredentials cred_iv].
    eapply decrypt_of_encrypt; eauto.
Qed.

Lemma post_timetables_stored_credentials_witness :
  exists creds,
    credentials
      (world_of (post_timetables Demo.demo_env MoreRequests.bob_request
                   Demo.demo_world))
    = credentials Demo.demo_world ++ [creds] /\
    decrypt Demo.demo_env (cred_encryptedCredentials creds) (cred_iv creds)
    = Returned (js "{}").
Proof.
  destruct (outcome_of (post_timetables Demo.demo_env MoreRequests.bob_request
                          Demo.demo_world)) as [res|e] eqn:Ho.
  2:{ vm_compute in Ho. discriminate. }
  assert (Hst : res_status res = 202)
    by (vm_compute in Ho; injection Ho as <-; reflexivity).
  destruct (post_timetables_stored_credentials Demo.demo_env
              MoreRequests.bob_request Demo.demo_world res Ho Hst)
    as [row [creds [_ [Hc [_ Hd]]]]].
  - change (JSON_stringify Demo.demo_env
              (stored_credentials (req_body MoreRequests.bob_request)))
      with [123; 125].
    apply Encoding.wf_unit; [lia|reflexivity|reflexivity|].
    apply Encoding.wf_unit; [lia|reflexivity|reflexivity|].
    apply Encoding.wf_empty.
  - discriminate.
  - exists creds. split; [exact Hc|exact Hd].
Defined.

Lemma find_app_none {A} (f : A -> bool) l l' :
  find f l = None -> find f (l ++ l') = find f l'.
Proof.
  induction l as [|x l IH]; cbn; [reflexivity|].
  destruct (f x); [discriminate|exact IH].
Qed.

Lemma existsb_false_find {A} (f : A -> bool) l :
  existsb f l = false -> find f l = None.
Proof.
  induction l as [|x l IH]; cbn; [reflexivity|].
  destruct (f x); [discriminate|exact IH].
Qed.

Lemma getProvider_id env id p :
  getProvider env id = Some p -> provider_id p = id.
Proof.
  unfold getProvider. intros H. apply find_some in H.
  now apply jsstring_eqb_eq.
Qed.

(** With the timetable, its credential record and its provider at hand,
    a run calls the provider with the credentials of lines 84-92. *)
Lemma performSync_calls_provider env id w q t c p creds :
  timetableQueue w = Some q ->
  stored_timetable id w = Some (t, Some c) ->
  getProvider env (tt_providerId t) = Some p ->
  provider_credentials env t c = Returned creds ->
  In (CallGetSchedule (provider_id p) creds
        (fst (fetch_window (clock env (ticks w))))
        (snd (fetch_window (clock env (ticks w)))))
     (events_of (performSync env id w)).
Proof.
  intros Hq Hs Hp Hc.
  destruct (performSync_run env id w) as [Hn|? ? Hm|q' t' c' Hq' Hs' Hp'
      |q' t' c' p' e' Hq' Hs' Hp' Hc'|q' t' c' p' creds' e' Hq' Hs' Hp' Hc'
      |q' t' c' p' creds' fetched rows n Hq' Hs' Hp' Hc'];
    try (assert (Hwin : window = fetch_window (clock env (ticks w)))
           by reflexivity; clearbody window).
  - congruence.
  - destruct Hm as [Hm|[t0 Hm]]; congruence.
  - assert (t' = t) by congruence. subst t'. congruence.
  - assert (t' = t /\ c' = c) as [-> ->] by (split; congruence). congruence.
  - assert (t' = t /\ c' = c) as [-> ->] by (split; congruence).
    assert (p' = p) by congruence. subst p'.
    assert (creds' = creds) by congruence. subst creds'.
    rewrite <- Hwin. unfold events_of. cbn [snd In]. auto 10.
  - assert (t' = t /\ c' = c) as [-> ->] by (split; congruence).
    assert (p' = p) by congruence. subst p'.
    assert (creds' = creds) by congruence. subst creds'.
    rewrite <- Hwin. unfold events_of. cbn [snd app In]. auto 10.
Qed.

(** X14.  After a [POST /api/timetables] answered with 202, the
    [performSync] of the created timetable calls [getSchedule] of the
    provider named in the request, with the object decoded from the
    stored credentials, the school identifier of the row set on it when
    the row has one.  This holds with a queue, when every credential
    record stored before belongs to a stored timetable and the JSON text
    of the credentials is read back as an object. *)
Theorem post_timetables_then_performSync :
  forall env req w res parsed,
    outcome_of (post_timetables env req w) = Returned res ->
    res_status res = 202 ->
    timetableQueue w <> None ->
    Forall (fun c => existsb (has_id (cred_timetableId c)) (timetables w) = true)
           (credentials w) ->
    Encoding.WellFormed (JSON_stringify env (stored_credentials (req_body req))) ->
    JSON_stringify env (stored_credentials (req_body req)) <> [] ->
    JSON_parse env (JSON_stringify env (stored_credentials (req_body req)))
      = Returned (JObject parsed) ->
    exists row from to,
      res_timetable res = Some row /\
      get_property (req_body req) (js "providerId") = JString (tt_providerId row) /\
      In (CallGetSchedule (tt_providerId row)
            (match tt_schoolId row with
             | Some s => JObject (props_set parsed (js "schoolId") (JString s))
             | None => JObject parsed
             end) from to)
         (events_of (performSync env (tt_id row)
                       (world_of (post_timetables env req w)))).
Proof.
  intros env req w res parsed Ho Hst Hqueue Hintegrity Hwf Hne Hparse.
  destruct (post_timetables_created_inv env req w res Ho Hst)
    as [session [provider [providerId [n [payload [normalized
        [_ [_ [Hpid [_ [_ [Hprov [_ [_ [He [Hnorm [_ [_ [Hfresh H]]]]]]]]]]]]]]]]]]].
  cbv zeta in H. destruct H as [-> Hw].
  set (row := created_row env w (user_id session) providerId normalized n) in *.
  set (creds := created_credentials env w payload) in *.
  set (W := world_of (post_timetables env req w)) in *.
  destruct (timetableQueue w) as [q|] eqn:Hq; [|congruence].
  (* the world the request leaves *)
  assert (HW : exists q', timetableQueue W = Some q' /\
                          timetables W = timetables w ++ [row] /\
                          credentials W = credentials w ++ [creds]).
  { rewrite Hw.
    set (W1 := set_credentials _ _).
    assert (H1 : timetableQueue W1 = Some q) by exact Hq.
    rewrite (triggerImmediateSync_run _ _ _ H1).
    unfold world_of. cbn [fst snd].
    erewrite scheduleTimetableSync_run by reflexivity.
    cbn [fst snd]. eexists. repeat split. }
  destruct HW as [q' [HWq [HWt HWc]]].
  assert (Hs : stored_timetable (tt_id row) W = Some (row, Some creds)).
  { unfold stored_timetable. rewrite HWt, HWc.
    rewrite find_app_none by (now apply existsb_false_find).
    cbn [find]. unfold has_id at 1. rewrite jsstring_eqb_refl.
    rewrite find_app_none.
    - cbn [find]. unfold creds, created_credentials. cbn [cred_timetableId].
      unfold row, created_row. cbn [tt_id]. now rewrite jsstring_eqb_refl.
    - destruct (find _ (credentials w)) as [c|] eqn:F; [|reflexivity].
      exfalso. apply find_some in F. destruct F as [Hin Hid].
      rewrite Forall_forall in Hintegrity. apply Hintegrity in Hin.
      apply jsstring_eqb_eq in Hid. rewrite Hid in Hin.
      unfold row, created_row in Hin. cbn [tt_id] in Hin. congruence. }
  assert (Hc : provider_credentials env row creds
               = Returned (match normalized with
                           | Some s =>
                               JObject (props_set parsed (js "schoolId") (JString s))
                           | None => JObject parsed
                           end)).
  { unfold provider_credentials, decrypt.
    unfold creds, created_credentials at 1 2.
    cbn [cred_encryptedCredentials cred_iv].
    rewrite (decrypt_of_encrypt _ _ _ _ _ _ He Hwf Hne), Hparse.
    unfold row, created_row. cbn [tt_schoolId].
    destruct normalized as [s|]; [|reflexivity].
    apply normalizedSchoolId_truthy in Hnorm.
    cbn [truthy_opt]. rewrite Hnorm. reflexivity. }
  pose proof (performSync_calls_provider env (tt_id row) W q' row creds provider
                _ HWq Hs Hprov Hc) as Hcall.
  rewrite (getProvider_id _ _ _ Hprov) in Hcall.
  exists row, (fst (fetch_window (clock env (ticks W)))),
         (snd (fetch_window (clock env (ticks W)))).
  split; [reflexivity|]. split; [exact Hpid|exact Hcall].
Qed.

Lemma post_timetables_then_performSync_witness :
  exists row from to,
    In (CallGetSchedule (js "wigor")
          (JObject [(js "schoolId", JString (js "esgi"))]) from to)
       (events_of
          (performSync Demo.demo_env (tt_id row)
             (world_of (post_timetables Demo.demo_env MoreRequests.bob_request
                          Demo.demo_world)))).
Proof.
  destruct (outcome_of (post_timetables Demo.demo_env MoreRequests.bob_request
                          Demo.demo_world)) as [res|e] eqn:Ho.
  2:{ vm_compute in Ho. discriminate. }
  assert (Hst : res_status res = 202)
    by (vm_compute in Ho; injection Ho as <-; reflexivity).
  assert (Hrow : exists row, res_timetable res = Some row /\
                             tt_providerId row = js "wigor" /\
                             tt_schoolId row = Some (js "esgi")).
  { vm_compute in Ho. injection Ho as <-. eexists. repeat split. }
  destruct (post_timetables_then_performSync Demo.demo_env
              MoreRequests.bob_request Demo.demo_world res [] Ho Hst)
    as [row [from [to [Hr [_ Hcall]]]]].
  - discriminate.
  - repeat constructor.
  - change (JSON_stringify Demo.demo_env
              (stored_credentials (req_body MoreRequests.bob_request)))
      with [123; 125].
    apply Encoding.wf_unit; [lia|reflexivity|reflexivity|].
    apply Encoding.wf_unit; [lia|reflexivity|reflexivity|].
    apply Encoding.wf_empty.
  - discriminate.
  - reflexivity.
  - destruct Hrow as [row' [Hr' [Hp Hs]]].
    assert (row' = row) by congruence. subst row'.
    rewrite Hp, Hs in Hcall. exists row, from, to. exact Hcall.
Defined.

(** X15.  A row returned with 202 by [POST /api/timetables] belongs to
    the user of the session, whose e-mail is verified; its provider is
    the one the body names and is registered; that provider accepted the
    submitted credentials; and its school identifier is the normalised
    one of the body: when it is not null it is the string of the body as
    sent, and that string is not blank. *)
Theorem post_timetables_created_row_provenance :
  forall env req w res,
    outcome_of (post_timetables env req w) = Returned res ->
    res_status res = 202 ->
    exists row session provider,
      res_timetable res = Some row /\
      req_session req = Some session /\
      emailVerified session = true /\
      tt_userId row = user_id session /\
      get_property (req_body req) (js "providerId") = JString (tt_providerId row) /\
      getProvider env (tt_providerId row) = Some provider /\
      validateCredentials provider (submitted_credentials (req_body req))
        = Returned true /\
      normalizedSchoolId (get_property (req_body req) (js "schoolId"))
        = Returned (tt_schoolId row) /\
      match tt_schoolId row with
      | Some s =>
          get_property (req_body req) (js "schoolId") = JString s /\
          js_trim s <> []
      | None => True
      end.
Proof.
  intros env req w res Ho Hst.
  destruct (post_timetables_created_inv env req w res Ho Hst)
    as [session [provider [providerId [n [payload [normalized
        [Hs [Hv [Hpid [_ [_ [Hprov [_ [Hvalid [_ [Hnorm [_ [_ [_ H]]]]]]]]]]]]]]]]]]].
  cbv zeta in H. destruct H as [-> _].
  exists (created_row env w (user_id session) providerId normalized n),
         session, provider.
  cbn [res_timetable created_row tt_userId tt_providerId tt_schoolId].
  repeat (split; [first [reflexivity|assumption]|]).
  destruct normalized as [s|]; [|exact I].
  unfold normalizedSchoolId in Hnorm.
  destruct (truthy (get_property (req_body req) (js "schoolId"))); [|discriminate].
  destruct (get_property (req_body req) (js "schoolId")); try discriminate.
  destruct (truthy_string (js_trim s0)) eqn:T; [|discriminate].
  injection Hnorm as <-. split; [reflexivity|].
  intros E. rewrite E in T. discriminate.
Qed.

Lemma post_timetables_created_row_provenance_witness :
  exists row,
    tt_userId row = js "bob" /\
    getProvider Demo.demo_env (tt_providerId row) <> None.
Proof.
  destruct (outcome_of (post_timetables Demo.demo_env MoreRequests.bob_request
                          Demo.demo_world)) as [res|e] eqn:Ho.
  2:{ vm_compute in Ho. discriminate. }
  assert (Hst : res_status res = 202)
    by (vm_compute in Ho; injection Ho as <-; reflexivity).
  destruct (post_timetables_created_row_provenance Demo.demo_env
              MoreRequests.bob_request Demo.demo_world res Ho Hst)
    as [row [session [provider [_ [Hs [_ [Hu [_ [Hp _]]]]]]]]].
  exists row. split.
  - rewrite Hu. injection Hs as <-. reflexivity.
  - rewrite Hp. discriminate.
Defined.

(* ------------------------------------------------------------------ *)
(** * Deleting a timetable *)
(* ------------------------------------------------------------------ *)

Lemma find_existsb {A} (f : A -> bool) l x :
  find f l = Some x -> existsb f l = true.
Proof.
  intros H. apply find_some in H. apply existsb_exists. eauto.
Qed.

(** The four ways the handler goes for an authenticated request. *)
Lemma delete_timetable_run req w session :
  delete_session req = Some session ->
  delete_timetable req w =
    match find (has_id (delete_id req)) (timetables w) with
    | None =>
        (Returned (reject 404 "NOT_FOUND"), w,
         [TimetableFindUnique (delete_id req)])
    | Some t =>
        if jsstring_eqb (tt_userId t) (user_id session)
        then (Returned deleted, without_timetable (delete_id req) w,
              [TimetableFindUnique (delete_id req)])
        else (Returned (reject 403 "FORBIDDEN"), w,
              [TimetableFindUnique (delete_id req)])
    end.
Proof.
  intros Hs. unfold delete_timetable. rewrite Hs. cbv zeta.
  unfold try_catch, bind, prisma_timetable_findUnique_row.
  destruct (find (has_id (delete_id req)) (timetables w)) as [t|] eqn:F;
    [|reflexivity].
  destruct (jsstring_eqb (tt_userId t) (user_id session)); cbn [negb];
    [|reflexivity].
  unfold prisma_timetable_delete. rewrite (find_existsb _ _ _ F).
  reflexivity.
Qed.

(** X16.  [DELETE /api/timetables/:id] deletes for the owner only. 
    Either the user of the session owns the stored timetable with that
    identifier, the answer is the success one, and the timetable is gone
    with its credential record and its courses; or the world is left as
    it was and the answer is 401 without a session, 404 when no
    timetable has the identifier, 403 when the timetable belongs to
    someone else. *)
Theorem delete_timetable_owner_only :
  forall (req : DeleteRequest) (w : World),
    (exists session t,
        delete_session req = Some session /\
        In t (timetables w) /\ tt_id t = delete_id req /\
        tt_userId t = user_id session /\
        outcome_of (delete_timetable req w) = Returned deleted /\
        world_of (delete_timetable req w) = without_timetable (delete_id req) w)
    \/
    (world_of (delete_timetable req w) = w /\
     (delete_session req = None /\
      outcome_of (delete_timetable req w) = Returned (reject 401 "UNAUTHORIZED")
      \/
      find (has_id (delete_id req)) (timetables w) = None /\
      outcome_of (delete_timetable req w) = Returned (reject 404 "NOT_FOUND")
      \/
      exists session t,
        delete_session req = Some session /\
        find (has_id (delete_id req)) (timetables w) = Some t /\
        tt_userId t <> user_id session /\
        outcome_of (delete_timetable req w) = Returned (reject 403 "FORBIDDEN"))).
Proof.
  intros req w.
  destruct (delete_session req) as [session|] eqn:Hs.
  2:{ right. unfold delete_timetable. rewrite Hs. split; [reflexivity|].
      left. split; reflexivity. }
  rewrite (delete_timetable_run req w session Hs).
  destruct (find (has_id (delete_id req)) (timetables w)) as [t|] eqn:F.
  2:{ right. split; [reflexivity|]. right. left. split; reflexivity. }
  destruct (jsstring_eqb (tt_userId t) (user_id session)) eqn:E.
  - left. exists session, t. apply find_some in F. destruct F as [Hin Hid].
    apply jsstring_eqb_eq in E, Hid. repeat split; auto.
  - right. split; [reflexivity|]. right. right. exists session, t.
    apply jsstring_eqb_neq in E. repeat split; auto.
Qed.

Lemma deleted_not_rejected status error : Returned (reject status error) <> Returned deleted.
Proof. intros H. injection H as _ H. discriminate. Qed.

(** What a successful deletion was. *)
Lemma delete_timetable_deleted_inv req w :
  outcome_of (delete_timetable req w) = Returned deleted ->
  exists session t,
    delete_session req = Some session /\
    find (has_id (delete_id req)) (timetables w) = Some t /\
    tt_userId t = user_id session /\
    world_of (delete_timetable req w) = without_timetable (delete_id req) w.
Proof.
  destruct (delete_session req) as [session|] eqn:Hs.
  2:{ unfold delete_timetable. rewrite Hs. intros H.
      now apply deleted_not_rejected in H. }
  rewrite (delete_timetable_run req w session Hs).
  destruct (find (has_id (delete_id req)) (timetables w)) as [t|] eqn:F.
  2:{ intros H. now apply deleted_not_rejected in H. }
  destruct (jsstring_eqb (tt_userId t) (user_id session)) eqn:E.
  - intros _. exists session, t. apply jsstring_eqb_eq in E. auto.
  - intros H. now apply deleted_not_rejected in H.
Qed.

Lemma find_filter_neg {A} (f : A -> bool) l :
  find f (filter (fun x => negb (f x)) l) = None.
Proof.
  induction l as [|x l IH]; cbn; [reflexivity|].
  destruct (f x) eqn:E; cbn; [exact IH|]. now rewrite E.
Qed.

(** X17.  A successful deletion leaves the queue as it was, so that a
    job registered for the deleted timetable still fires.  The
    [performSync] it triggers finds no row: it warns, lists the
    repeatable jobs and resolves to success false with the message
    Timetable not found; it changes nothing, and the registrations of the
    deleted timetable are still in the queue afterwards. *)
Theorem delete_timetable_then_performSync :
  forall env req w q,
    outcome_of (delete_timetable req w) = Returned deleted ->
    timetableQueue w = Some q ->
    let w' := world_of (delete_timetable req w) in
    timetableQueue w' = Some q /\
    performSync env (delete_id req) w' =
      (Returned {| success := false;
                   message := Some (js "Timetable not found");
                   coursesCount := None |},
       w',
       [TimetableFindUnique (delete_id req);
        ConsoleWarn (not_found_message (delete_id req));
        QueueGetRepeatableJobs]) /\
    registrations (world_of (performSync env (delete_id req) w'))
    = repeatable q.
Proof.
  intros env req w q Hd Hq w'. subst w'.
  destruct (delete_timetable_deleted_inv req w Hd)
    as [session [t [_ [_ [_ Hw]]]]].
  rewrite Hw.
  assert (Hq' : timetableQueue (without_timetable (delete_id req) w) = Some q)
    by exact Hq.
  split; [exact Hq'|].
  assert (Hrun := performSync_not_found_run env (delete_id req)
                    (without_timetable (delete_id req) w) q Hq').
  rewrite Hrun.
  - split; [reflexivity|]. unfold world_of, registrations. cbn [fst snd].
    now rewrite Hq'.
  - left. unfold without_timetable.
    cbn [timetables set_courses set_credentials set_timetables].
    apply find_filter_neg.
Qed.

Lemma delete_timetable_then_performSync_witness :
  find (has_id (js "tt1"))
    (timetables (world_of (delete_timetable MoreDeletes.alice_deletes_tt1
                             Demo.demo_world))) = None /\
  filter (registered_for (js "tt1"))
    (registrations
       (world_of
          (performSync Demo.demo_env (js "tt1")
             (world_of (delete_timetable MoreDeletes.alice_deletes_tt1
                          Demo.demo_world)))))
  = [ {| rj_name := js "sync"; rj_id := Some (js "sync-tt1");
         rj_every := 900000 |};
      {| rj_name := js "sync"; rj_id := Some (js "sync-tt1");
         rj_every := 3600000 |} ].
Proof.
  destruct (delete_timetable_then_performSync Demo.demo_env
              MoreDeletes.alice_deletes_tt1 Demo.demo_world Demo.demo_queue
              eq_refl eq_refl) as [_ [_ Hr]].
  split; [reflexivity|].
  change (delete_id MoreDeletes.alice_deletes_tt1) with (js "tt1") in Hr.
  rewrite Hr. reflexivity.
Defined.

(* ------------------------------------------------------------------ *)
(** * Listing the timetables *)
(* ------------------------------------------------------------------ *)

Lemma NoDup_map_injective {A B} (f : A -> B) l a b :
  NoDup (map f l) -> In a l -> In b l -> f a = f b -> a = b.
Proof.
  induction l as [|x l IH]; cbn; [intros _ []|].
  intros Hnd Ha Hb E. inversion Hnd as [|? ? Hx Hl]; subst.
  destruct Ha as [->|Ha], Hb as [->|Hb]; auto.
  - exfalso. apply Hx. rewrite E. now apply in_map.
  - exfalso. apply Hx. rewrite <- E. now apply in_map.
Qed.

(** X18.  When no two stored timetables share user, provider and school,
    a successful deletion leaves no timetable with the triple of the
    deleted one, and a [POST /api/timetables] of that user for that
    provider and school is not answered with ALREADY_EXISTS. *)
Theorem delete_timetable_frees_triple :
  forall env dreq req w t session,
    one_per_triple (timetables w) ->
    outcome_of (delete_timetable dreq w) = Returned deleted ->
    In t (timetables w) -> tt_id t = delete_id dreq ->
    req_session req = Some session -> user_id session = tt_userId t ->
    get_property (req_body req) (js "providerId") = JString (tt_providerId t) ->
    normalizedSchoolId (get_property (req_body req) (js "schoolId"))
      = Returned (tt_schoolId t) ->
    ~ In (triple t)
         (map triple (timetables (world_of (delete_timetable dreq w)))) /\
    outcome_of (post_timetables env req (world_of (delete_timetable dreq w)))
    <> Returned (reject 400 "ALREADY_EXISTS").
Proof.
  intros env dreq req w t session Hinv Hd Hin Hid Hs Hu Hp Hn.
  destruct (delete_timetable_deleted_inv dreq w Hd)
    as [session' [t' [_ [_ [_ Hw]]]]].
  rewrite Hw.
  assert (Hfree : ~ In (triple t)
                      (map triple (timetables
                                     (without_timetable (delete_id dreq) w)))).
  { unfold without_timetable.
    cbn [timetables set_courses set_credentials set_timetables].
    intros H. apply in_map_iff in H. destruct H as [t0 [E H0]].
    apply filter_In in H0. destruct H0 as [H0 Hne].
    assert (t0 = t) by (eapply NoDup_map_injective; eauto). subst t0.
    unfold has_id in Hne. rewrite Hid, jsstring_eqb_refl in Hne. discriminate. }
  split; [exact Hfree|].
  intros Ho.
  destruct (post_timetables_run env req (without_timetable (delete_id dreq) w))
    as [o w' evs _ _ _ Hearly
       |session0 p' s' existing w' before Hs0 Hp0 Hn0 Hf _ _ _
       |session0 p' s' w' before after _ _ _ _ _ _ _ _
       |session0 p' s' row creds w' before after _ _ _ _ _ _ _ _ _ _ _];
    unfold outcome_of in Ho; cbn [fst] in Ho.
  - destruct (Hearly _ Ho) as [N _]. apply N. reflexivity.
  - apply Hfree.
    assert (E : triple existing = triple t).
    { apply find_some in Hf. destruct Hf as [_ Hf].
      apply same_owner_provider_school_iff in Hf. rewrite Hf. unfold triple.
      assert (session0 = session) by congruence. subst session0.
      rewrite Hu. congruence. }
    rewrite <- E. apply in_map. apply find_some in Hf. tauto.
  - discriminate.
  - discriminate.
Qed.

Lemma delete_timetable_frees_triple_witness :
  outcome_of
    (post_timetables Demo.demo_env DemoRequests.duplicate_request
       (world_of (delete_timetable MoreDeletes.alice_deletes_tt1 Demo.demo_world)))
  <> Returned (reject 400 "ALREADY_EXISTS").
Proof.
  apply (delete_timetable_frees_triple Demo.demo_env
           MoreDeletes.alice_deletes_tt1 DemoRequests.duplicate_request
           Demo.demo_world (Demo.timetable_of "tt1" "wigor" (Some (js "esgi")))
           DemoRequests.alice demo_world_one_per_triple); try reflexivity.
  cbn. auto.
Defined.

(** The jobs [GET /api/timetables] looks at. *)
Lemma includes_iff ids id : includes ids id = true <-> In id ids.
Proof.
  unfold includes. rewrite existsb_exists. split.
  - intros [i [Hin E]]. apply jsstring_eqb_eq in E. now subst.
  - intros H. exists id. split; [exact H|apply jsstring_eqb_refl].
Qed.


Lemma get_timetables_run activeJobs session w :
  get_timetables activeJobs (Some session) w =
    (Returned
       (Json (map (listed_entry activeJobs w)
                  (filter (fun t => jsstring_eqb (tt_userId t) (user_id session))
                          (timetables w)))),
     w, []).
Proof.
  unfold get_timetables, try_catch, bind, prisma_timetable_findMany.
  unfold queue_getActive, queue_getWaiting, bind, ret.
  unfold listed_entry, syncing_ids. cbv beta iota zeta.
  destruct (timetableQueue w) as [q|] eqn:Hq; cbv beta iota zeta;
    rewrite ?Hq; cbv beta iota zeta; cbn [app];
    rewrite map_map; reflexivity.
Qed.

(** X19.  [GET /api/timetables] answers a session with the timetables of
    its user, in stored order and each with its own courses; an entry is
    marked as syncing exactly when the timetable was never synced or an
    active or waiting job of the queue names it.  The world is left as
    it was, and without a session the answer is 401. *)
Theorem get_timetables_lists_own :
  forall activeJobs session w,
    exists body,
      get_timetables activeJobs (Some session) w = (Returned (Json body), w, []) /\
      map listed body
      = filter (fun t => jsstring_eqb (tt_userId t) (user_id session))
               (timetables w) /\
      (forall e, In e body ->
         In (listed e) (timetables w) /\
         tt_userId (listed e) = user_id session /\
         (forall c, In c (listed_courses e) <->
                    In c (courses w) /\ course_timetableId c = tt_id (listed e)) /\
         (isSyncing e = true <->
          tt_lastSyncedAt (listed e) = None \/
          exists q job,
            timetableQueue w = Some q /\
            In job (activeJobs ++ waiting q) /\
            job_timetableId job = tt_id (listed e))) /\
      get_timetables activeJobs None w
      = (Returned (Refused (reject 401 "UNAUTHORIZED")), w, []).
Proof.
  intros activeJobs session w. eexists.
  split; [apply get_timetables_run|].
  split; [rewrite map_map; cbn [listed_entry listed]; apply map_id|].
  split; [|reflexivity].
  intros e He. apply in_map_iff in He. destruct He as [t [<- Ht]].
  apply filter_In in Ht. destruct Ht as [Hin Hu].
  cbn [listed_entry listed listed_courses isSyncing].
  split; [exact Hin|]. split; [now apply jsstring_eqb_eq|]. split.
  - intros c. rewrite filter_In. unfold of_timetable.
    now rewrite jsstring_eqb_eq.
  - rewrite orb_true_iff, includes_iff. unfold never_synced, syncing_ids.
    split.
    + intros [H|H].
      * right. destruct (timetableQueue w) as [q|]; [|destruct H].
        apply in_map_iff in H. destruct H as [job [E Hj]]. eauto.
      * left. now destruct (tt_lastSyncedAt t).
    + intros [H|[q [job [Hq [Hj E]]]]].
      * right. now rewrite H.
      * left. rewrite Hq. rewrite <- E. now apply in_map.
Qed.

Lemma scheduling_keeps_rows id n W :
  same_rows W
    (world_of (scheduleTimetableSync id n (world_of (triggerImmediateSync id W)))).
Proof.
  destruct (triggerImmediateSync_queue_only id W)
    as [w2 [evs2 [E2 [[R2t [R2c R2o]] _]]]].
  rewrite E2. unfold world_of at 2. cbn [fst snd].
  destruct (scheduleTimetableSync_queue_only id n w2)
    as [w3 [evs3 [E3 [[R3t [R3c R3o]] _]]]].
  rewrite E3. unfold world_of. cbn [fst snd].
  repeat split; congruence.
Qed.

(** X20.  A timetable created with 202 is listed by [GET
    /api/timetables] for the same session right afterwards, and is
    marked as syncing. *)
Theorem post_timetables_then_get_timetables :
  forall env req w res activeJobs session,
    outcome_of (post_timetables env req w) = Returned res ->
    res_status res = 202 ->
    req_session req = Some session ->
    exists row body,
      res_timetable res = Some row /\
      get_timetables activeJobs (Some session)
        (world_of (post_timetables env req w))
      = (Returned (Json body), world_of (post_timetables env req w), []) /\
      exists e, In e body /\ listed e = row /\ isSyncing e = true.
Proof.
  intros env req w res activeJobs session Ho Hst Hs.
  destruct (post_timetables_created_inv env req w res Ho Hst)
    as [session' [provider [providerId [n [payload [normalized
        [Hs' [_ [_ [_ [_ [_ [_ [_ [_ [_ [_ [_ [_ H]]]]]]]]]]]]]]]]]]].
  cbv zeta in H. destruct H as [-> Hw].
  assert (session' = session) by congruence. subst session'.
  set (row := created_row env w (user_id session) providerId normalized n) in *.
  assert (Hl : tt_lastSyncedAt row = None) by reflexivity.
  assert (Hu : tt_userId row = user_id session) by reflexivity.
  assert (Ht : timetables (world_of (post_timetables env req w))
               = timetables w ++ [row]).
  { rewrite Hw. now rewrite (proj1 (scheduling_keeps_rows _ _ _)). }
  exists row. eexists. split; [reflexivity|].
  split; [apply get_timetables_run|].
  exists (listed_entry activeJobs (world_of (post_timetables env req w)) row).
  split; [|split; [reflexivity|]].
  - apply in_map. apply filter_In. split.
    + rewrite Ht. apply in_or_app. right. now left.
    + apply jsstring_eqb_eq. exact Hu.
  - cbn [listed_entry isSyncing]. unfold never_synced. rewrite Hl.
    apply orb_true_r.
Qed.

Lemma post_timetables_then_get_timetables_witness :
  exists body e,
    outcome_of
      (get_timetables [] (Some MoreRequests.bob)
         (world_of (post_timetables Demo.demo_env MoreRequests.bob_request
                      Demo.demo_world)))
    = Returned (Json body) /\
    In e body /\ isSyncing e = true.
Proof.
  destruct (outcome_of (post_timetables Demo.demo_env MoreRequests.bob_request
                          Demo.demo_world)) as [res|e] eqn:Ho.
  2:{ vm_compute in Ho. discriminate. }
  assert (Hst : res_status res = 202)
    by (vm_compute in Ho; injection Ho as <-; reflexivity).
  destruct (post_timetables_then_get_timetables Demo.demo_env
              MoreRequests.bob_request Demo.demo_world res []
              MoreRequests.bob Ho Hst eq_refl)
    as [row [body [_ [Hg [e [Hin [_ Hsync]]]]]]].
  exists body, e. rewrite Hg. repeat split; assumption.
Defined.

(** X21.  After a completed [performSync] of a timetable, an entry of
    [GET /api/timetables] for it has a sync date, is marked as syncing
    exactly when an active or waiting job names the timetable, and lists
    the courses of the timetable that the run kept, followed by the rows
    stored for the fetched events. *)
Theorem performSync_then_get_timetables :
  forall env id w fetched activeJobs session body e,
    completed (outcome_of (performSync env id w)) ->
    In (GetScheduleReturned fetched) (events_of (performSync env id w)) ->
    outcome_of (get_timetables activeJobs (Some session)
                  (world_of (performSync env id w)))
    = Returned (Json body) ->
    In e body -> tt_id (listed e) = id ->
    tt_lastSyncedAt (listed e) <> None /\
    (isSyncing e = true <->
     exists q job,
       timetableQueue w = Some q /\
       In job (activeJobs ++ waiting q) /\ job_timetableId job = id) /\
    exists rows,
      Forall2 (stored_as id) fetched rows /\
      listed_courses e
      = filter (of_timetable id)
          (kept_courses id (fst (fetch_window (clock env (ticks w)))) (courses w))
        ++ rows.
Proof.
  intros env id w fetched activeJobs session body e _ Hsync Hget Hin Hid.
  destruct (performSync_synced_inv env id w fetched Hsync)
    as [rows [synced [n [Hrows [Hw _]]]]].
  rewrite get_timetables_run in Hget. unfold outcome_of in Hget.
  cbn [fst] in Hget. injection Hget as <-.
  apply in_map_iff in Hin. destruct Hin as [t [<- Ht]].
  cbn [listed_entry listed listed_courses isSyncing] in *.
  apply filter_In in Ht. destruct Ht as [Ht _].
  rewrite Hw in Ht |- *. unfold synced_world in Ht |- *.
  cbn [timetables courses timetableQueue] in Ht |- *.
  apply in_map_iff in Ht. destruct Ht as [t0 [Et _]].
  assert (Hsynced : tt_lastSyncedAt t <> None).
  { destruct (has_id id t0) eqn:Hh; subst t.
    - discriminate.
    - unfold has_id in Hh. apply jsstring_eqb_neq in Hh. congruence. }
  split; [exact Hsynced|]. split.
  - rewrite orb_true_iff, includes_iff. unfold never_synced, syncing_ids.
    cbn [timetableQueue]. split.
    + intros [H|H].
      * destruct (timetableQueue w) as [q|]; [|destruct H].
        apply in_map_iff in H. destruct H as [job [E Hj]].
        exists q, job. repeat split; auto. congruence.
      * destruct (tt_lastSyncedAt t); [discriminate|congruence].
    + intros [q [job [Hq [Hj E]]]]. left. rewrite Hq, Hid, <- E.
      now apply in_map.
  - exists rows. split; [exact Hrows|].
    rewrite Hid, filter_app.
    fold (kept_courses id (fst (fetch_window (clock env (ticks w)))) (courses w)).
    f_equal. pose proof (stored_as_timetable _ _ _ Hrows) as Hall.
    clear - Hall. induction Hall as [|r rows Hr _ IH]; [reflexivity|].
    cbn [filter]. unfold of_timetable at 1. rewrite Hr, jsstring_eqb_refl.
    now rewrite IH.
Qed.

Lemma performSync_then_get_timetables_witness :
  exists body e,
    outcome_of
      (get_timetables [] (Some DemoRequests.alice)
         (world_of (performSync Demo.demo_env (js "tt2") Demo.demo_world)))
    = Returned (Json body) /\
    In e body /\ tt_id (listed e) = js "tt2" /\ isSyncing e = false.
Proof.
  destruct (outcome_of
              (get_timetables [] (Some DemoRequests.alice)
                 (world_of (performSync Demo.demo_env (js "tt2")
                              Demo.demo_world)))) as [[body|]|] eqn:Hg;
    try (vm_compute in Hg; discriminate).
  assert (He : exists e, In e body /\ tt_id (listed e) = js "tt2").
  { pose proof Hg as Hb. vm_compute in Hb. injection Hb as Hb. rewrite <- Hb.
    eexists. split; [right; left; reflexivity|reflexivity]. }
  destruct He as [e [Hin Hid]]. exists body, e.
  split; [reflexivity|]. split; [exact Hin|]. split; [exact Hid|].
  destruct (performSync_then_get_timetables Demo.demo_env (js "tt2")
              Demo.demo_world [] [] DemoRequests.alice body e) as [_ [Hs _]];
    auto.
  - vm_compute. eexists. reflexivity.
  - vm_compute. auto 10.
  - destruct (isSyncing e); [|reflexivity].
    destruct (proj1 Hs eq_refl) as [q [job [Hq [Hj _]]]].
    injection Hq as <-. destruct Hj.
Defined.

(* ------------------------------------------------------------------ *)
(** * Keys of the public API *)
(* ------------------------------------------------------------------ *)

Lemma string_items_length items ids :
  string_items items = Some ids -> List.length ids = List.length items.
Proof.
  revert ids. induction items as [|v items IH]; intros ids; cbn.
  - intros H. now injection H as <-.
  - destruct v; try discriminate.
    destruct (string_items items) as [ids'|]; [|discriminate].
    intros H. injection H as <-. cbn. now rewrite (IH ids').
Qed.

Lemma NoDup_map_filter {A B} (f : A -> B) (p : A -> bool) l :
  NoDup (map f l) -> NoDup (map f (filter p l)).
Proof.
  induction l as [|x l IH]; cbn; [auto|].
  intros H. inversion H as [|? ? Hx Hl]; subst.
  destruct (p x); cbn; [|auto].
  constructor; [|auto].
  intros Hin. apply Hx. apply in_map_iff in Hin.
  destruct Hin as [y [E Hy]]. apply filter_In in Hy.
  rewrite <- E. apply in_map. tauto.
Qed.

Lemma found_iff w userId ids id :
  In id (map tt_id (found_timetables w userId ids))
  <-> In id ids /\ owns w userId id.
Proof.
  unfold found_timetables, owns. rewrite in_map_iff. split.
  - intros [t [E Ht]]. apply filter_In in Ht. destruct Ht as [Hin Hc].
    apply andb_true_iff in Hc. destruct Hc as [Hi Hu].
    apply includes_iff in Hi. apply jsstring_eqb_eq in Hu. subst id.
    split; [exact Hi|]. exists t. auto.
  - intros [Hi [t [Hin [E Hu]]]]. exists t. split; [exact E|].
    apply filter_In. split; [exact Hin|].
    apply andb_true_iff. split.
    + apply includes_iff. now rewrite E.
    + now apply jsstring_eqb_eq.
Qed.

(** As many rows are found as identifiers were given exactly when the
    identifiers are distinct and each names a timetable of the user. *)
Lemma found_all_iff w userId ids :
  NoDup (map tt_id (timetables w)) ->
  (List.length (found_timetables w userId ids) = List.length ids <->
   NoDup ids /\ forall id, In id ids -> owns w userId id).
Proof.
  intros unique_ids.
  assert (Hnd : NoDup (map tt_id (found_timetables w userId ids)))
    by (unfold found_timetables; now apply NoDup_map_filter).
  assert (Hincl : incl (map tt_id (found_timetables w userId ids)) ids)
    by (intros id H; now apply found_iff in H).
  split.
  - intros Hlen.
    assert (Hle : (List.length ids
                   <= List.length (map tt_id (found_timetables w userId ids)))%nat)
      by (rewrite length_map; lia).
    split.
    + eapply NoDup_incl_NoDup; eauto.
    + intros id Hid.
      pose proof (NoDup_length_incl Hnd Hle Hincl) as Hback.
      apply Hback in Hid. now apply found_iff in Hid.
  - intros [Hids Hown].
    assert (Hback : incl ids (map tt_id (found_timetables w userId ids))).
    { intros id Hid. apply found_iff. auto. }
    pose proof (NoDup_incl_length Hids Hback) as L1.
    pose proof (NoDup_incl_length Hnd Hincl) as L2.
    rewrite length_map in L1, L2. lia.
Qed.

Section ApiKeyFacts.
Variable createApiKey :
  JsValue -> JsValue -> jsstring -> list JsValue -> Outcome JsValue.

(** The handler once the body was taken apart. *)
Lemma post_api_keys_run req w session items named :
  req_session req = Some session ->
  get_property (req_body req) (js "timetableIds") = JArray items named ->
  truthy (get_property (req_body req) (js "name")) = true ->
  truthy (get_property (req_body req) (js "expiresIn")) = true ->
  post_api_keys createApiKey req w =
    match string_items items with
    | None =>
        (Threw (PrismaError (js "Invalid value provided. Expected String.")),
         w, [])
    | Some ids =>
        if Nat.eqb
             (List.length
                (filter (fun t => includes ids (tt_id t)
                                  && jsstring_eqb (tt_userId t) (user_id session))
                        (timetables w)))
             (List.length items)
        then
          match createApiKey (get_property (req_body req) (js "name"))
                  (get_property (req_body req) (js "expiresIn"))
                  (user_id session) items with
          | Returned result => (Returned (Json result), w, [])
          | Threw error =>
              (Returned (Refused (reject 500 "CREATE_FAILED")), w,
               [ConsoleError (js "[API Keys Error] " ++ exn_message error)])
          end
        else (Returned (Refused (reject 403 "FORBIDDEN")), w, [])
    end.
Proof.
  intros Hs Hids Hname Hexp. unfold post_api_keys. rewrite Hs.
  assert (Hbody : forall b, b = req_body req ->
            get_property b (js "timetableIds") = JArray items named ->
            b <> JUndefined /\ b <> JNull).
  { intros b _ H. split; intros ->; discriminate. }
  destruct (Hbody _ eq_refl Hids) as [N1 N2].
  destruct (req_body req) eqn:Hb; try congruence;
    cbv zeta; rewrite Hids, Hname, Hexp; cbn [negb orb];
    unfold bind, prisma_timetable_findMany_in;
    (destruct (string_items items) as [ids|]; [|reflexivity]);
    (destruct (Nat.eqb _ _); cbn [negb]; [|reflexivity]);
    unfold try_catch, bind, lift;
    (destruct (createApiKey _ _ _ _); reflexivity).
Qed.

End ApiKeyFacts.

(** X22.  When stored timetables have distinct identifiers, [POST
    /api/api-keys] answers with a key only for a session and an array of
    distinct string identifiers, each naming a timetable of the user of
    the session; the key is the one better-auth returned for the name,
    lifetime, user and identifiers of the request, and the world is left
    as it was. *)
Theorem post_api_keys_own_timetables_only :
  forall createApiKey req w apiKey,
    NoDup (map tt_id (timetables w)) ->
    outcome_of (post_api_keys createApiKey req w) = Returned (Json apiKey) ->
    exists session items named ids,
      req_session req = Some session /\
      get_property (req_body req) (js "timetableIds") = JArray items named /\
      string_items items = Some ids /\
      NoDup ids /\
      (forall id, In id ids -> owns w (user_id session) id) /\
      createApiKey (get_property (req_body req) (js "name"))
        (get_property (req_body req) (js "expiresIn")) (user_id session) items
      = Returned apiKey /\
      world_of (post_api_keys createApiKey req w) = w.
Proof.
  intros createApiKey req w apiKey Hunique Ho.
  destruct (req_session req) as [session|] eqn:Hs.
  2:{ unfold post_api_keys in Ho. rewrite Hs in Ho. discriminate. }
  destruct (get_property (req_body req) (js "timetableIds"))
    as [| |?|?|?|items named|?] eqn:Hids.
  all: try (unfold post_api_keys in Ho; rewrite Hs in Ho;
            destruct (req_body req); cbv zeta in Ho; try rewrite Hids in Ho;
            discriminate).
  destruct (truthy (get_property (req_body req) (js "name"))) eqn:Hname.
  2:{ unfold post_api_keys in Ho. rewrite Hs in Ho.
      destruct (req_body req); cbv zeta in Ho; try rewrite Hids, Hname in Ho;
        discriminate. }
  destruct (truthy (get_property (req_body req) (js "expiresIn"))) eqn:Hexp.
  2:{ unfold post_api_keys in Ho. rewrite Hs in Ho.
      destruct (req_body req); cbv zeta in Ho;
        try rewrite Hids, Hname, Hexp in Ho; discriminate. }
  rewrite (post_api_keys_run createApiKey req w session items named
             Hs Hids Hname Hexp) in Ho |- *.
  destruct (string_items items) as [ids|] eqn:Hitems; [|discriminate].
  destruct (Nat.eqb_spec
              (List.length
                 (filter (fun t => includes ids (tt_id t)
                                   && jsstring_eqb (tt_userId t) (user_id session))
                         (timetables w)))
              (List.length items)) as [Hlen|Hlen]; [|discriminate].
  destruct (createApiKey _ _ _ _) as [result|error] eqn:Hc; [|discriminate].
  injection Ho as <-.
  rewrite <- (string_items_length _ _ Hitems) in Hlen.
  apply (found_all_iff w (user_id session) ids Hunique) in Hlen.
  destruct Hlen as [Hnd Hown].
  exists session, items, named, ids. repeat split; auto.
Qed.

Lemma post_api_keys_own_timetables_only_witness :
  exists ids,
    NoDup ids /\
    forall id, In id ids -> owns Demo.demo_world (js "alice") id.
Proof.
  destruct (outcome_of (post_api_keys MoreKeys.demo_createApiKey
                          MoreKeys.key_request Demo.demo_world))
    as [[apiKey|]|] eqn:Ho; try (vm_compute in Ho; discriminate).
  destruct (post_api_keys_own_timetables_only MoreKeys.demo_createApiKey
              MoreKeys.key_request Demo.demo_world apiKey)
    as [session [items [named [ids [Hs [_ [_ [Hnd [Hown _]]]]]]]]].
  - repeat (constructor; [cbn; intuition discriminate|]). constructor.
  - exact Ho.
  - exists ids. split; [exact Hnd|]. injection Hs as <-. exact Hown.
Defined.

(** X23.  For a session and a body with a name, a lifetime and an array
    of string identifiers, [POST /api/api-keys] answers 403 FORBIDDEN
    exactly when the identifiers are not distinct or one of them names
    no timetable of the user: a list that repeats an identifier of the
    user is refused as well. *)
Theorem post_api_keys_refuses :
  forall createApiKey req w session items named ids,
    NoDup (map tt_id (timetables w)) ->
    req_session req = Some session ->
    get_property (req_body req) (js "timetableIds") = JArray items named ->
    string_items items = Some ids ->
    truthy (get_property (req_body req) (js "name")) = true ->
    truthy (get_property (req_body req) (js "expiresIn")) = true ->
    (outcome_of (post_api_keys createApiKey req w)
     = Returned (Refused (reject 403 "FORBIDDEN"))
     <-> ~ (NoDup ids /\ forall id, In id ids -> owns w (user_id session) id)).
Proof.
  intros createApiKey req w session items named ids Hunique Hs Hids Hitems
    Hname Hexp.
  rewrite (post_api_keys_run createApiKey req w session items named
             Hs Hids Hname Hexp), Hitems.
  rewrite <- (found_all_iff w (user_id session) ids Hunique).
  rewrite (string_items_length _ _ Hitems). unfold found_timetables.
  destruct (Nat.eqb_spec
              (List.length
                 (filter (fun t => includes ids (tt_id t)
                                   && jsstring_eqb (tt_userId t) (user_id session))
                         (timetables w)))
              (List.length items)) as [Hlen|Hlen].
  - split; [|contradiction].
    destruct (createApiKey _ _ _ _); discriminate.
  - split; [auto|reflexivity].
Qed.

Lemma post_api_keys_refuses_witness :
  outcome_of
    (post_api_keys MoreKeys.demo_createApiKey
       {| req_session := Some DemoRequests.alice;
          req_body := MoreKeys.key_body [JString (js "tt1"); JString (js "tt1")] |}
       Demo.demo_world)
  = Returned (Refused (reject 403 "FORBIDDEN")).
Proof.
  apply (post_api_keys_refuses MoreKeys.demo_createApiKey
           {| req_session := Some DemoRequests.alice;
              req_body := MoreKeys.key_body
                            [JString (js "tt1"); JString (js "tt1")] |}
           Demo.demo_world DemoRequests.alice
           [JString (js "tt1"); JString (js "tt1")] []
           [js "tt1"; js "tt1"]); try reflexivity.
  - repeat (constructor; [cbn; intuition discriminate|]). constructor.
  - intros [Hnd _]. inversion Hnd as [|? ? Hx _]; subst. apply Hx. now left.
Defined.



(* ------------------------------------------------------------------ *)
(** * Hashes of the stored courses *)
(* ------------------------------------------------------------------ *)

(** Building the rows draws one identifier for each event that lacks a
    hash, in the order of the events. *)
Lemma map_M_course_row_hashes env id fetched : forall w,
  exists rows,
    map_M (course_row env id) fetched w
    = (Returned rows,
       set_ticks (ticks w + List.length (filter lacks_hash fetched)) w, [])
    /\ List.length rows = List.length fetched
    /\ generated_hashes fetched rows
       = map (randomUUID env)
             (seq (ticks w) (List.length (filter lacks_hash fetched))).
Proof.
  induction fetched as [|c fetched IH]; intros w.
  - exists []. cbn. rewrite Nat.add_0_r. destruct w; repeat split; reflexivity.
  - cbn [map_M]. unfold bind at 1. unfold course_row at 1. unfold bind at 1.
    destruct (truthy_opt (fc_hash c)) eqn:T.
    + assert (Hl : lacks_hash c = false) by (unfold lacks_hash; now rewrite T).
      unfold ret at 1. cbn iota beta. unfold ret at 1.
      destruct (IH w) as [rows [E [L G]]].
      unfold bind. rewrite E. unfold ret. eexists.
      cbn [filter]. rewrite Hl. split; [reflexivity|].
      split; [cbn; now rewrite L|].
      unfold generated_hashes. cbn [combine filter fst]. rewrite Hl. exact G.
    + assert (Hl : lacks_hash c = true) by (unfold lacks_hash; now rewrite T).
      unfold crypto_randomUUID. cbn iota beta. unfold ret at 1.
      destruct (IH (tick w)) as [rows [E [L G]]].
      unfold bind. rewrite E. unfold ret. eexists.
      cbn [filter]. rewrite Hl. split.
      * cbn [app List.length tick set_ticks ticks].
        replace (S (ticks w) + List.length (filter lacks_hash fetched))%nat
          with (ticks w + S (List.length (filter lacks_hash fetched)))%nat
          by lia.
        reflexivity.
      * split; [cbn; now rewrite L|].
        unfold generated_hashes. cbn [combine filter fst]. rewrite Hl.
        cbn [map snd course_hash List.length seq].
        f_equal. exact G.
Qed.

(** The rows of a [createMany] call are the ones built from the events
    the provider returned, the clock having been read once. *)
Lemma performSync_created_rows_aux env id w rows : forall run,
  performSync env id w = run ->
  In (CourseCreateMany rows) (events_of run) ->
  exists fetched w0,
    In (GetScheduleReturned fetched) (events_of run) /\
    ticks w0 = S (ticks w) /\
    fst (fst (map_M (course_row env id) fetched w0)) = Returned rows.
Proof.
  intros run. unfold performSync.
  destruct (timetableQueue w) as [q|] eqn:Hq.
  2:{ unfold bind, console_warn, emit, ret. cbn [app].
      intros <- H. unfold events_of in H. cbn [snd] in H. which_event H. }
  unfold try_catch, sync_body. unfold bind at 1.
  unfold prisma_timetable_findUnique.
  destruct (stored_timetable id w) as [[t [c|]]|] eqn:Hs.
  - destruct (stored_timetable_id _ _ _ _ Hs) as [Hid [_ Hex]].
    destruct (getProvider env (tt_providerId t)) as [p|] eqn:Hp.
    2:{ unfold throw, console_error, emit, bind. cbn -[In].
        intros <- H. unfold events_of in H. cbn [snd] in H. which_event H. }
    unfold bind at 1. unfold emit at 1. unfold bind at 1. unfold lift at 1.
    destruct (provider_credentials env t c) as [creds|e] eqn:Hc.
    2:{ unfold throw, console_error, emit, bind. cbn -[In].
        intros <- H. unfold events_of in H. cbn [snd] in H. which_event H. }
    unfold bind at 1. unfold Date_now at 1.
    destruct (fetch_window (clock env (ticks w))) as [from to] eqn:Hw.
    unfold bind at 1. unfold provider_getSchedule, bind at 1, emit at 1.
    destruct (getSchedule p creds from to) as [fetched|e] eqn:Hg.
    2:{ unfold throw, console_error, emit, bind. cbn -[In].
        intros <- H. unfold events_of in H. cbn [snd] in H. which_event H. }
    unfold bind at 1, emit at 1, ret at 1. rewrite Hid.
    unfold bind at 1, prisma_course_deleteMany at 1.
    set (w0 := set_courses
                 (filter (fun c0 => negb (in_delete_range id from c0))
                         (courses (tick w))) (tick w)).
    destruct (map_M_course_row env id fetched w0) as [rows' [n [Em _]]].
    destruct fetched as [|f fetched].
    + unfold prisma_timetable_update, bind, Date_now, ret. cbn -[In].
      rewrite Hex. cbn -[In].
      intros <- H. unfold events_of in H. cbn [snd] in H. which_event H.
    + cbn [List.length]. replace (0 <? Z.of_nat (S (List.length fetched)))
        with true by (symmetry; apply Z.ltb_lt; lia).
      unfold bind at 1. unfold bind at 1. fold w0. rewrite Em.
      unfold prisma_course_createMany, bind, Date_now, prisma_timetable_update, ret.
      cbn -[In]. rewrite Hex. cbn -[In].
      intros <- H. unfold events_of in H |- *. cbn [snd] in H |- *.
      which_event H. injection H as <-.
      exists (f :: fetched), w0. split; [cbn [In]; auto 10|].
      split; [reflexivity|]. now rewrite Em.
  - unfold bind, console_warn, emit.
    rewrite (remove_repeatable_jobs_run _ _ _ Hq). unfold ret.
    cbn [app].
    intros <- H. unfold events_of in H. cbn [snd] in H. which_event H.
  - unfold bind, console_warn, emit.
    rewrite (remove_repeatable_jobs_run _ _ _ Hq). unfold ret.
    cbn [app].
    intros <- H. unfold events_of in H. cbn [snd] in H. which_event H.
Qed.

(** The rows of a [createMany] call are the ones built from the events
    the provider returned, the clock having been read once. *)
Lemma performSync_created_rows env id w rows :
  In (CourseCreateMany rows) (events_of (performSync env id w)) ->
  exists fetched w0,
    In (GetScheduleReturned fetched) (events_of (performSync env id w)) /\
    ticks w0 = S (ticks w) /\
    fst (fst (map_M (course_row env id) fetched w0)) = Returned rows.
Proof. apply (performSync_created_rows_aux env id w rows _ eq_refl). Qed.

Lemma NoDup_map_of_injective {A B} (f : A -> B) l :
  (forall a b, f a = f b -> a = b) -> NoDup l -> NoDup (map f l).
Proof.
  intros Hinj. induction 1 as [|x l Hx _ IH]; cbn; constructor; auto.
  intros Hin. apply in_map_iff in Hin. destruct Hin as [y [E Hy]].
  apply Hinj in E. now subst.
Qed.

(** X25.  [performSync] writes as many rows as events were fetched, and
    the hashes of the rows of the events that came without one are
    successive values of [crypto.randomUUID], one per such event: they
    are distinct whenever the generator does not repeat itself. *)
Theorem performSync_generated_hashes :
  forall env id w rows,
    In (CourseCreateMany rows) (events_of (performSync env id w)) ->
    exists fetched,
      In (GetScheduleReturned fetched) (events_of (performSync env id w)) /\
      List.length rows = List.length fetched /\
      generated_hashes fetched rows
      = map (randomUUID env)
            (seq (S (ticks w)) (List.length (filter lacks_hash fetched))) /\
      ((forall a b, randomUUID env a = randomUUID env b -> a = b) ->
       NoDup (generated_hashes fetched rows)).
Proof.
  intros env id w rows H.
  destruct (performSync_created_rows env id w rows H)
    as [fetched [w0 [Hf [Ht Hr]]]].
  destruct (map_M_course_row_hashes env id fetched w0) as [rows' [E [L G]]].
  rewrite E in Hr. cbn [fst] in Hr. injection Hr as <-.
  rewrite Ht in G.
  exists fetched. split; [exact Hf|]. split; [exact L|]. split; [exact G|].
  intros Hinj. rewrite G. apply NoDup_map_of_injective; [exact Hinj|].
  apply seq_NoDup.
Qed.

Lemma performSync_generated_hashes_witness :
  exists rows,
    In (CourseCreateMany rows)
       (events_of (performSync Demo.demo_env (js "tt1") Demo.demo_world)) /\
    generated_hashes [Demo.lecture; Demo.seminar] rows = [js "uuid-1"].
Proof.
  assert (H : exists rows,
             In (CourseCreateMany rows)
                (events_of (performSync Demo.demo_env (js "tt1") Demo.demo_world)))
    by (vm_compute; eauto 10).
  destruct H as [rows H]. exists rows. split; [exact H|].
  destruct (performSync_generated_hashes Demo.demo_env (js "tt1")
              Demo.demo_world rows H) as [fetched [Hf [_ [G _]]]].
  assert (fetched = [Demo.lecture; Demo.seminar]).
  { vm_compute in Hf.
    repeat (destruct Hf as [Hf|Hf]; [try discriminate Hf|]); [|destruct Hf].
    now injection Hf as <-. }
  subst fetched. rewrite G. vm_compute. reflexivity.
Defined.
